(** * ECE65 lab setup: the oscilloscope data copier and the command line

    A shallow embedding of [helper.py] (class [OscilloscopeDataCopier] with
    its helper classes [File], [CSVFile] and [JPGFile]) and of
    [setup_lab.py]: the argument checks, the mode dispatch, the lab
    directory with its sub-directories, and the cells of the two notebooks.

    Python strings are [string] (one [ascii] per character, so [lower]
    is the ASCII case fold).  The file system is an association list from
    absolute component paths to nodes, kept in creation order: that order
    is the order in which a directory is listed.  Paths written as strings
    are resolved lexically ([""] and ["."] are skipped, [".."] pops); there
    are no symbolic links, permissions or devices.  [glob] matches the
    last component of its pattern against the names in the directory
    written before it; a directory part with a wildcard of its own is
    not expanded.  Console output is not part of the state. *)

From Stdlib Require Import ZArith Ascii String DecimalString DecimalZ DecimalPos.
From stdpp Require Import base option list relations strings.

Local Open Scope string_scope.
Local Open Scope list_scope.

(** ** Python strings *)

Module Str.

Definition slash : ascii := "/"%char.

Definition is_upper (c : ascii) : bool :=
  let n := nat_of_ascii c in (65 <=? n)%nat && (n <=? 90)%nat.

Definition lower_char (c : ascii) : ascii :=
  if is_upper c then ascii_of_nat (nat_of_ascii c + 32) else c.

(** [s.lower()] *)
Fixpoint lower (s : string) : string :=
  match s with
  | EmptyString => EmptyString
  | String c r => String (lower_char c) (lower r)
  end.

(** [s.split(sep)] for a one-character separator: never empty. *)
Fixpoint split (sep : ascii) (s : string) : list string :=
  match s with
  | EmptyString => [EmptyString]
  | String c r =>
      if decide (c = sep) then EmptyString :: split sep r
      else match split sep r with
           | h :: t => String c h :: t
           | [] => [String c EmptyString]
           end
  end.

(** [l[-k]] for [k >= 1]; [None] stands for IndexError. *)
Definition index_from_end {A} (k : nat) (l : list A) : option A :=
  if decide (k = 0 ∨ length l < k) then None else l !! (length l - k).

(** [s[k:]] *)
Fixpoint drop (k : nat) (s : string) : string :=
  match k, s with
  | S k', String _ r => drop k' r
  | _, _ => s
  end.

(** [s[-n:]] for [n >= 1]: the last [n] characters, all of [s] when it
    is shorter. *)
Definition last_chars (n : nat) (s : string) : string :=
  drop (String.length s - n) s.

Definition starts_with_slash (s : string) : bool :=
  match s with String c _ => bool_decide (c = slash) | EmptyString => false end.

Fixpoint ends_with_slash (s : string) : bool :=
  match s with
  | EmptyString => false
  | String c EmptyString => bool_decide (c = slash)
  | String _ r => ends_with_slash r
  end.

Fixpoint contains (c : ascii) (s : string) : bool :=
  match s with
  | EmptyString => false
  | String d r => bool_decide (d = c) || contains c r
  end.

Fixpoint all_slashes (s : string) : bool :=
  match s with
  | EmptyString => true
  | String c r => bool_decide (c = slash) && all_slashes r
  end.

(** [s.rstrip("/")] *)
Fixpoint rstrip_slash (s : string) : string :=
  match s with
  | EmptyString => EmptyString
  | String c r => if all_slashes (String c r) then EmptyString
                  else String c (rstrip_slash r)
  end.

(** The part of [s] up to and including its last ["/"], and the rest. *)
Fixpoint cut_last_slash (s : string) : string * string :=
  match s with
  | EmptyString => (EmptyString, EmptyString)
  | String c r =>
      let (h, t) := cut_last_slash r in
      if contains slash r then (String c h, t)
      else if decide (c = slash) then (String c EmptyString, r)
      else (EmptyString, String c r)
  end.

Definition is_digit (c : ascii) : bool :=
  let n := nat_of_ascii c in (48 <=? n)%nat && (n <=? 57)%nat.

(** A number written in decimal: only digits. *)
Fixpoint digits (s : string) : bool :=
  match s with
  | EmptyString => true
  | String c r => is_digit c && digits r
  end.

End Str.

(** ** [os.path] on strings (posixpath) *)

Module OsPath.

(** [os.path.join(a, b)] *)
Definition join (a b : string) : string :=
  if Str.starts_with_slash b then b
  else if decide (a = "") then b
  else if Str.ends_with_slash a then a +:+ b
  else a +:+ "/" +:+ b.

(** [os.path.split(p)]: head without its trailing slashes (unless it is
    nothing but slashes), and the part after the last slash. *)
Definition split (p : string) : string * string :=
  let (head, tail) := Str.cut_last_slash p in
  (if Str.all_slashes head then head else Str.rstrip_slash head, tail).

(** [os.path.basename(p)] *)
Definition basename (p : string) : string := snd (Str.cut_last_slash p).

End OsPath.

(** ** [fnmatch] and the shape of glob patterns *)

Module Fnmatch.

(** [glob.has_magic]: one of [*], [?], [[] occurs. *)
Definition has_magic (s : string) : bool :=
  Str.contains "*"%char s || Str.contains "?"%char s || Str.contains "["%char s.

(** [glob._ishidden] *)
Definition is_hidden (s : string) : bool :=
  match s with String c _ => bool_decide (c = "."%char) | EmptyString => false end.

(** [fnmatch.fnmatchcase] for patterns made of literal characters, [*]
    and [?] (the copier's patterns contain no bracket). *)
Fixpoint fnmatch (pat name : string) : bool :=
  match pat with
  | EmptyString => match name with EmptyString => true | _ => false end
  | String c pat' =>
      if decide (c = "*"%char) then
        (fix star (n : string) : bool :=
           fnmatch pat' n
           || match n with EmptyString => false | String _ n' => star n' end) name
      else
        match name with
        | EmptyString => false
        | String d name' =>
            (bool_decide (c = "?"%char) || bool_decide (c = d)) && fnmatch pat' name'
        end
  end.

End Fnmatch.

(** ** The file system *)

Inductive node : Type :=
| File (content : string)
| Dir.

Abbreviation path := (list string).
Abbreviation tree := (list (path * node)).

Global Instance node_eq_dec : EqDecision node.
Proof. solve_decision. Defined.

Definition is_dir (n : node) : bool := match n with Dir => true | File _ => false end.

(** A legal file name: not empty, no slash, neither [.] nor [..]. *)
Definition valid_name (n : string) : Prop :=
  n ≠ "" ∧ Str.contains Str.slash n = false ∧ n ≠ "." ∧ n ≠ "..".

Global Instance valid_name_dec n : Decision (valid_name n).
Proof. unfold valid_name. apply _. Defined.

Module Fs.

Definition parent (p : path) : path := removelast p.

(** First entry stored for [p]. *)
Fixpoint lookup (t : tree) (p : path) : option node :=
  match t with
  | [] => None
  | (q, n) :: r => if decide (q = p) then Some n else lookup r p
  end.

(** The node a path names; the root is always a directory. *)
Definition node_at (t : tree) (p : path) : option node :=
  match p with [] => Some Dir | _ => lookup t p end.

(** Replace the node of the first entry stored for [p]. *)
Fixpoint replace (p : path) (n : node) (t : tree) : tree :=
  match t with
  | [] => []
  | (q, m) :: r => if decide (q = p) then (q, n) :: r else (q, m) :: replace p n r
  end.

(** Create or overwrite: an existing entry keeps its place, a new one
    goes last. *)
Definition put (p : path) (n : node) (t : tree) : tree :=
  match lookup t p with
  | Some _ => replace p n t
  | None => t ++ [(p, n)]
  end.

(** Drop the first entry stored for [p]. *)
Fixpoint remove (p : path) (t : tree) : tree :=
  match t with
  | [] => []
  | (q, m) :: r => if decide (q = p) then r else (q, m) :: remove p r
  end.

(** Names of the entries directly under [d], in the tree's order. *)
Fixpoint children (t : tree) (d : path) : list string :=
  match t with
  | [] => []
  | (q, _) :: r =>
      match last q with
      | Some n => if decide (q = d ++ [n]) then n :: children r d else children r d
      | None => children r d
      end
  end.

(** The tree is a file-system tree: one entry per path, legal names,
    and every entry sits in a directory. *)
Definition wf (t : tree) : Prop :=
  NoDup (t.*1)
  ∧ Forall (λ e, e.1 ≠ [] ∧ Forall valid_name e.1
                 ∧ node_at t (parent e.1) = Some Dir) t.

Global Instance wf_dec t : Decision (wf t).
Proof. unfold wf. apply _. Defined.

Fixpoint normalize (stack : list string) (cs : list string) : path :=
  match cs with
  | [] => rev stack
  | c :: r =>
      if decide (c = "" ∨ c = ".") then normalize stack r
      else if decide (c = "..") then normalize (tail stack) r
      else normalize (c :: stack) r
  end.

(** The component path a string names when the working directory is
    [cwd]. *)
Definition resolve (cwd : path) (s : string) : path :=
  normalize (if Str.starts_with_slash s then [] else rev cwd)
            (Str.split Str.slash s).

(** The string [os.getcwd()] returns. *)
Definition path_string (p : path) : string :=
  match p with
  | [] => "/"
  | _ => String.concat "" (map (λ c, "/" +:+ c) p)
  end.

End Fs.

(** ** Exceptions, the world and the error-and-state monad *)

Inductive exn : Type :=
| FileNotFoundError
| FileExistsError
| NotADirectoryError
| IsADirectoryError
| SameFileError
| DirectoryNotEmpty      (* OSError, ENOTEMPTY *)
| IndexError
| TypeError
| ParserError            (* parser.error: usage message, exit status 2 *)
| GlobOutsideModel.      (* a pattern whose directory part has wildcards *)

Global Instance exn_eq_dec : EqDecision exn.
Proof. solve_decision. Defined.

(** A Python value that reaches a path argument: a [str], or the [bool]
    that [setup_lab.py] passes as destination. *)
Inductive pyval : Type :=
| PStr (s : string)
| PBool (b : bool).

(** The file tree, and the calls to [shutil.copy] that succeeded, oldest
    first, as (source, destination) argument pairs. *)
Record world : Type := World {
  files : tree;
  copied : list (string * string)
}.

Inductive result (A : Type) : Type :=
| Ok (a : A)
| Raise (e : exn).
Arguments Ok {A} a.
Arguments Raise {A} e.

Definition M (A : Type) : Type := world → result A * world.

Definition ret {A} (a : A) : M A := λ w, (Ok a, w).
Definition raise {A} (e : exn) : M A := λ w, (Raise e, w).
Definition bind {A B} (m : M A) (k : A → M B) : M B :=
  λ w, match m w with
       | (Ok a, w') => k a w'
       | (Raise e, w') => (Raise e, w')
       end.

Notation "'let*' x ':=' m 'in' k" := (bind m (λ x, k))
  (at level 10, x pattern, m at level 100, k at level 200).
Notation "m ';;' k" := (bind m (λ _, k))
  (at level 100, k at level 200, right associativity).

(** [for x in l: body(x)] *)
Fixpoint for_each {A} (l : list A) (body : A → M unit) : M unit :=
  match l with
  | [] => ret tt
  | x :: r => body x ;; for_each r body
  end.

(** [try: m except e: pass] *)
Definition ignoring (e : exn) (m : M unit) : M unit :=
  λ w, match m w with
       | (Raise e', w') => if decide (e' = e) then (Ok tt, w') else (Raise e', w')
       | r => r
       end.

Definition when (b : bool) (m : M unit) : M unit := if b then m else ret tt.

(** ** The operating system calls the program makes *)

Section Program.

(** The working directory, and which file descriptors are open. *)
Variable cwd : path.
Variable fd_open : nat → bool.

(** The two notebook documents as [nbformat] serialises them; their
    text comes from string templates and is not looked into. *)
Variable prelab_notebook report_notebook : string.

Definition as_str (v : pyval) : M string :=
  match v with PStr s => ret s | PBool _ => raise TypeError end.

(** [os.path.join(v, b)]: TypeError unless [v] is a string. *)
Definition path_join (v : pyval) (b : string) : M string :=
  let* a := as_str v in ret (OsPath.join a b).

Definition exists_in (t : tree) (s : string) : bool :=
  if decide (s = "") then false
  else bool_decide (is_Some (Fs.node_at t (Fs.resolve cwd s))).

(** [os.path.exists(v)]; an integer (a [bool] is one) is taken as a
    file descriptor. *)
Definition path_exists (v : pyval) : M bool :=
  λ w, match v with
       | PStr s => (Ok (exists_in (files w) s), w)
       | PBool b => (Ok (fd_open (if b then 1 else 0)), w)
       end.

Definition isdir_in (t : tree) (s : string) : bool :=
  if decide (s = "") then false
  else bool_decide (Fs.node_at t (Fs.resolve cwd s) = Some Dir).

(** [os.mkdir] of a resolved path. *)
Definition mkdir_path (p : path) : M unit :=
  λ w, match Fs.node_at (files w) p with
       | Some _ => (Raise FileExistsError, w)
       | None =>
           match Fs.node_at (files w) (Fs.parent p) with
           | None => (Raise FileNotFoundError, w)
           | Some (File _) => (Raise NotADirectoryError, w)
           | Some Dir =>
               (Ok tt, {| files := files w ++ [(p, Dir)]; copied := copied w |})
           end
       end.

(** [os.makedirs] on the reversed component path: first the missing
    ancestors, then the leaf. *)
Fixpoint makedirs_rev (rp : list string) : M unit :=
  match rp with
  | [] => mkdir_path []
  | c :: h =>
      (λ w, when (bool_decide (h ≠ [])
                  && bool_decide (Fs.node_at (files w) (rev h) = None))
                 (ignoring FileExistsError (makedirs_rev h)) w) ;;
      mkdir_path (rev (c :: h))
  end.

(** [os.makedirs(v)] *)
Definition makedirs (v : pyval) : M unit :=
  let* s := as_str v in
  if decide (s = "") then raise FileNotFoundError
  else makedirs_rev (rev (Fs.resolve cwd s)).

(** [os.rmdir(v)] *)
Definition rmdir (v : pyval) : M unit :=
  let* s := as_str v in
  λ w, if decide (s = "") then (Raise FileNotFoundError, w) else
       let p := Fs.resolve cwd s in
       match Fs.node_at (files w) p with
       | None => (Raise FileNotFoundError, w)
       | Some (File _) => (Raise NotADirectoryError, w)
       | Some Dir =>
           match Fs.children (files w) p with
           | _ :: _ => (Raise DirectoryNotEmpty, w)
           | [] =>
               if decide (p = []) then (Raise DirectoryNotEmpty, w)
               else (Ok tt, {| files := Fs.remove p (files w); copied := copied w |})
           end
       end.

(** [open(p, "w")] followed by writing [c]: create or truncate. *)
Definition write_at (t : tree) (p : path) (c : string) : exn + tree :=
  match Fs.node_at t p with
  | Some Dir => inl IsADirectoryError
  | Some (File _) => inr (Fs.replace p (File c) t)
  | None =>
      match Fs.node_at t (Fs.parent p) with
      | None => inl FileNotFoundError
      | Some (File _) => inl NotADirectoryError
      | Some Dir => inr (t ++ [(p, File c)])
      end
  end.

(** [shutil.copy(src, dst)]: into [dst] when it is a directory; the
    source is opened for reading, then the target for writing. *)
Definition shutil_copy (src dst : string) : M unit :=
  λ w,
    let t := files w in
    let dst' := if isdir_in t dst then OsPath.join dst (OsPath.basename src) else dst in
    let ps := Fs.resolve cwd src in
    let pd := Fs.resolve cwd dst' in
    if exists_in t src && exists_in t dst' && bool_decide (ps = pd)
    then (Raise SameFileError, w)
    else if decide (src = "" ∨ dst' = "") then (Raise FileNotFoundError, w)
    else
      match Fs.node_at t ps with
      | None => (Raise FileNotFoundError, w)
      | Some Dir => (Raise IsADirectoryError, w)
      | Some (File c) =>
          match write_at t pd c with
          | inl e => (Raise e, w)
          | inr t' => (Ok tt, {| files := t'; copied := copied w ++ [(src, dst)] |})
          end
      end.

(** Writing a whole text file, as [nbformat.write] does to its path. *)
Definition write_file (s content : string) : M unit :=
  λ w, if decide (s = "") then (Raise FileNotFoundError, w) else
       match write_at (files w) (Fs.resolve cwd s) content with
       | inl e => (Raise e, w)
       | inr t' => (Ok tt, {| files := t'; copied := copied w |})
       end.

(** [os.remove(s)] *)
Definition os_remove (s : string) : M unit :=
  λ w, if decide (s = "") then (Raise FileNotFoundError, w) else
       let p := Fs.resolve cwd s in
       match Fs.node_at (files w) p with
       | None => (Raise FileNotFoundError, w)
       | Some Dir => (Raise IsADirectoryError, w)
       | Some (File _) =>
           (Ok tt, {| files := Fs.remove p (files w); copied := copied w |})
       end.

(** What [os.scandir] lists for a directory string; nothing when it is
    not a directory ([glob] swallows the OSError). *)
Definition listdir_in (t : tree) (dirname : string) : list string :=
  let p := if decide (dirname = "") then cwd else Fs.resolve cwd dirname in
  match Fs.node_at t p with
  | Some Dir => Fs.children t p
  | _ => []
  end.

(** [glob.glob(pathname)]: the names in the directory part that match the
    last component.  The directory part is taken as it is written.
    Python expands a directory part that itself holds a wildcard over
    the directories matching it; that expansion, and bracket classes,
    are not modelled: the model stops there with [GlobOutsideModel], and
    what is stated below about the files that are copied is stated for
    names without wildcards. *)
Definition glob (pathname : string) : M (list string) :=
  λ w,
    let (dirname, basename) := OsPath.split pathname in
    if negb (Fnmatch.has_magic pathname) then
      (Ok (if (if decide (basename = "") then isdir_in (files w) dirname
               else exists_in (files w) pathname)
           then [pathname] else []), w)
    else if Fnmatch.has_magic dirname || Str.contains "["%char basename then
      (Raise GlobOutsideModel, w)
    else
      let names := listdir_in (files w) dirname in
      let visible :=
        if Fnmatch.is_hidden basename then names
        else filter (λ n, Fnmatch.is_hidden n = false) names in
      let matched := filter (λ n, Fnmatch.fnmatch basename n = true) visible in
      (Ok (if decide (dirname = "") then matched
           else map (OsPath.join dirname) matched), w).

(** ** [helper.py]: class [OscilloscopeDataCopier] *)

(** A [File] object (and its subclasses): where the file is, and the
    name it is saved under. *)
Record FileObj : Type := { location : string; name : string }.

(** [File.__init__] *)
Definition File_init (loc : string) : M FileObj :=
  let* found := path_exists (PStr loc) in
  if found then ret {| location := loc; name := OsPath.basename loc |}
  else raise FileNotFoundError.

(** [File.save] *)
Definition File_save (self : FileObj) (destination : pyval)
    (verbose softrun : bool) : M unit :=
  let* found := path_exists destination in
  if negb found then raise FileNotFoundError
  else
    when (verbose || softrun)
         (let* _ := path_join destination (name self) in ret tt) ;;
    when (negb softrun)
         (let* target := path_join destination (name self) in
          shutil_copy (location self) target).

(** [str(self.location).split("/")[-2]] *)
Definition parent_dir_name (loc : string) : M string :=
  match Str.index_from_end 2 (Str.split Str.slash loc) with
  | Some d => ret d
  | None => raise IndexError
  end.

(** [CSVFile.__init__] *)
Definition CSVFile_init (loc : string) (rename : bool) : M FileObj :=
  let* self := File_init loc in
  if rename then
    let* d := parent_dir_name (location self) in
    ret {| location := location self;
           name := Str.lower (d +:+ "." +:+ Str.last_chars 7 (name self)) |}
  else ret self.

(** [JPGFile.__init__] *)
Definition JPGFile_init (loc : string) : M FileObj :=
  let* self := File_init loc in
  let* d := parent_dir_name (location self) in
  ret {| location := location self; name := Str.lower d +:+ ".jpg" |}.

Record Copier : Type := {
  drive_location : string;
  exercise_parts : list string
}.

(** [OscilloscopeDataCopier.__init__] *)
Definition Copier_init (drive_name : string) : M Copier :=
  let loc := OsPath.join "/Volumes" drive_name in
  let* found := path_exists (PStr loc) in
  if negb found then raise FileNotFoundError
  else
    let* parts := glob (OsPath.join loc "E*P*") in
    ret {| drive_location := loc; exercise_parts := parts |}.

(** The body of the JPG loop: the first [*.JPG] of one folder. *)
Definition save_jpg_of (to_save_path : string) (verbose softrun : bool)
    (exercise_part : string) : M unit :=
  let* jpgs := glob (OsPath.join exercise_part "*.JPG") in
  match jpgs with
  | [] => raise IndexError
  | first :: _ =>
      let* f := JPGFile_init first in
      File_save f (PStr to_save_path) verbose softrun
  end.

(** The [if save_jpg:] block of [copy_scope_data]. *)
Definition save_jpgs (self : Copier) (destination : pyval)
    (verbose softrun : bool) : M unit :=
  let* to_save_path := path_join destination "jpgs" in
  let* found := path_exists (PStr to_save_path) in
  when (negb found) (makedirs (PStr to_save_path)) ;;
  for_each (exercise_parts self) (save_jpg_of to_save_path verbose softrun) ;;
  when softrun (rmdir (PStr to_save_path)).

(** The body of the CSV loop: every [*.CSV] of one folder. *)
Definition save_csvs_of (destination : pyval)
    (create_folders rename_csv verbose softrun : bool)
    (exercise_part : string) : M unit :=
  let* to_save_path :=
    if create_folders then
      let* p := path_join destination (OsPath.basename exercise_part) in
      ret (PStr p)
    else ret destination in
  when create_folders
       (let* found := path_exists to_save_path in
        when (negb found) (makedirs to_save_path)) ;;
  let* csvs := glob (OsPath.join exercise_part "*.CSV") in
  for_each csvs (λ csv_file,
    let* f := CSVFile_init csv_file rename_csv in
    File_save f to_save_path verbose softrun) ;;
  when (softrun && create_folders) (rmdir to_save_path).

(** The CSV loop of [copy_scope_data]. *)
Definition save_csvs (self : Copier) (destination : pyval)
    (create_folders rename_csv verbose softrun : bool) : M unit :=
  for_each (exercise_parts self)
           (save_csvs_of destination create_folders rename_csv verbose softrun).

(** [OscilloscopeDataCopier.copy_scope_data] *)
Definition copy_scope_data (self : Copier) (destination : pyval)
    (create_folders rename_csv save_jpg verbose softrun : bool) : M unit :=
  let* found := path_exists destination in
  if negb found then raise FileNotFoundError
  else
    when save_jpg (save_jpgs self destination verbose softrun) ;;
    save_csvs self destination create_folders rename_csv verbose softrun.

(** ** [setup_lab.py] *)

(** The parsed command line ([args]). *)
Record Args : Type := {
  lab_number : Z;
  num_exercises : Z;
  generate_notebooks : bool;
  verbose : bool;
  drive_name : string;
  c : bool;
  prelab_only : bool;
  student_names : option (list string);
  student_ids : option (list string)
}.

(** [not l] for an optional list argument. *)
Definition falsy (l : option (list string)) : bool :=
  match l with
  | None | Some [] => true
  | Some (_ :: _) => false
  end.

Definition len (l : option (list string)) : nat :=
  match l with Some x => length x | None => 0 end.

(** [str(n)] *)
Definition str_of_int (n : Z) : string := NilZero.string_of_int (Z.to_int n).

(** The checks that end in [parser.error]. *)
Definition check_args (a : Args) : M unit :=
  when (generate_notebooks a)
       (if falsy (student_names a) || falsy (student_ids a)
        then raise ParserError
        else when (negb (len (student_names a) =? len (student_ids a))%nat)
                  (raise ParserError)) ;;
  when (prelab_only a && c a) (raise ParserError).

(** [if not os.path.exists(d): os.makedirs(d)] *)
Definition ensure_dir (d : string) : M unit :=
  let* found := path_exists (PStr d) in
  when (negb found) (makedirs (PStr d)).

(** The [else] branch: the lab directory, its sub-directories, the copy
    into [scope], the notebooks. *)
Definition scaffold (a : Args) : M unit :=
  let lab_name := "Lab " +:+ str_of_int (lab_number a) in
  let lab_dir := OsPath.join (Fs.path_string cwd) lab_name in
  ensure_dir lab_dir ;;
  for_each ["assets"; "prelab"; "scope"]
           (λ dir_type, ensure_dir (OsPath.join lab_dir dir_type)) ;;
  when (0 <? num_exercises a)%Z
       (for_each (map Z.of_nat (seq 1 (Z.to_nat (num_exercises a))))
                 (λ i, ensure_dir (OsPath.join (OsPath.join lab_dir "prelab")
                                               ("exp" +:+ str_of_int i)))) ;;
  when (negb (prelab_only a))
       (let* copier := Copier_init (drive_name a) in
        copy_scope_data copier (PStr (OsPath.join lab_dir "scope"))
                        false true true (verbose a) false) ;;
  when (generate_notebooks a)
       (write_file (OsPath.join lab_dir
                      ("prelab" +:+ str_of_int (lab_number a) +:+ ".ipynb"))
                   prelab_notebook ;;
        let report := OsPath.join lab_dir
                        ("Lab Report " +:+ str_of_int (lab_number a) +:+ ".ipynb") in
        let* found := path_exists (PStr report) in
        when found (os_remove report) ;;
        write_file report report_notebook).

(** The script after [parse_args]: the flag [copy_only] itself is what
    the copy-only branch passes as destination. *)
Definition main (a : Args) : M unit :=
  check_args a ;;
  if c a then
    let* copier := Copier_init (drive_name a) in
    copy_scope_data copier (PBool (c a)) false true true (verbose a) false
  else scaffold a.

(** ** Notions used to state the properties *)

(** [p] lies strictly below the directory [d]. *)
Definition below (d p : path) : Prop := d `prefix_of` p ∧ p ≠ d.

Global Instance below_dec d p : Decision (below d p).
Proof. unfold below. apply _. Defined.

(** Keys with the kind of node they hold. *)
Definition shape (t : tree) : list (path * bool) := map (λ e, (e.1, is_dir e.2)) t.

(** The entries that are not below [d], in order. *)
Definition outside (d : path) (t : tree) : tree := filter (λ e, ¬ below d e.1) t.

(** The entries at or below [d], in order. *)
Definition inside (d : path) (t : tree) : tree := filter (λ e, d `prefix_of` e.1) t.

(** The file entries, in order. *)
Definition file_entries (t : tree) : tree := filter (λ e, is_dir e.2 = false) t.

(** [m] relates every world to the one it leaves, whatever the outcome. *)
Definition preserves {A} (R : world → world → Prop) (m : M A) : Prop :=
  ∀ w, R w (m w).2.

(** The copy log and the file entries are the same. *)
Definition same_files (w w' : world) : Prop :=
  copied w' = copied w ∧ file_entries (files w') = file_entries (files w).

(** One change of the tree below [d]: a new entry in an existing
    directory, new content for a file, or (when [rm]) an empty directory
    removed. *)
Inductive step (rm : bool) (d : path) : tree → tree → Prop :=
| step_add (t : tree) (p : path) (n : node) :
    below d p → Forall valid_name p → Fs.node_at t p = None →
    Fs.node_at t (Fs.parent p) = Some Dir →
    step rm d t (t ++ [(p, n)])
| step_write (t : tree) (p : path) (c c' : string) :
    below d p → Fs.lookup t p = Some (File c) →
    step rm d t (Fs.replace p (File c') t)
| step_rmdir (t : tree) (p : path) :
    rm = true → below d p → Fs.lookup t p = Some Dir → Fs.children t p = [] →
    step rm d t (Fs.remove p t).

(** The tree changes from [w] to [w'] by changes below [d], and every
    copy logged on the way satisfies [P], provided [w] is a file-system
    tree in which [d] exists. *)
Definition evolves (rm : bool) (d : path) (P : string * string → Prop)
    (w w' : world) : Prop :=
  Fs.wf (files w) → is_Some (Fs.node_at (files w) d) →
  rtc (step rm d) (files w) (files w')
  ∧ ∃ l, copied w' = copied w ++ l ∧ Forall P l.

(** [shutil.copy] on resolved paths: source [ps], target [pd0] or, when
    that is a directory, the entry [bn] in it. *)
Definition copy_tree (t : tree) (ps pd0 : path) (bn : string) : exn + tree :=
  let pd := if bool_decide (Fs.node_at t pd0 = Some Dir) then pd0 ++ [bn] else pd0 in
  if bool_decide (is_Some (Fs.node_at t ps)) && bool_decide (is_Some (Fs.node_at t pd))
     && bool_decide (ps = pd)
  then inl SameFileError
  else match Fs.node_at t ps with
       | None => inl FileNotFoundError
       | Some Dir => inl IsADirectoryError
       | Some (File c) => write_at t pd c
       end.

(** A directory string the copier saves into: the destination [d] itself
    or a folder with a legal name directly in it. *)
Definition target_dir (cwd d : path) (tsp : string) : Prop :=
  tsp ≠ "" ∧ (Fs.resolve cwd tsp = d
              ∨ ∃ x, valid_name x ∧ Fs.resolve cwd tsp = d ++ [x]).

(** A file object whose names are legal file names. *)
Definition good_file (f : FileObj) : Prop :=
  location f ≠ "" ∧ valid_name (name f) ∧ valid_name (OsPath.basename (location f)).

(** An exercise part as [glob] returns it: a path, a slash, a legal name. *)
Definition good_part (part : string) : Prop :=
  ∃ x m, valid_name m ∧ part = x +:+ "/" +:+ m.

(** A log entry whose source is a file matching [pat] directly in one of
    the exercise parts: the part, a slash, a legal file name. *)
Definition found_in (parts : list string) (pat : string)
    (entry : string * string) : Prop :=
  ∃ part n, part ∈ parts ∧ valid_name n ∧ Fnmatch.fnmatch pat n = true
            ∧ entry.1 = part +:+ "/" +:+ n.

(** What [File.save] logs for the picture [n] of [part] saved in [tsp],
    and for the CSV file [n] of [part]. *)
Definition jpg_copy (tsp part n : string) : string * string :=
  (part +:+ "/" +:+ n,
   OsPath.join tsp (Str.lower (OsPath.basename part) +:+ ".jpg")).

Definition csv_copy (tsp : string) (rn : bool) (part n : string) : string * string :=
  (part +:+ "/" +:+ n,
   OsPath.join tsp (if rn then Str.lower (OsPath.basename part +:+ "."
                                         +:+ Str.last_chars 7 n)
                    else n)).

(** [P] holds of the copy of every visible file that matches [pat] in a
    part whose name has no wildcard. *)
Definition covers (P : string * string → Prop) (pat part : string)
    (copy : string → string * string) : Prop :=
  Fnmatch.has_magic part = false →
  ∀ n, valid_name n → Fnmatch.is_hidden n = false →
       Fnmatch.fnmatch pat n = true → P (copy n).


(** How a second run, now at the tree [t], stands to the first run, now
    at [s] and ending in [F]: [t] has the entries of [F] with the same
    kinds, each holding what [F] holds or what [s] holds, and off the
    destination [d] the two runs see the same entries. *)
Definition agree (d : path) (F s t : tree) : Prop :=
  shape t = shape F
  ∧ (∀ q, Fs.lookup t q = Fs.lookup F q ∨ Fs.lookup t q = Fs.lookup s q)
  ∧ outside d t = outside d s.

(** [m] can be replayed: when the first run takes [m] from [s] to [s'] on
    its way to [F] (and [F] is where it stops if [m] raises), the second
    run takes [m] from [t] with the same result and the two still agree. *)
Definition replays (d : path) (F : tree) {A} (m : M A) : Prop :=
  ∀ (s t : world) (r : result A) (s' : world),
    Fs.wf (files s) → is_Some (Fs.node_at (files s) d) →
    agree d F (files s) (files t) →
    m s = (r, s') → rtc (step false d) (files s') F →
    (∀ e, r = Raise e → files s' = F) →
    ∃ t', m t = (r, t') ∧ agree d F (files s') (files t').

(** [m] changes the tree only by adding and overwriting below [d], and
    can be replayed. *)
Definition steady (d : path) (F : tree) {A} (m : M A) : Prop :=
  preserves (evolves false d (λ _, True)) m ∧ replays d F m.

(** The names listed for the directory at a resolved path. *)
Definition dir_names (t : tree) (p : path) : list string :=
  match Fs.node_at t p with
  | Some Dir => Fs.children t p
  | _ => []
  end.

(** The visible names that match a pattern. *)
Definition matching (pat : string) (names : list string) : list string :=
  filter (λ n, Fnmatch.fnmatch pat n = true)
         (filter (λ n, Fnmatch.is_hidden n = false) names).

(** A wildcard name pattern: no slash, no bracket, not hidden. *)
Definition name_pattern (pat : string) : Prop :=
  Str.contains Str.slash pat = false
  ∧ Fnmatch.has_magic pat = true
  ∧ Str.contains "["%char pat = false
  ∧ Fnmatch.is_hidden pat = false.

(** ** [setup_lab.py]: the text of the notebooks *)

(** [range(1, n + 1)] *)
Definition range_from_1 (n : Z) : list Z := map Z.of_nat (seq 1 (Z.to_nat n)).

(** The separator after student number [idx] of [total]
    ([len(student_names)]); the comparisons are between integers, and
    [total - 2] is negative for a single student. *)
Definition name_suffix (total idx : Z) : string :=
  if (idx =? total - 2)%Z then ", and "
  else if negb (idx =? total - 1)%Z then ", "
  else "".

(** The loop over [enumerate(zip(student_names, student_ids))], from
    index [idx] on. *)
Fixpoint name_loop (total idx : Z) (pairs : list (string * string))
    (name_string : string) : string :=
  match pairs with
  | [] => name_string
  | (n, i) :: rest =>
      name_loop total (idx + 1) rest
                (name_string +:+ (n +:+ " (" +:+ i +:+ ")") +:+ name_suffix total idx)
  end.

(** [name_string] as the script builds it. *)
Definition name_string (student_names student_ids : list string) : string :=
  name_loop (Z.of_nat (length student_names)) 0 (zip student_names student_ids) "".

(** A notebook cell ([nbformat.v4.new_markdown_cell], [new_code_cell])
    with its source text.  In the texts a line feed is [nl], a double
    quote is [dq], and a character outside ASCII stands as its UTF-8
    bytes. *)
Inductive cell : Type :=
| new_markdown_cell (source : string)
| new_code_cell (source : string).

Definition nl : string := String (ascii_of_nat 10) EmptyString.
Definition dq : string := String (ascii_of_nat 34) EmptyString.

(** The two cells [prelab_cells] gets for experiment [i]. *)
Definition prelab_experiment (i : Z) : list cell :=
  [ new_markdown_cell
      ("# Experiment " +:+ str_of_int i +:+ nl +:+
       "***Description***" +:+ nl +:+
       "### Circuits for Simulation:" +:+ nl +:+
       "![](assets/e" +:+ str_of_int i +:+ "p1.png) " +:+ nl);
    new_code_cell
      ("class Exercise" +:+ str_of_int i +:+ "(Exercise):" +:+ nl +:+
       "    def __init__(self):" +:+ nl +:+
       "        data_path = os.path.join(os.getcwd(), " +:+ dq +:+ "prelabs" +:+ dq
         +:+ ", " +:+ dq +:+ "exp" +:+ str_of_int i +:+ dq +:+ ")" +:+ nl +:+
       "        super().__init__([os.path.join(data_path, " +:+ dq +:+ "E"
         +:+ str_of_int i +:+ "P1.raw" +:+ dq +:+ ")])" +:+ nl +:+
       "        " +:+ nl +:+
       "if __name__ == '__main__':" +:+ nl +:+
       "    e" +:+ str_of_int i +:+ " = Exercise" +:+ str_of_int i +:+ "()" +:+ nl) ].

(** [prelab_cells] when the pre-lab notebook is written. *)
Definition prelab_cells (lab_number num_exercises : Z) (name_string : string)
    : list cell :=
  let prelab_cells :=
    [ new_markdown_cell
        ("# ECE 65 - Components and Circuits Lab" +:+ nl +:+
         "## PreLab " +:+ str_of_int lab_number +:+ ":" +:+ nl +:+
         name_string);
      new_code_cell
        ("import os" +:+ nl +:+
         "import numpy as np" +:+ nl +:+
         "from glob import glob" +:+ nl +:+
         "from ltspice import Ltspice" +:+ nl +:+
         "import matplotlib.pyplot as plt" +:+ nl +:+
         "from IPython.display import display, Markdown" +:+ nl +:+
         nl +:+
         "from helper import Exercise" +:+ nl +:+
         nl +:+
         "plt.style.use(" +:+ dq +:+ "seaborn" +:+ dq +:+ ")") ] in
  if (0 <? num_exercises)%Z
  then foldl (λ cells i, cells ++ prelab_experiment i) prelab_cells
             (range_from_1 num_exercises)
  else prelab_cells.

(** [experiment_titles] *)
Definition experiment_titles (num_exercises : Z) : list string :=
  map (λ i, "### - [Experiment " +:+ str_of_int i +:+ "](#experiment-"
            +:+ str_of_int i +:+ "):" +:+ nl)
      (range_from_1 num_exercises).

(** The three cells [main_lab_cells] gets for experiment [i]. *)
Definition main_lab_experiment (lab_number i : Z) : list cell :=
  [ new_markdown_cell
      ("# Experiment " +:+ str_of_int i +:+ nl +:+
       "***Description***" +:+ nl +:+ nl +:+
       "## PreLab" +:+ nl +:+ nl +:+
       "### Circuits for Simulation:" +:+ nl +:+
       "![](assets/e" +:+ str_of_int i +:+ "p1.png) " +:+ nl +:+ nl +:+
       "### Simulation:" +:+ nl +:+ nl);
    new_code_cell
      ("prelab" +:+ str_of_int lab_number +:+ ".Exercise" +:+ str_of_int i
         +:+ "().part_1()" +:+ nl +:+
       "plt.show()" +:+ nl);
    new_markdown_cell "## Lab Exercises:" ].

(** [main_lab_cells] when the report notebook is written. *)
Definition main_lab_cells (lab_number num_exercises : Z) (name_string : string)
    : list cell :=
  let main_lab_cells :=
    [ new_markdown_cell
        ("# ECE 65 â€“ Components and Circuits Lab" +:+ nl +:+
         "## Lab Report " +:+ str_of_int lab_number +:+ " - " +:+ nl +:+
         nl +:+
         name_string +:+
         nl +:+ nl +:+
         "Professor Saharnaz Baghdadchi");
      new_markdown_cell
        ("# Table of Contents" +:+ nl +:+
         "## [Abstract](#abstract)" +:+ nl +:+
         "## Experimental Procedures and Results" +:+ nl +:+
         String.concat "" (experiment_titles num_exercises) +:+
         "## [Conclusion](#conclusion)" +:+ nl);
      new_markdown_cell
        ("# Abstract" +:+ nl +:+
         "This lab is..." +:+ nl);
      new_code_cell
        ("import os" +:+ nl +:+
         "import numpy as np" +:+ nl +:+
         "import matplotlib.pyplot as plt" +:+ nl +:+
         "from ipynb.fs.full import prelab" +:+ str_of_int lab_number +:+ nl +:+
         "from helper import get_scope_data") ] in
  (if (0 <? num_exercises)%Z
   then foldl (λ cells i, cells ++ main_lab_experiment lab_number i) main_lab_cells
              (range_from_1 num_exercises)
   else main_lab_cells)
  ++ [new_markdown_cell "# Conclusion"].

(** ** Notions used to state further properties *)

(** The command line [a] with [-v] given or not. *)
Definition with_verbose (v : bool) (a : Args) : Args :=
  {| lab_number := lab_number a; num_exercises := num_exercises a;
     generate_notebooks := generate_notebooks a; verbose := v;
     drive_name := drive_name a; c := c a; prelab_only := prelab_only a;
     student_names := student_names a; student_ids := student_ids a |}.

(** One student as [name_string] shows them: [f"{n} ({i})"]. *)
Definition student_entry (p : string * string) : string :=
  p.1 +:+ " (" +:+ p.2 +:+ ")".

(** A log entry as the docstrings promise it for the file [n] of an
    exercise part: a visible [*.JPG] saved in [jpgs] under the part's
    lower-cased name, or a visible [*.CSV] saved in the destination
    (in the part's own folder there when [create_folders]) under its
    new name (its own when not [rename_csv]). *)
Definition saved_as (dest : string) (cf rn : bool) (parts : list string)
    (e : string * string) : Prop :=
  ∃ part n,
    part ∈ parts ∧ valid_name n ∧ Fnmatch.is_hidden n = false
    ∧ e.1 = part +:+ "/" +:+ n
    ∧ ((Fnmatch.fnmatch "*.JPG" n = true
        ∧ e.2 = OsPath.join (OsPath.join dest "jpgs")
                            (Str.lower (OsPath.basename part) +:+ ".jpg"))
       ∨ (Fnmatch.fnmatch "*.CSV" n = true
          ∧ e.2 = OsPath.join
                    (if cf then OsPath.join dest (OsPath.basename part) else dest)
                    (if rn then Str.lower (OsPath.basename part +:+ "."
                                           +:+ Str.last_chars 7 n)
                     else n))).

(** The lab directory as a string and as a path. *)
Definition lab_dir (a : Args) : string :=
  OsPath.join (Fs.path_string cwd) ("Lab " +:+ str_of_int (lab_number a)).

Definition lab_path (a : Args) : path := cwd ++ ["Lab " +:+ str_of_int (lab_number a)].

(** The directories the script makes sure of, in the order in which it
    comes to them. *)
Definition skeleton (a : Args) : list path :=
  [ lab_path a;
    lab_path a ++ ["assets"];
    lab_path a ++ ["prelab"];
    lab_path a ++ ["scope"] ]
  ++ map (λ i, lab_path a ++ ["prelab"; "exp" +:+ str_of_int i])
         (range_from_1 (num_exercises a)).

(** The tree with the directories of [ps] that are missing in it added
    at the end, in order. *)
Definition with_dirs (ps : list path) (t : tree) : tree :=
  t ++ map (λ p, (p, Dir)) (filter (λ p, Fs.node_at t p = None) ps).

(** The same directories as the strings the script builds. *)
Definition skeleton_dirs (a : Args) : list string :=
  [ lab_dir a;
    OsPath.join (lab_dir a) "assets";
    OsPath.join (lab_dir a) "prelab";
    OsPath.join (lab_dir a) "scope" ]
  ++ map (λ i, OsPath.join (OsPath.join (lab_dir a) "prelab") ("exp" +:+ str_of_int i))
         (range_from_1 (num_exercises a)).

(** Where the two notebooks are written. *)
Definition prelab_file (a : Args) : path :=
  lab_path a ++ ["prelab" +:+ str_of_int (lab_number a) +:+ ".ipynb"].

Definition report_file (a : Args) : path :=
  lab_path a ++ ["Lab Report " +:+ str_of_int (lab_number a) +:+ ".ipynb"].

(** The log is the same. *)
Definition same_log (w w' : world) : Prop := copied w' = copied w.

(** ** More concrete worlds *)

(** The drive [D] and a home directory to work in. *)
Definition sample_home_tree : tree :=
  [ (["Volumes"], Dir);
    (["Volumes"; "D"], Dir);
    (["Volumes"; "D"; "E1P2"], Dir);
    (["Volumes"; "D"; "E1P2"; "F0000CH1.CSV"], File "ch1 samples");
    (["Volumes"; "D"; "E1P2"; "F0000TEK.JPG"], File "screen shot");
    (["home"], Dir) ].

Definition sample_home_world : world := World sample_home_tree [].

(** [setup_lab.py 1 -n 2 -p -d D] *)
Definition sample_prelab_args : Args :=
  {| lab_number := 1; num_exercises := 2; generate_notebooks := false;
     verbose := false; drive_name := "D"; c := false; prelab_only := true;
     student_names := None; student_ids := None |}.

(** [setup_lab.py 1 -n 2 -p -g -sn Ada Bob -si A1 B2] *)
Definition sample_notebook_args : Args :=
  {| lab_number := 1; num_exercises := 2; generate_notebooks := true;
     verbose := false; drive_name := "D"; c := false; prelab_only := true;
     student_names := Some ["Ada"; "Bob"]; student_ids := Some ["A1"; "B2"] |}.

(** [setup_lab.py 1 -n 2 -d D] and the same with a drive that is not
    there. *)
Definition sample_full_args : Args :=
  {| lab_number := 1; num_exercises := 2; generate_notebooks := false;
     verbose := false; drive_name := "D"; c := false; prelab_only := false;
     student_names := None; student_ids := None |}.

Definition sample_no_drive_args : Args :=
  {| lab_number := 1; num_exercises := 2; generate_notebooks := false;
     verbose := false; drive_name := "NODRIVE"; c := false; prelab_only := false;
     student_names := None; student_ids := None |}.

(** A drive whose only folder is not an exercise part. *)
Definition sample_empty_drive_world : world :=
  World [ (["Volumes"], Dir); (["Volumes"; "D"], Dir);
          (["Volumes"; "D"; "ALL0000"], Dir); (["out"], Dir) ] [].

(** A file with content [c0], matching one of the copier's patterns,
    directly in one of the folders [parts] of the tree [t0]. *)
Definition drive_file (parts : list string) (t0 : tree) (c0 : string) : Prop :=
  ∃ part n,
    part ∈ parts
    ∧ (Fnmatch.fnmatch "*.JPG" n = true ∨ Fnmatch.fnmatch "*.CSV" n = true)
    ∧ Fs.lookup t0 (Fs.resolve cwd part ++ [n]) = Some (File c0).

(** Every file of [t'] holds what it holds in [t0] or what such a file
    of [t0] holds. *)
Definition provenance (parts : list string) (t0 t' : tree) : Prop :=
  ∀ q c0, Fs.lookup t' q = Some (File c0) →
          Fs.lookup t0 q = Some (File c0) ∨ drive_file parts t0 c0.

(** The state of a run that started at [t0] and writes below [d]. *)
Definition kept (d : path) (parts : list string) (t0 : tree) (w : world) : Prop :=
  Fs.wf (files w) ∧ is_Some (Fs.node_at (files w) d)
  ∧ outside d (files w) = outside d t0
  ∧ provenance parts t0 (files w).

Definition keeps (d : path) (parts : list string) (t0 : tree) (w w' : world) : Prop :=
  kept d parts t0 w → kept d parts t0 w'.

(** [m] leads from a world where [K] holds to one where it holds. *)
Definition stays (K : world → Prop) (w w' : world) : Prop := K w → K w'.


(** ** Concrete worlds *)

Definition sample_all_open : nat → bool := λ _, true.

(** A drive [D] with one renamed folder holding two channels and a
    screen shot, and an empty output directory. *)
Definition sample_drive_tree : tree :=
  [ (["Volumes"], Dir);
    (["Volumes"; "D"], Dir);
    (["Volumes"; "D"; "E1P2"], Dir);
    (["Volumes"; "D"; "E1P2"; "F0000CH1.CSV"], File "ch1 samples");
    (["Volumes"; "D"; "E1P2"; "F0000CH2.CSV"], File "ch2 samples");
    (["Volumes"; "D"; "E1P2"; "F0000TEK.JPG"], File "screen shot");
    (["out"], Dir) ].

Definition sample_drive_world : world := World sample_drive_tree [].

(** The same drive with the screen shot missing. *)
Definition sample_no_jpg_tree : tree :=
  [ (["Volumes"], Dir);
    (["Volumes"; "D"], Dir);
    (["Volumes"; "D"; "E1P2"], Dir);
    (["Volumes"; "D"; "E1P2"; "F0000CH1.CSV"], File "ch1 samples");
    (["out"], Dir) ].

Definition sample_no_jpg_world : world := World sample_no_jpg_tree [].



(** A drive that already holds a file under the name a copy will get. *)
Definition sample_overlap_tree : tree :=
  [ (["Volumes"], Dir);
    (["Volumes"; "D"], Dir);
    (["Volumes"; "D"; "E1P2"], Dir);
    (["Volumes"; "D"; "E1P2"; "F0000CH1.CSV"], File "ch1 samples");
    (["Volumes"; "D"; "e1p2.ch1.csv"], File "last week") ].

Definition sample_overlap_world : world := World sample_overlap_tree [].

(** The copier [__init__] builds on the sample drives. *)
Definition sample_copier : Copier :=
  {| drive_location := "/Volumes/D"; exercise_parts := ["/Volumes/D/E1P2"] |}.

Definition sample_copy_only_args : Args :=
  {| lab_number := 1; num_exercises := 0; generate_notebooks := false;
     verbose := false; drive_name := "D"; c := true; prelab_only := false;
     student_names := None; student_ids := None |}.




(** The sample drive after pictures were saved into [/out]. *)
Definition sample_saved_world : world :=
  World (sample_drive_tree
         ++ [ (["out"; "jpgs"], Dir);
              (["out"; "jpgs"; "e1p2.jpg"], File "screen shot") ]) [].

(** ** Facts about the string functions *)


Lemma app_cons c (a b : string) : String c a +:+ b = String c (a +:+ b).
Proof. reflexivity. Qed.

Lemma app_nil (b : string) : "" +:+ b = b.
Proof. reflexivity. Qed.

(** [simpl] leaves string concatenation alone; this unfolds it. *)
Ltac sapp := rewrite ?app_cons, ?app_nil; simpl.

Lemma app_empty_r (a : string) : a +:+ "" = a.
Proof. induction a as [|x a IH]; [done|]. by rewrite app_cons, IH. Qed.

Lemma sapp_assoc (a b c : string) : (a +:+ b) +:+ c = a +:+ b +:+ c.
Proof. induction a as [|x a IH]; sapp; [done | by rewrite IH]. Qed.

Lemma lower_app (a b : string) : Str.lower (a +:+ b) = Str.lower a +:+ Str.lower b.
Proof. induction a as [|x a IH]; sapp; [done | by rewrite IH]. Qed.

Lemma lower_char_digit (c : ascii) : Str.is_digit c = true → Str.lower_char c = c.
Proof.
  unfold Str.is_digit, Str.lower_char, Str.is_upper. intros H.
  apply andb_true_iff in H as [H1 H2].
  apply Nat.leb_le in H1, H2.
  destruct (65 <=? nat_of_ascii c)%nat eqn:E; [|done].
  apply Nat.leb_le in E. lia.
Qed.

Lemma lower_digits (s : string) : Str.digits s = true → Str.lower s = s.
Proof.
  induction s as [|c s IH]; simpl; [done|].
  intros H. apply andb_true_iff in H as [H1 H2].
  by rewrite lower_char_digit, IH.
Qed.

Lemma split_nonempty sep s : Str.split sep s ≠ [].
Proof.
  destruct s as [|c r]; simpl; [done|].
  destruct (decide (c = sep)); [done|].
  by destruct (Str.split sep r).
Qed.

Lemma split_no_sep sep s : Str.contains sep s = false → Str.split sep s = [s].
Proof.
  induction s as [|c r IH]; simpl; [done|].
  intros H. apply orb_false_iff in H as [H1 H2].
  apply bool_decide_eq_false in H1.
  destruct (decide (c = sep)); [done|].
  by rewrite IH.
Qed.

(** Splitting at a separator that is written out. *)
Lemma split_app sep (a b : string) :
  Str.split sep (a +:+ String sep b) = Str.split sep a ++ Str.split sep b.
Proof.
  induction a as [|c r IH]; sapp.
  - by destruct (decide (sep = sep)).
  - destruct (decide (c = sep)); [by rewrite IH|].
    rewrite IH.
    pose proof (split_nonempty sep r).
    by destruct (Str.split sep r).
Qed.

Lemma index_from_end_2 {A} (l : list A) (x y : A) :
  Str.index_from_end 2 (l ++ [x; y]) = Some x.
Proof.
  unfold Str.index_from_end. rewrite length_app. simpl.
  destruct (decide _) as [[?|?]|_]; [lia..|].
  replace (length l + 2 - 2) with (length l + 0) by lia.
  by rewrite lookup_app_r, Nat.add_0_r, Nat.sub_diag by lia.
Qed.

Lemma contains_app c (a b : string) :
  Str.contains c (a +:+ b) = Str.contains c a || Str.contains c b.
Proof. induction a as [|x a IH]; sapp; [done | by rewrite IH, orb_assoc]. Qed.

Lemma cut_no_slash s :
  Str.contains Str.slash s = false → Str.cut_last_slash s = ("", s).
Proof.
  induction s as [|c r IH]; simpl; [done|].
  intros H. apply orb_false_iff in H as [H1 H2].
  apply bool_decide_eq_false in H1.
  rewrite IH, H2 by done. by destruct (decide (c = Str.slash)).
Qed.

(** The last slash cuts a path into what precedes it and the name. *)
Lemma cut_app (a b : string) :
  Str.contains Str.slash b = false →
  Str.cut_last_slash (a +:+ String Str.slash b) = (a +:+ "/", b).
Proof.
  intros Hb. induction a as [|c r IH]; sapp.
  - by rewrite cut_no_slash, Hb.
  - rewrite IH, contains_app. simpl. by rewrite orb_true_r.
Qed.

Lemma basename_app (a b : string) :
  Str.contains Str.slash b = false →
  OsPath.basename (a +:+ String Str.slash b) = b.
Proof. intros. unfold OsPath.basename. by rewrite cut_app. Qed.


(** ** Facts about paths *)


Lemma valid_no_slash n : valid_name n → Str.contains Str.slash n = false.
Proof. by intros (_ & H & _). Qed.

Lemma no_slash_start b : Str.contains Str.slash b = false → Str.starts_with_slash b = false.
Proof.
  destruct b as [|c r]; simpl; [done|].
  intros H. by apply orb_false_iff in H as [H _].
Qed.

Lemma ends_with_slash_inv a :
  Str.ends_with_slash a = true → ∃ a', a = a' +:+ "/".
Proof.
  induction a as [|c r IH]; simpl; [done|].
  destruct r as [|d r'].
  - intros H%bool_decide_eq_true. subst c. by exists "".
  - intros H. destruct (IH H) as [a' Ha]. exists (String c a').
    by rewrite app_cons, <- Ha.
Qed.

Lemma ends_with_slash_app a : Str.ends_with_slash (a +:+ "/") = true.
Proof.
  induction a as [|c r IH]; sapp; [done|].
  destruct (r +:+ "/") eqn:E; [|done].
  by destruct r.
Qed.

Lemma starts_app a b :
  a ≠ "" → Str.starts_with_slash (a +:+ b) = Str.starts_with_slash a.
Proof. by destruct a. Qed.

(** The three shapes of [os.path.join(a, b)] for a name [b]. *)
Lemma join_shape (a b : string) :
  Str.contains Str.slash b = false →
  (a = "" ∧ OsPath.join a b = b)
  ∨ (∃ a0, a = a0 +:+ "/" ∧ OsPath.join a b = a0 +:+ String Str.slash b)
  ∨ (a ≠ "" ∧ Str.ends_with_slash a = false
     ∧ OsPath.join a b = a +:+ String Str.slash b).
Proof.
  intros Hb. unfold OsPath.join. rewrite (no_slash_start b Hb).
  destruct (decide (a = "")) as [->|Ha]; [by left|].
  destruct (Str.ends_with_slash a) eqn:He.
  - right; left. destruct (ends_with_slash_inv a He) as [a0 ->].
    exists a0. split; [done|]. by rewrite sapp_assoc.
  - right; right. done.
Qed.


(** *** Resolution *)

Lemma normalize_app stk l1 l2 :
  Fs.normalize stk (l1 ++ l2) = Fs.normalize (rev (Fs.normalize stk l1)) l2.
Proof.
  revert stk. induction l1 as [|c l1 IH]; intros stk; simpl.
  - by rewrite rev_involutive.
  - destruct (decide (c = "" ∨ c = ".")); [apply IH|].
    destruct (decide (c = "..")); apply IH.
Qed.

Lemma normalize_name stk n :
  valid_name n → Fs.normalize stk [n] = rev stk ++ [n].
Proof.
  intros (H1 & _ & H2 & H3). simpl.
  destruct (decide (n = "" ∨ n = ".")) as [[?|?]|_]; [done..|].
  destruct (decide (n = "..")); done.
Qed.

Lemma normalize_snoc stk l n :
  valid_name n → Fs.normalize stk (l ++ [n]) = Fs.normalize stk l ++ [n].
Proof.
  intros Hn. by rewrite normalize_app, normalize_name, rev_involutive.
Qed.

Lemma normalize_empties stk k : Fs.normalize stk (replicate k "") = rev stk.
Proof.
  induction k as [|k IH]; simpl; done.
Qed.

(** Joining a legal name goes one step down. *)
Lemma resolve_join (a b : string) :
  valid_name b →
  Fs.resolve cwd (OsPath.join a b) = Fs.resolve cwd a ++ [b].
Proof.
  intros Hv. pose proof (valid_no_slash b Hv) as Hb.
  unfold Fs.resolve.
  destruct (join_shape a b Hb) as [[-> ->]|[(a0 & -> & ->)|(Ha & _ & ->)]].
  - rewrite (no_slash_start b Hb), (split_no_sep _ b Hb).
    rewrite normalize_name by done. simpl.
    by rewrite !rev_involutive.
  - change "/" with (String Str.slash "").
    rewrite !split_app, (split_no_sep _ b Hb). simpl Str.split.
    assert (Str.starts_with_slash (a0 +:+ String Str.slash b)
            = Str.starts_with_slash (a0 +:+ String Str.slash "")) as ->.
    { by destruct a0. }
    rewrite !normalize_app. f_equal. simpl.
    destruct (decide (b = "" ∨ b = ".")) as [[?|?]|_];
      [by destruct Hv as (?&?&?&?)..|].
    destruct (decide (b = "..")); [by destruct Hv as (?&?&?&?)|].
    simpl. by rewrite !rev_involutive.
  - rewrite split_app, (split_no_sep _ b Hb), starts_app by done.
    by apply normalize_snoc.
Qed.

(** *** [os.path.split] of a joined name *)

Lemma all_slashes_split s :
  Str.all_slashes s = true →
  Str.split Str.slash s = replicate (S (String.length s)) "".
Proof.
  induction s as [|c r IH]; simpl; [done|].
  intros H. apply andb_true_iff in H as [H1%bool_decide_eq_true H2].
  destruct (decide (c = Str.slash)); [|done]. by rewrite IH.
Qed.

Lemma rstrip_empty s : Str.rstrip_slash s = "" → Str.all_slashes s = true.
Proof.
  destruct s as [|c r]; [done|]. simpl.
  by destruct (bool_decide (c = Str.slash) && Str.all_slashes r).
Qed.

Lemma all_slashes_rstrip s : Str.all_slashes s = true → Str.rstrip_slash s = "".
Proof. destruct s as [|c r]; [done|]. simpl. by intros ->. Qed.

Lemma rstrip_cons c r :
  Str.rstrip_slash (String c r)
  = if Str.all_slashes (String c r) then "" else String c (Str.rstrip_slash r).
Proof. reflexivity. Qed.

(** Stripping trailing slashes only drops empty components. *)
Lemma split_rstrip s :
  Str.all_slashes s = false →
  ∃ k, Str.split Str.slash s
       = Str.split Str.slash (Str.rstrip_slash s) ++ replicate k "".
Proof.
  induction s as [|c r IH]; [done|].
  intros Hs. rewrite rstrip_cons, Hs. simpl in Hs |- *.
  destruct (decide (c = Str.slash)) as [->|Hc].
  - rewrite bool_decide_eq_true_2 in Hs by done. simpl in Hs.
    destruct (IH Hs) as [k ->]. by exists k.
  - destruct (Str.all_slashes r) eqn:Hr.
    + rewrite (all_slashes_split r Hr), (all_slashes_rstrip r Hr). simpl.
      by exists (String.length r).
    + destruct (IH eq_refl) as [k Hk]. rewrite Hk.
      pose proof (split_nonempty Str.slash (Str.rstrip_slash r)).
      destruct (Str.split Str.slash (Str.rstrip_slash r)); [done|].
      by exists k.
Qed.

Lemma resolve_rstrip s :
  Str.all_slashes s = false →
  Fs.resolve cwd (Str.rstrip_slash s) = Fs.resolve cwd s.
Proof.
  intros Hs. unfold Fs.resolve.
  destruct (split_rstrip s Hs) as [k ->].
  rewrite normalize_app, normalize_empties, rev_involutive.
  destruct s as [|c r]; [done|]. by rewrite rstrip_cons, Hs.
Qed.

Lemma resolve_trailing a :
  a ≠ "" → Fs.resolve cwd (a +:+ "/") = Fs.resolve cwd a.
Proof.
  intros Ha. unfold Fs.resolve.
  change "/" with (String Str.slash "").
  rewrite split_app, starts_app, normalize_app by done. simpl.
  by rewrite rev_involutive.
Qed.

Lemma all_slashes_app a b :
  Str.all_slashes (a +:+ b) = Str.all_slashes a && Str.all_slashes b.
Proof. induction a as [|c r IH]; sapp; [done|]. by rewrite IH, andb_assoc. Qed.

Lemma all_slashes_ends a :
  a ≠ "" → Str.all_slashes a = true → Str.ends_with_slash a = true.
Proof.
  induction a as [|c r IH]; [done|]. intros _. simpl.
  intros H. apply andb_true_iff in H as [H1 H2].
  destruct r as [|d r']; [done|]. by apply IH.
Qed.

Lemma contains_all_slashes c s :
  c ≠ Str.slash → Str.all_slashes s = true → Str.contains c s = false.
Proof.
  intros Hc. induction s as [|x r IH]; simpl; [done|].
  intros H. apply andb_true_iff in H as [H1%bool_decide_eq_true H2].
  subst x. rewrite bool_decide_eq_false_2 by done. by apply IH.
Qed.

Lemma contains_rstrip c s :
  c ≠ Str.slash → Str.contains c (Str.rstrip_slash s) = Str.contains c s.
Proof.
  intros Hc. induction s as [|x r IH]; [done|].
  rewrite rstrip_cons.
  destruct (Str.all_slashes (String x r)) eqn:E.
  - by rewrite (contains_all_slashes c _ Hc E).
  - simpl. by rewrite IH.
Qed.

Lemma has_magic_rstrip s : Fnmatch.has_magic (Str.rstrip_slash s) = Fnmatch.has_magic s.
Proof. unfold Fnmatch.has_magic. by rewrite !contains_rstrip. Qed.

Lemma has_magic_app a b :
  Fnmatch.has_magic (a +:+ b) = Fnmatch.has_magic a || Fnmatch.has_magic b.
Proof.
  unfold Fnmatch.has_magic. rewrite !contains_app.
  repeat (destruct (Str.contains _ _)); done.
Qed.

(** What [os.path.split] makes of [os.path.join(a, b)] for a name [b]:
    the name itself and a directory string that resolves like [a]. *)
Lemma split_join (a b : string) :
  Str.contains Str.slash b = false →
  ∃ d, OsPath.split (OsPath.join a b) = (d, b)
       ∧ Fs.resolve cwd d = Fs.resolve cwd a
       ∧ (d = "" ↔ a = "")
       ∧ Fnmatch.has_magic d = Fnmatch.has_magic a.
Proof.
  intros Hb. unfold OsPath.split.
  destruct (join_shape a b Hb) as [[-> ->]|[(a0 & -> & ->)|(Ha & He & ->)]].
  - rewrite cut_no_slash by done. by exists "".
  - rewrite cut_app by done.
    destruct (Str.all_slashes (a0 +:+ "/")) eqn:E.
    + exists (a0 +:+ "/"). done.
    + exists (Str.rstrip_slash (a0 +:+ "/")). split; [done|].
      split; [by apply resolve_rstrip|]. split; [|by apply has_magic_rstrip].
      split.
      * intros H%rstrip_empty. congruence.
      * by destruct a0.
  - rewrite cut_app by done.
    destruct (Str.all_slashes (a +:+ "/")) eqn:E.
    + rewrite all_slashes_app in E. apply andb_true_iff in E as [E _].
      pose proof (all_slashes_ends a Ha E). congruence.
    + exists (Str.rstrip_slash (a +:+ "/")). split; [done|].
      split; [by rewrite resolve_rstrip, resolve_trailing|].
      split.
      * split; [intros H%rstrip_empty; congruence | done].
      * rewrite has_magic_rstrip, has_magic_app. simpl.
        by rewrite orb_false_r.
Qed.


(** ** Facts about [fnmatch] *)








(** ** Facts about the association list *)

Lemma lookup_app (t t' : tree) (q : path) :
  Fs.lookup (t ++ t') q
  = match Fs.lookup t q with Some n => Some n | None => Fs.lookup t' q end.
Proof.
  induction t as [|[k n] t IH]; simpl; [done|].
  by destruct (decide (k = q)).
Qed.

Lemma lookup_None_keys (t : tree) (q : path) :
  Fs.lookup t q = None ↔ q ∉ t.*1.
Proof.
  induction t as [|[k n] t IH]; simpl.
  - split; [intros _; apply not_elem_of_nil | done].
  - rewrite not_elem_of_cons. destruct (decide (k = q)) as [->|Hk].
    + split; [done | by intros [? _]].
    + rewrite IH. split; [by intros ?; split | by intros [_ ?]].
Qed.

Lemma lookup_Some_elem (t : tree) (q : path) (n : node) :
  Fs.lookup t q = Some n → (q, n) ∈ t.
Proof.
  induction t as [|[k m] t IH]; simpl; [done|].
  destruct (decide (k = q)) as [->|Hk].
  - intros [= ->]. apply elem_of_cons. by left.
  - intros H. apply elem_of_cons. right. by apply IH.
Qed.

Lemma lookup_elem_NoDup (t : tree) (q : path) (n : node) :
  NoDup (t.*1) → (q, n) ∈ t → Fs.lookup t q = Some n.
Proof.
  induction t as [|[k m] t IH]; simpl.
  - by intros _ ?%elem_of_nil.
  - intros [Hk Hnd]%NoDup_cons [Heq|Hin]%elem_of_cons.
    + injection Heq as -> ->. by destruct (decide (k = k)).
    + destruct (decide (k = q)) as [->|_]; [|by apply IH].
      destruct Hk. apply list_elem_of_fmap. by exists (q, n).
Qed.

Lemma lookup_replace (t : tree) (p q : path) (n : node) :
  Fs.lookup (Fs.replace p n t) q
  = if decide (q = p) then (λ _, n) <$> Fs.lookup t p else Fs.lookup t q.
Proof.
  induction t as [|[k m] t IH]; simpl.
  - by destruct (decide (q = p)).
  - destruct (decide (k = p)) as [->|Hk]; simpl.
    + destruct (decide (p = q)) as [->|Hpq].
      * by destruct (decide (q = q)).
      * by destruct (decide (q = p)) as [->|_].
    + destruct (decide (k = q)) as [->|Hkq].
      * by destruct (decide (q = p)) as [->|_].
      * apply IH.
Qed.

Lemma replace_keys (t : tree) (p : path) (n : node) :
  (Fs.replace p n t).*1 = t.*1.
Proof.
  induction t as [|[k m] t IH]; simpl; [done|].
  destruct (decide (k = p)); simpl; [done | by f_equal].
Qed.


Lemma replace_same (t : tree) (p : path) (n : node) :
  Fs.lookup t p = Some n → Fs.replace p n t = t.
Proof.
  induction t as [|[k x] t IH]; simpl; [done|].
  destruct (decide (k = p)) as [->|Hk].
  - by intros [= ->].
  - intros H. by rewrite IH.
Qed.

Lemma replace_absent (t : tree) (p : path) (n : node) :
  Fs.lookup t p = None → Fs.replace p n t = t.
Proof.
  induction t as [|[k x] t IH]; simpl; [done|].
  destruct (decide (k = p)) as [->|Hk]; [done|].
  intros H. by rewrite IH.
Qed.

Lemma children_app (t t' : tree) (d : path) :
  Fs.children (t ++ t') d = Fs.children t d ++ Fs.children t' d.
Proof.
  induction t as [|[k n] t IH]; simpl; [done|].
  destruct (last k); [|done].
  destruct (decide _); simpl; by rewrite IH.
Qed.

Lemma children_keys (t t' : tree) (d : path) :
  t.*1 = t'.*1 → Fs.children t d = Fs.children t' d.
Proof.
  revert t'. induction t as [|[k n] t IH]; intros [|[k' n'] t']; simpl; try done.
  intros [= -> H]. destruct (last k'); [|by apply IH].
  destruct (decide _); [f_equal|]; by apply IH.
Qed.

Lemma children_one (p d : path) (n : node) (x : string) :
  Fs.children [(p, n)] d = [x] ↔ p = d ++ [x].
Proof.
  simpl. destruct (last p) as [y|] eqn:Hl.
  - destruct (decide (p = d ++ [y])) as [->|Hp].
    + split; [by intros [= ->]|]. intros H%(inj (app d)). by injection H as ->.
    + split; [done|]. intros ->. rewrite last_snoc in Hl. by injection Hl as ->.
  - split; [done|]. intros ->. by rewrite last_snoc in Hl.
Qed.

Lemma children_elem (t : tree) (d : path) (x : string) :
  x ∈ Fs.children t d ↔ d ++ [x] ∈ t.*1.
Proof.
  induction t as [|[k n] t IH]; simpl.
  - split; by intros ?%elem_of_nil.
  - rewrite elem_of_cons, <- IH. destruct (last k) as [y|] eqn:Hl.
    + destruct (decide (k = d ++ [y])) as [->|Hk].
      * rewrite elem_of_cons. split.
        -- intros [->|?]; [by left | by right].
        -- intros [H%(inj (app d))|?]; [left; by injection H | by right].
      * split; [by right|]. intros [<-|?]; [|done].
        rewrite last_snoc in Hl. by injection Hl as ->.
    + split; [by right|]. intros [<-|?]; [|done]. by rewrite last_snoc in Hl.
Qed.

Lemma remove_app_new (t : tree) (p : path) (n : node) :
  Fs.lookup t p = None → Fs.remove p (t ++ [(p, n)]) = t.
Proof.
  induction t as [|[k m] t IH]; simpl.
  - intros _. by destruct (decide (p = p)).
  - destruct (decide (k = p)); [done|]. intros H. by rewrite IH.
Qed.

Lemma parent_snoc (d : path) (x : string) : Fs.parent (d ++ [x]) = d.
Proof. unfold Fs.parent. apply removelast_last. Qed.

Lemma node_at_lookup (t : tree) (p : path) :
  p ≠ [] → Fs.node_at t p = Fs.lookup t p.
Proof. by destruct p. Qed.

Lemma below_nonempty (d p : path) : below d p → p ≠ [].
Proof. intros [[k ->] H] E. apply app_eq_nil in E as [-> ->]. done. Qed.

Lemma below_snoc (d : path) (x : string) : below d (d ++ [x]).
Proof.
  split; [by apply prefix_app_r|].
  intros E. rewrite <- (app_nil_r d) in E at 2. by apply (inj (app d)) in E.
Qed.

Lemma below_trans_snoc (d p : path) (x : string) :
  below d p → below d (p ++ [x]).
Proof.
  intros [[k ->] H]. split.
  - rewrite <- app_assoc. by apply prefix_app_r.
  - intros E. rewrite <- app_assoc in E. rewrite <- (app_nil_r d) in E at 2.
    apply (inj (app d)) in E. by destruct k.
Qed.

(** ** What one change of the tree keeps *)

Lemma lookup_remove_ne (t : tree) (p q : path) :
  q ≠ p → Fs.lookup (Fs.remove p t) q = Fs.lookup t q.
Proof.
  intros Hq. induction t as [|[k m] t IH]; simpl; [done|].
  destruct (decide (k = p)) as [->|Hk]; simpl.
  - by destruct (decide (p = q)).
  - destruct (decide (k = q)); [done | apply IH].
Qed.

Lemma elem_of_remove (t : tree) (p : path) (e : path * node) :
  e ∈ Fs.remove p t → e ∈ t.
Proof.
  induction t as [|[k m] t IH]; simpl; [done|].
  destruct (decide (k = p)); rewrite !elem_of_cons; [by right|].
  intros [->|?]; [by left | right; by apply IH].
Qed.

Lemma remove_keys_NoDup (t : tree) (p : path) :
  NoDup (t.*1) → NoDup ((Fs.remove p t).*1) ∧ p ∉ (Fs.remove p t).*1.
Proof.
  induction t as [|[k m] t IH]; simpl.
  - intros _. split; [constructor | apply not_elem_of_nil].
  - intros [Hk Hnd]%NoDup_cons. destruct (decide (k = p)) as [->|Hkp]; [done|].
    destruct (IH Hnd) as [H1 H2]. simpl. split.
    + apply NoDup_cons. split; [|done].
      intros (e & He & Hin)%list_elem_of_fmap. apply Hk.
      apply list_elem_of_fmap. exists e. split; [done|]. by eapply elem_of_remove.
    + apply not_elem_of_cons. done.
Qed.

Lemma elem_of_replace (t : tree) (p : path) (n : node) (e : path * node) :
  e ∈ Fs.replace p n t → e ∈ t ∨ e = (p, n).
Proof.
  induction t as [|[k m] t IH]; simpl; [by left|].
  destruct (decide (k = p)) as [->|Hk]; rewrite !elem_of_cons.
  - intros [->|?]; [by right | left; by right].
  - intros [->|H]; [left; by left|]. destruct (IH H); [left; by right | by right].
Qed.

Lemma node_at_app (t t' : tree) (q : path) (n : node) :
  Fs.node_at t q = Some n → Fs.node_at (t ++ t') q = Some n.
Proof.
  destruct q as [|x q]; [done|]. simpl. rewrite lookup_app.
  by intros ->.
Qed.

Lemma node_at_None_keys (t : tree) (p : path) :
  Fs.node_at t p = None → p ∉ t.*1.
Proof.
  destruct p as [|x p]; [done|]. simpl. apply lookup_None_keys.
Qed.

Lemma wf_keys_nonempty (t : tree) (e : path * node) :
  Fs.wf t → e ∈ t → e.1 ≠ [].
Proof.
  intros [_ H] He. rewrite Forall_forall in H. by destruct (H e He) as (? & _).
Qed.

(** A legal change keeps the tree a file-system tree. *)
Lemma step_wf (rm : bool) (d : path) (t t' : tree) :
  Fs.wf t → step rm d t t' → Fs.wf t'.
Proof.
  intros [Hnd Hall] Hs. rewrite Forall_forall in Hall.
  destruct Hs as [t p n Hb Hv Hnone Hpar | t p c c' Hb Hl | t p Hrm Hb Hl Hch].
  - split.
    + rewrite fmap_app. apply NoDup_app. split; [done|]. split.
      * intros x Hx [->|[]%elem_of_nil]%elem_of_cons.
        by apply (node_at_None_keys t p).
      * apply NoDup_singleton.
    + apply Forall_app. split.
      * apply Forall_forall. intros e He. destruct (Hall e He) as (H1 & H2 & H3).
        repeat split; try done. by apply node_at_app.
      * apply Forall_singleton. simpl. repeat split; try done.
        -- by eapply below_nonempty.
        -- by apply node_at_app.
  - assert (∀ q, Fs.node_at t q = Some Dir →
                 Fs.node_at (Fs.replace p (File c') t) q = Some Dir) as Hdir.
    { intros [|x q]; [done|]. simpl. rewrite lookup_replace.
      destruct (decide (x :: q = p)) as [->|_]; [|done]. by rewrite Hl. }
    split.
    + by rewrite replace_keys.
    + apply Forall_forall. intros e [He| ->]%elem_of_replace.
      * destruct (Hall e He) as (H1 & H2 & H3). repeat split; try done. by apply Hdir.
      * apply lookup_Some_elem in Hl. destruct (Hall _ Hl) as (H1 & H2 & H3).
        repeat split; try done. by apply Hdir.
  - destruct (remove_keys_NoDup t p Hnd) as [H1 H2]. split; [done|].
    apply Forall_forall. intros e He.
    pose proof (elem_of_remove _ _ _ He) as He'.
    destruct (Hall e He') as (Hne & Hv & Hpar). repeat split; try done.
    destruct (decide (Fs.parent e.1 = p)) as [Hp|Hp].
    + exfalso. destruct (exists_last Hne) as (q & x & Hq).
      rewrite Hq, parent_snoc in Hp. subst q.
      assert (x ∈ Fs.children t p) as Hx.
      { apply children_elem. rewrite <- Hq. apply list_elem_of_fmap. by exists e. }
      rewrite Hch in Hx. by apply elem_of_nil in Hx.
    + destruct (Fs.parent e.1) as [|x q] eqn:E; [done|]. simpl in *.
      by rewrite lookup_remove_ne.
Qed.

Lemma outside_replace (d p : path) (n : node) (t : tree) :
  below d p → outside d (Fs.replace p n t) = outside d t.
Proof.
  intros Hb. unfold outside. induction t as [|[k m] t IH]; simpl; [done|].
  destruct (decide (k = p)) as [->|Hk].
  - rewrite !filter_cons. simpl.
    destruct (decide (¬ below d p)); [done|done].
  - rewrite !filter_cons, IH. done.
Qed.

Lemma outside_remove (d p : path) (t : tree) :
  below d p → outside d (Fs.remove p t) = outside d t.
Proof.
  intros Hb. unfold outside. induction t as [|[k m] t IH]; simpl; [done|].
  destruct (decide (k = p)) as [->|Hk].
  - rewrite filter_cons. simpl. by destruct (decide (¬ below d p)).
  - rewrite !filter_cons, IH. done.
Qed.

(** A change below [d] leaves every other entry where and as it was. *)
Lemma step_outside (rm : bool) (d : path) (t t' : tree) :
  step rm d t t' → outside d t' = outside d t.
Proof.
  intros [t0 p n Hb _ _ _ | t0 p c c' Hb _ | t0 p _ Hb _ _].
  - unfold outside. rewrite filter_app, filter_cons. simpl.
    destruct (decide (¬ below d p)); [done|]. by rewrite filter_nil, app_nil_r.
  - by apply outside_replace.
  - by apply outside_remove.
Qed.

Lemma steps_wf (rm : bool) (d : path) (t t' : tree) :
  Fs.wf t → rtc (step rm d) t t' → Fs.wf t'.
Proof. intros Hwf Hs. induction Hs; [done|]. eauto using step_wf. Qed.

Lemma steps_outside (rm : bool) (d : path) (t t' : tree) :
  rtc (step rm d) t t' → outside d t' = outside d t.
Proof.
  intros Hs. induction Hs as [|t1 t2 t3 H1 _ IH]; [done|].
  by rewrite IH, (step_outside _ _ _ _ H1).
Qed.

Lemma outside_lookup (d : path) (t t' : tree) (q : path) :
  outside d t' = outside d t → ¬ below d q → Fs.lookup t' q = Fs.lookup t q.
Proof.
  intros Ho Hq.
  assert (∀ u, Fs.lookup u q = Fs.lookup (outside d u) q) as Hu.
  { intros u. unfold outside. induction u as [|[k m] u IH]; simpl; [done|].
    rewrite filter_cons. simpl.
    destruct (decide (¬ below d k)) as [Hk|Hk]; simpl.
    - destruct (decide (k = q)); [done | apply IH].
    - destruct (decide (k = q)) as [->|_]; [done | apply IH]. }
  by rewrite (Hu t'), (Hu t), Ho.
Qed.

Lemma outside_node_at (d : path) (t t' : tree) (q : path) :
  outside d t' = outside d t → ¬ below d q → Fs.node_at t' q = Fs.node_at t q.
Proof. intros Ho Hq. destruct q; [done|]. simpl. by eapply outside_lookup. Qed.


(** ** The names files are saved under are legal names *)

Lemma lower_char_slash (c : ascii) : Str.lower_char c = Str.slash ↔ c = Str.slash.
Proof. destruct c as [[] [] [] [] [] [] [] []]; vm_compute; split; congruence. Qed.

Lemma lower_char_dot (c : ascii) : Str.lower_char c = "."%char → c = "."%char.
Proof. destruct c as [[] [] [] [] [] [] [] []]; vm_compute; congruence. Qed.

Lemma contains_lower (s : string) :
  Str.contains Str.slash (Str.lower s) = Str.contains Str.slash s.
Proof.
  induction s as [|c r IH]; simpl; [done|]. rewrite IH. f_equal.
  apply bool_decide_ext, lower_char_slash.
Qed.

Lemma length_lower (s : string) : String.length (Str.lower s) = String.length s.
Proof. induction s as [|c r IH]; simpl; [done | by rewrite IH]. Qed.

Lemma length_sapp (a b : string) :
  String.length (a +:+ b) = String.length a + String.length b.
Proof. induction a as [|c r IH]; sapp; [done | by rewrite IH]. Qed.

Lemma length_zero (s : string) : String.length s = 0 → s = "".
Proof. by destruct s. Qed.

Lemma length_drop (k : nat) (s : string) :
  String.length (Str.drop k s) = String.length s - k.
Proof.
  revert s. induction k as [|k IH]; intros [|c r]; simpl; done.
Qed.

Lemma contains_drop (c : ascii) (k : nat) (s : string) :
  Str.contains c s = false → Str.contains c (Str.drop k s) = false.
Proof.
  revert s. induction k as [|k IH]; intros [|x r]; simpl; try done.
  intros H. apply orb_false_iff in H as [_ H]. by apply IH.
Qed.

Lemma split_components (sep : ascii) (s : string) :
  Forall (λ x, Str.contains sep x = false) (Str.split sep s).
Proof.
  induction s as [|c r IH]; simpl.
  - by apply Forall_singleton.
  - destruct (decide (c = sep)) as [->|Hc].
    + by apply Forall_cons.
    + destruct (Str.split sep r) as [|h t]; simpl.
      * apply Forall_singleton. simpl. by rewrite bool_decide_eq_false_2.
      * apply Forall_cons in IH as [H1 H2]. apply Forall_cons. split; [|done].
        simpl. by rewrite bool_decide_eq_false_2.
Qed.

Lemma parent_dir_name_no_slash (loc d : string) (w w' : world) :
  parent_dir_name loc w = (Ok d, w') → Str.contains Str.slash d = false ∧ w' = w.
Proof.
  unfold parent_dir_name, Str.index_from_end.
  destruct (decide _); [done|].
  destruct (_ !! _) as [x|] eqn:E; [|done].
  intros [= -> ->]. split; [|done].
  pose proof (split_components Str.slash loc) as H.
  rewrite Forall_forall in H. apply H. by eapply list_elem_of_lookup_2.
Qed.

Lemma jpg_name_valid (d : string) :
  Str.contains Str.slash d = false → valid_name (Str.lower d +:+ ".jpg").
Proof.
  intros Hd. assert (String.length (Str.lower d +:+ ".jpg") ≥ 4) as Hlen.
  { rewrite length_sapp. simpl. lia. }
  repeat split.
  - intros E. rewrite E in Hlen. simpl in Hlen. lia.
  - by rewrite contains_app, contains_lower, Hd.
  - intros E. rewrite E in Hlen. simpl in Hlen. lia.
  - intros E. rewrite E in Hlen. simpl in Hlen. lia.
Qed.

Lemma csv_name_valid (d b : string) :
  Str.contains Str.slash d = false → valid_name b →
  valid_name (Str.lower (d +:+ "." +:+ Str.last_chars 7 b)).
Proof.
  intros Hd (Hb1 & Hb2 & Hb3 & Hb4).
  assert (String.length (Str.last_chars 7 b) = String.length b `min` 7) as Hl.
  { unfold Str.last_chars. rewrite length_drop. lia. }
  assert (String.length b ≠ 0) as Hb0 by (by intros ?%length_zero).
  assert (String.length (Str.lower (d +:+ "." +:+ Str.last_chars 7 b))
          = String.length d + 1 + String.length b `min` 7) as Hlen.
  { rewrite length_lower, !length_sapp, Hl. simpl. lia. }
  repeat split.
  - intros E. rewrite E in Hlen. simpl in Hlen. lia.
  - rewrite contains_lower, !contains_app, Hd. simpl.
    by apply contains_drop.
  - intros E. rewrite E in Hlen. simpl in Hlen. lia.
  - intros E. rewrite E in Hlen. simpl in Hlen.
    assert (String.length d = 0 ∧ String.length b = 1) as [Hd0 Hb1'] by lia.
    apply length_zero in Hd0. subst d.
    destruct b as [|c [|c' r]]; try done.
    unfold Str.last_chars in E. simpl in E.
    injection E as E. by apply lower_char_dot in E as ->.
Qed.

(** ** Renaming *)


(** A location [prefix/dir/base] read as the code reads it. *)
Lemma location_parts (prefix dir base : string) :
  Str.contains Str.slash dir = false →
  Str.contains Str.slash base = false →
  Str.index_from_end 2
    (Str.split Str.slash (prefix +:+ "/" +:+ dir +:+ "/" +:+ base)) = Some dir
  ∧ OsPath.basename (prefix +:+ "/" +:+ dir +:+ "/" +:+ base) = base.
Proof.
  intros Hd Hb. split.
  - rewrite !app_cons, !app_nil, !split_app.
    rewrite (split_no_sep _ dir), (split_no_sep _ base) by done.
    rewrite <- (index_from_end_2 (Str.split Str.slash prefix) dir base).
    done.
  - rewrite !app_cons, !app_nil.
    rewrite <- (app_cons _ dir), <- sapp_assoc.
    by apply basename_app.
Qed.

Lemma CSVFile_init_rename (w : world) (prefix dir base : string) :
  Str.contains Str.slash dir = false →
  Str.contains Str.slash base = false →
  let loc := prefix +:+ "/" +:+ dir +:+ "/" +:+ base in
  CSVFile_init loc true w =
    if exists_in (files w) loc
    then (Ok {| location := loc;
                name := Str.lower dir +:+ "." +:+ Str.lower (Str.last_chars 7 base) |}, w)
    else (Raise FileNotFoundError, w).
Proof.
  intros Hd Hb loc. destruct (location_parts prefix dir base Hd Hb) as [H2 Hn].
  unfold CSVFile_init, File_init, bind, path_exists. simpl.
  fold loc. destruct (exists_in (files w) loc); [|done]. simpl.
  unfold parent_dir_name. fold loc in H2, Hn. rewrite H2, Hn. unfold ret.
  by rewrite !lower_app.
Qed.

Lemma channel_suffix (o : ascii) :
  Str.last_chars 7 ("F0000CH" +:+ String o ".CSV") = "CH" +:+ String o ".CSV".
Proof. reflexivity. Qed.

(** C1: for a CSV file at [prefix/dir/base], construction with
    [rename=True] succeeds and names the copy after the lower-cased
    directory, a dot and the lower-cased last seven characters of the
    base name; [F0000CH<o>.CSV] in [E<N>P<M>] becomes
    [e<N>p<M>.ch<o>.csv]; and any other file of the same directory
    name with the same last seven characters gets the same name,
    whatever the world and the path before the directory. *)
Theorem csv_rename_name (w : world) (prefix dir base : string) :
  Str.contains Str.slash dir = false →
  Str.contains Str.slash base = false →
  exists_in (files w) (prefix +:+ "/" +:+ dir +:+ "/" +:+ base) = true →
  ∃ f, CSVFile_init (prefix +:+ "/" +:+ dir +:+ "/" +:+ base) true w = (Ok f, w)
    ∧ name f = Str.lower dir +:+ "." +:+ Str.lower (Str.last_chars 7 base)
    ∧ (∀ N M o, Str.digits N = true → Str.digits M = true → Str.is_digit o = true →
         dir = "E" +:+ N +:+ "P" +:+ M →
         base = "F0000CH" +:+ String o ".CSV" →
         name f = "e" +:+ N +:+ "p" +:+ M +:+ ".ch" +:+ String o ".csv")
    ∧ (∀ w' prefix' base' f',
         Str.contains Str.slash base' = false →
         Str.last_chars 7 base' = Str.last_chars 7 base →
         CSVFile_init (prefix' +:+ "/" +:+ dir +:+ "/" +:+ base') true w' = (Ok f', w') →
         name f' = name f).
Proof.
  intros Hd Hb Hex.
  pose proof (CSVFile_init_rename w prefix dir base Hd Hb) as Hi.
  simpl in Hi. rewrite Hex in Hi.
  eexists. split; [exact Hi|]. simpl. split; [done|]. split.
  - intros N M o HN HM Ho -> ->.
    rewrite channel_suffix, !lower_app.
    rewrite (lower_digits N), (lower_digits M) by done.
    change (Str.lower (String o ".CSV")) with (String (Str.lower_char o) ".csv").
    rewrite (lower_char_digit o), !sapp_assoc by done.
    reflexivity.
  - intros w' prefix' base' f' Hb' Hs Hi'.
    rewrite (CSVFile_init_rename w' prefix' dir base' Hd Hb') in Hi'.
    simpl in Hi'. destruct (exists_in (files w') _); [|done].
    inversion Hi'; subst f'. simpl. by rewrite Hs.
Qed.

(** ** Missing paths *)

Lemma join_volumes (drive : string) :
  Str.starts_with_slash drive = false →
  OsPath.join "/Volumes" drive = "/Volumes/" +:+ drive.
Proof. intros H. unfold OsPath.join. by rewrite H. Qed.

(** C3: when the drive location [os.path.join("/Volumes", drive_name)]
    (that is [/Volumes/<drive_name>] for a name not starting with a
    slash) does not exist, [__init__] raises FileNotFoundError; when
    the destination does not exist, [copy_scope_data] raises
    FileNotFoundError; either way the world is left as it was. *)
Theorem invalid_paths_fail (w : world) :
  (∀ drive : string,
      exists_in (files w) (OsPath.join "/Volumes" drive) = false →
      Copier_init drive w = (Raise FileNotFoundError, w))
  ∧ (∀ drive : string,
      Str.starts_with_slash drive = false →
      exists_in (files w) ("/Volumes/" +:+ drive) = false →
      Copier_init drive w = (Raise FileNotFoundError, w))
  ∧ (∀ (self : Copier) (destination : string)
       (create_folders rename_csv save_jpg verbose softrun : bool),
      exists_in (files w) destination = false →
      copy_scope_data self (PStr destination) create_folders rename_csv
                      save_jpg verbose softrun w
      = (Raise FileNotFoundError, w)).
Proof.
  assert (∀ drive, exists_in (files w) (OsPath.join "/Volumes" drive) = false →
                   Copier_init drive w = (Raise FileNotFoundError, w)) as H1.
  { intros drive H. unfold Copier_init, bind, path_exists. by rewrite H. }
  split; [exact H1|]. split.
  - intros drive Hs H. apply H1. by rewrite join_volumes.
  - intros self destination cf rn sj v sr H.
    unfold copy_scope_data, bind, path_exists. by rewrite H.
Qed.

(** ** The command line *)

Lemma check_args_invalid (a : Args) (w : world) :
  (prelab_only a = true ∧ c a = true)
  ∨ (generate_notebooks a = true
     ∧ (falsy (student_names a) = true ∨ falsy (student_ids a) = true))
  ∨ (generate_notebooks a = true
     ∧ len (student_names a) ≠ len (student_ids a)) →
  check_args a w = (Raise ParserError, w).
Proof.
  unfold check_args, bind, when, raise, ret.
  destruct (generate_notebooks a) eqn:Hg.
  - destruct (falsy (student_names a) || falsy (student_ids a)) eqn:Hf; [done|].
    apply orb_false_iff in Hf as [Hf1 Hf2].
    destruct (len (student_names a) =? len (student_ids a))%nat eqn:Hl;
      simpl; [|done].
    apply Nat.eqb_eq in Hl.
    intros [[-> ->]|[[_ [H|H]]|[_ H]]]; simpl; congruence.
  - intros [[-> ->]|[[? _]|[? _]]]; simpl; congruence.
Qed.

(** C5: with both [--prelab-only] and [-c], or with
    [--generate-notebooks] and no student name or no student id, or
    with [--generate-notebooks] and lists of different lengths, the
    program ends in a parser error and the world is as it was: nothing
    was created, copied or removed. *)
Theorem invalid_flags_exit (a : Args) (w : world) :
  (prelab_only a = true ∧ c a = true)
  ∨ (generate_notebooks a = true
     ∧ (falsy (student_names a) = true ∨ falsy (student_ids a) = true))
  ∨ (generate_notebooks a = true
     ∧ len (student_names a) ≠ len (student_ids a)) →
  main a w = (Raise ParserError, w).
Proof.
  intros H. unfold main, bind. by rewrite (check_args_invalid a w H).
Qed.

(** ** Copy-only mode *)

Lemma check_args_world (a : Args) (w : world) : (check_args a w).2 = w.
Proof.
  unfold check_args, bind, when, raise, ret.
  destruct (generate_notebooks a); simpl.
  - destruct (falsy _ || falsy _); [done|].
    destruct (negb _); simpl; [done|]. by destruct (prelab_only a && c a).
  - by destruct (prelab_only a && c a).
Qed.

Lemma glob_world (pathname : string) (w : world) : (glob pathname w).2 = w.
Proof.
  unfold glob. destruct (OsPath.split pathname) as [d b].
  destruct (negb _); [done|]. by destruct (_ || _).
Qed.

Lemma Copier_init_world (drive : string) (w : world) :
  (Copier_init drive w).2 = w.
Proof.
  unfold Copier_init, bind, path_exists, raise, ret. simpl.
  destruct (negb _); [done|].
  pose proof (glob_world (OsPath.join (OsPath.join "/Volumes" drive) "E*P*") w) as H.
  by destruct (glob _ w) as [[?|?] ?].
Qed.

(** In copy-only mode the destination handed to [copy_scope_data] is
    the flag itself, and joining ["jpgs"] to it is a TypeError: the
    program stops with the world untouched, whatever is on the drive. *)
Lemma copy_only_raises (a : Args) (w : world) :
  c a = true → ∃ e, main a w = (Raise e, w).
Proof.
  intros Hc. unfold main, bind.
  pose proof (check_args_world a w) as H1.
  destruct (check_args a w) as [[[]|e] w1]; simpl in H1; subst w1; [|by eexists].
  rewrite Hc.
  pose proof (Copier_init_world (drive_name a) w) as H2.
  destruct (Copier_init (drive_name a) w) as [[self|e] w1]; simpl in H2; subst w1;
    [|by eexists].
  unfold copy_scope_data, bind, path_exists.
  destruct (fd_open 1); simpl; by eexists.
Qed.

(** ** What [glob] returns *)


Lemma resolve_empty : Fs.resolve cwd "" = cwd.
Proof. unfold Fs.resolve. simpl. apply rev_involutive. Qed.

Lemma listdir_in_resolve (t : tree) (d : string) :
  listdir_in t d = dir_names t (Fs.resolve cwd d).
Proof.
  unfold listdir_in, dir_names.
  destruct (decide (d = "")) as [->|_]; [by rewrite resolve_empty | done].
Qed.

Lemma has_magic_join (a pat : string) :
  Str.contains Str.slash pat = false → Fnmatch.has_magic pat = true →
  Fnmatch.has_magic (OsPath.join a pat) = true.
Proof.
  intros Hs Hm.
  destruct (join_shape a pat Hs) as [[_ ->]|[(a0 & _ & ->)|(_ & _ & ->)]];
    [done|..]; rewrite has_magic_app; apply orb_true_iff; right;
    unfold Fnmatch.has_magic in *; simpl; done.
Qed.

(** [glob(os.path.join(a, pat))]: the matching visible names of the
    directory [a], each joined to the directory string. *)
Lemma glob_join (a pat : string) (w : world) :
  name_pattern pat →
  ∃ d, OsPath.split (OsPath.join a pat) = (d, pat)
       ∧ Fs.resolve cwd d = Fs.resolve cwd a
       ∧ (d = "" ↔ a = "")
       ∧ glob (OsPath.join a pat) w
         = if Fnmatch.has_magic a then (Raise GlobOutsideModel, w)
           else (Ok (map (OsPath.join d)
                         (matching pat (dir_names (files w) (Fs.resolve cwd a)))), w).
Proof.
  intros (Hs & Hm & Hb & Hh).
  destruct (split_join a pat Hs) as (d & Hsp & Hr & He & Hmd).
  exists d. repeat split; try done; try apply He.
  unfold glob. rewrite Hsp, (has_magic_join a pat Hs Hm), Hmd, Hb, Hh.
  simpl. rewrite orb_false_r.
  destruct (Fnmatch.has_magic a); [done|].
  rewrite listdir_in_resolve, Hr. do 2 f_equal.
  destruct (decide (d = "")) as [->|_]; [|done].
  fold (matching pat (dir_names (files w) (Fs.resolve cwd a))).
  induction (matching _ _) as [|n l IH]; [done|]. simpl. rewrite <- IH. f_equal.
  unfold OsPath.join. by destruct (Str.starts_with_slash n).
Qed.

Lemma pattern_parts : name_pattern "E*P*".
Proof. by repeat split. Qed.
Lemma pattern_jpg : name_pattern "*.JPG".
Proof. by repeat split. Qed.
Lemma pattern_csv : name_pattern "*.CSV".
Proof. by repeat split. Qed.

Lemma join_volumes_nonempty (drive : string) : OsPath.join "/Volumes" drive ≠ "".
Proof.
  unfold OsPath.join. destruct (Str.starts_with_slash drive) eqn:E.
  - by destruct drive.
  - simpl. done.
Qed.

(** What [__init__] leaves in [exercise_parts]. *)
Lemma Copier_init_parts (drive : string) (w w' : world) (self : Copier) :
  Copier_init drive w = (Ok self, w') →
  w' = w
  ∧ drive_location self = OsPath.join "/Volumes" drive
  ∧ exists_in (files w) (drive_location self) = true
  ∧ Fnmatch.has_magic (drive_location self) = false
  ∧ ∃ d, d ≠ ""
      ∧ Fs.resolve cwd d = Fs.resolve cwd (drive_location self)
      ∧ exercise_parts self
        = map (OsPath.join d)
              (matching "E*P*" (dir_names (files w) (Fs.resolve cwd d))).
Proof.
  unfold Copier_init, bind, path_exists. simpl.
  destruct (exists_in _ _) eqn:Hex; simpl; [|done].
  destruct (glob_join (OsPath.join "/Volumes" drive) "E*P*" w pattern_parts)
    as (d & _ & Hr & He & ->).
  destruct (Fnmatch.has_magic _) eqn:Hm; [done|].
  simpl. intros H. inversion H; subst; clear H. simpl.
  repeat split; try done.
  exists d. pose proof (join_volumes_nonempty drive) as Hne.
  assert (d ≠ "") as Hd by (intros Hd; by apply He in Hd).
  split; [done|]. split; [done|]. by rewrite Hr.
Qed.

(** ** Composing what a computation preserves *)

Section Preserve.

Context (R : world → world → Prop) `{!PreOrder R}.

Lemma preserves_ret {A} (a : A) : preserves R (ret a).
Proof. intros w. simpl. reflexivity. Qed.

Lemma preserves_raise {A} (e : exn) : preserves R (raise (A:=A) e).
Proof. intros w. simpl. reflexivity. Qed.

Lemma bind_world {A B} (m : M A) (k : A → M B) (w : world) :
  R w (m w).2 → (∀ a, R (m w).2 (k a (m w).2).2) → R w (bind m k w).2.
Proof.
  intros H1 H2. unfold bind. specialize (H2).
  destruct (m w) as [[a|e] w1]; simpl in *; [|done].
  etrans; [exact H1 | apply H2].
Qed.

Lemma preserves_bind {A B} (m : M A) (k : A → M B) :
  preserves R m → (∀ a, preserves R (k a)) → preserves R (bind m k).
Proof. intros H1 H2 w. apply bind_world; [apply H1|]. intros a. apply H2. Qed.

Lemma preserves_when (b : bool) (m : M unit) :
  preserves R m → preserves R (when b m).
Proof. intros H. destruct b; [done | apply preserves_ret]. Qed.

Lemma preserves_for_each {A} (l : list A) (body : A → M unit) :
  (∀ x, x ∈ l → preserves R (body x)) → preserves R (for_each l body).
Proof.
  induction l as [|x l IH]; intros H; simpl; [apply preserves_ret|].
  apply preserves_bind.
  - apply H. by left.
  - intros _. apply IH. intros y Hy. apply H. by right.
Qed.

Lemma preserves_ignoring (e : exn) (m : M unit) :
  preserves R m → preserves R (ignoring e m).
Proof.
  intros H w. specialize (H w). unfold ignoring.
  destruct (m w) as [[a|e'] w1]; [done|]. by destruct (decide (e' = e)).
Qed.

Lemma preserves_pure {A} (m : M A) : preserves eq m → preserves R m.
Proof. intros H w. rewrite <- (H w). reflexivity. Qed.

End Preserve.

Global Instance same_files_preorder : PreOrder same_files.
Proof.
  split.
  - by intros w.
  - intros w1 w2 w3 [H1 H2] [H3 H4]. split; congruence.
Qed.

Ltac pure_by l := apply preserves_pure; [apply _ | apply l].

(** *** Computations that only look *)

Lemma path_exists_pure (v : pyval) : preserves eq (path_exists v).
Proof. intros w. by destruct v. Qed.

Lemma as_str_pure (v : pyval) : preserves eq (as_str v).
Proof. intros w. by destruct v. Qed.

Lemma path_join_pure (v : pyval) (b : string) : preserves eq (path_join v b).
Proof. intros w. by destruct v. Qed.

Lemma glob_pure (pathname : string) : preserves eq (glob pathname).
Proof. intros w. by rewrite glob_world. Qed.

Lemma parent_dir_name_pure (loc : string) : preserves eq (parent_dir_name loc).
Proof. intros w. unfold parent_dir_name. by destruct (Str.index_from_end _ _). Qed.

Lemma File_init_pure (loc : string) : preserves eq (File_init loc).
Proof.
  unfold File_init.
  apply preserves_bind; [apply _ | apply path_exists_pure |].
  intros []; [apply preserves_ret | apply preserves_raise]; apply _.
Qed.

Lemma JPGFile_init_pure (loc : string) : preserves eq (JPGFile_init loc).
Proof.
  unfold JPGFile_init.
  apply preserves_bind; [apply _ | apply File_init_pure |]. intros f.
  apply preserves_bind; [apply _ | apply parent_dir_name_pure |]. intros d.
  apply preserves_ret; apply _.
Qed.

Lemma CSVFile_init_pure (loc : string) (rename : bool) :
  preserves eq (CSVFile_init loc rename).
Proof.
  unfold CSVFile_init.
  apply preserves_bind; [apply _ | apply File_init_pure |]. intros f.
  destruct rename; [|apply preserves_ret; apply _].
  apply preserves_bind; [apply _ | apply parent_dir_name_pure |]. intros d.
  apply preserves_ret; apply _.
Qed.

(** With [softrun] a save only checks that the destination exists. *)
Lemma File_save_softrun_pure (f : FileObj) (destination : pyval) (verbose : bool) :
  preserves eq (File_save f destination verbose true).
Proof.
  unfold File_save.
  apply preserves_bind; [apply _ | apply path_exists_pure |]. intros found.
  destruct (negb found); [apply preserves_raise; apply _|].
  apply preserves_bind; [apply _ | |].
  - apply preserves_when; [apply _|].
    apply preserves_bind; [apply _ | apply path_join_pure |].
    intros ?. apply preserves_ret; apply _.
  - intros _. simpl. apply preserves_ret; apply _.
Qed.

(** *** Creating and removing directories leaves the files alone *)

Lemma file_entries_remove_dir (t : tree) (p : path) :
  Fs.lookup t p = Some Dir → file_entries (Fs.remove p t) = file_entries t.
Proof.
  unfold file_entries. induction t as [|[k m] t IH]; simpl; [done|].
  destruct (decide (k = p)) as [->|Hk].
  - intros [= ->]. by rewrite filter_cons.
  - intros H. by rewrite !filter_cons, IH.
Qed.

Lemma mkdir_path_same_files (p : path) : preserves same_files (mkdir_path p).
Proof.
  intros w. unfold mkdir_path.
  destruct (Fs.node_at (files w) p); [done|].
  destruct (Fs.node_at (files w) (Fs.parent p)) as [[c|]|]; try done.
  split; [done|]. simpl. unfold file_entries.
  by rewrite filter_app, filter_cons, filter_nil, app_nil_r.
Qed.

Lemma makedirs_rev_same_files (rp : list string) :
  preserves same_files (makedirs_rev rp).
Proof.
  induction rp as [|x h IH]; simpl; [apply mkdir_path_same_files|].
  apply preserves_bind; [apply _ | | intros _; apply mkdir_path_same_files].
  intros w. destruct (_ && _); [|done].
  by apply (preserves_ignoring same_files FileExistsError (makedirs_rev h) IH w).
Qed.

Lemma makedirs_same_files (v : pyval) : preserves same_files (makedirs v).
Proof.
  unfold makedirs.
  apply preserves_bind; [apply _ | pure_by as_str_pure |].
  intros s0. destruct (decide (s0 = "")); [apply preserves_raise; apply _|].
  apply makedirs_rev_same_files.
Qed.

Lemma rmdir_same_files (v : pyval) : preserves same_files (rmdir v).
Proof.
  unfold rmdir.
  apply preserves_bind; [apply _ | pure_by as_str_pure |].
  intros s0 w. destruct (decide (s0 = "")); [done|]. simpl.
  destruct (Fs.node_at _ _) as [[c|]|] eqn:E; try done.
  destruct (Fs.children _ _); [|done].
  destruct (decide (Fs.resolve cwd s0 = [])) as [|Hne]; [done|].
  split; [done|]. simpl. apply file_entries_remove_dir.
  by rewrite <- node_at_lookup.
Qed.

Lemma save_jpg_of_softrun_pure (tsp : string) (verbose : bool) (part : string) :
  preserves eq (save_jpg_of tsp verbose true part).
Proof.
  unfold save_jpg_of.
  apply preserves_bind; [apply _ | apply glob_pure |]. intros [|first rest].
  - apply preserves_raise; apply _.
  - apply preserves_bind; [apply _ | apply JPGFile_init_pure |]. intros f.
    apply File_save_softrun_pure.
Qed.

Lemma save_jpgs_softrun_same_files (self : Copier) (destination : pyval) (verbose : bool) :
  preserves same_files (save_jpgs self destination verbose true).
Proof.
  unfold save_jpgs.
  apply preserves_bind; [apply _ | pure_by path_join_pure |].
  intros tsp.
  apply preserves_bind; [apply _ | pure_by path_exists_pure |].
  intros found.
  apply preserves_bind; [apply _ | (apply preserves_when; [apply _ | apply makedirs_same_files]) |].
  intros _.
  apply preserves_bind; [apply _ | | intros _; apply rmdir_same_files].
  apply preserves_for_each; [apply _|]. intros part _.
  apply preserves_pure; [apply _|]. apply save_jpg_of_softrun_pure.
Qed.

Lemma save_csvs_of_softrun_same_files (destination : pyval)
    (create_folders rename_csv verbose : bool) (part : string) :
  preserves same_files
    (save_csvs_of destination create_folders rename_csv verbose true part).
Proof.
  unfold save_csvs_of.
  apply preserves_bind; [apply _ | |].
  { destruct create_folders; [|apply preserves_ret; apply _].
    apply preserves_bind; [apply _ | pure_by path_join_pure |].
    intros ?. apply preserves_ret; apply _. }
  intros tsp.
  apply preserves_bind; [apply _ | |].
  { apply preserves_when; [apply _|].
    apply preserves_bind; [apply _ | pure_by path_exists_pure |].
    intros found. (apply preserves_when; [apply _ | apply makedirs_same_files]). }
  intros _.
  apply preserves_bind; [apply _ | pure_by glob_pure |].
  intros csvs.
  apply preserves_bind; [apply _ | |].
  { apply preserves_for_each; [apply _|]. intros csv _.
    apply preserves_pure; [apply _|].
    apply preserves_bind; [apply _ | apply CSVFile_init_pure |]. intros f.
    apply File_save_softrun_pure. }
  intros _. apply preserves_when; [apply _|]. apply rmdir_same_files.
Qed.

Lemma copy_scope_data_softrun_same_files (self : Copier) (destination : pyval)
    (create_folders rename_csv save_jpg verbose : bool) :
  preserves same_files
    (copy_scope_data self destination create_folders rename_csv save_jpg verbose true).
Proof.
  unfold copy_scope_data.
  apply preserves_bind; [apply _ | pure_by path_exists_pure |].
  intros found. destruct (negb found); [apply preserves_raise; apply _|].
  apply preserves_bind; [apply _ | |].
  { apply preserves_when; [apply _|]. apply save_jpgs_softrun_same_files. }
  intros _. apply preserves_for_each; [apply _|]. intros part _.
  apply save_csvs_of_softrun_same_files.
Qed.

(** ** Creating one directory and removing it again *)

Lemma exists_in_spec (t : tree) (s0 : string) :
  exists_in t s0 = true ↔ s0 ≠ "" ∧ is_Some (Fs.node_at t (Fs.resolve cwd s0)).
Proof.
  unfold exists_in. destruct (decide (s0 = "")) as [->|Hs].
  - split; [done | by intros [? _]].
  - rewrite bool_decide_eq_true. split; [done | by intros [_ ?]].
Qed.

Lemma exists_in_false (t : tree) (s0 : string) :
  s0 ≠ "" → exists_in t s0 = false → Fs.node_at t (Fs.resolve cwd s0) = None.
Proof.
  intros Hs H. destruct (Fs.node_at t (Fs.resolve cwd s0)) eqn:E; [|done].
  assert (exists_in t s0 = true) as H'; [|congruence].
  apply exists_in_spec. split; [done|]. by rewrite E.
Qed.

Lemma join_nonempty (a b : string) : b ≠ "" → OsPath.join a b ≠ "".
Proof.
  intros Hb. unfold OsPath.join.
  destruct (Str.starts_with_slash b); [done|].
  destruct (decide (a = "")); [done|].
  destruct (Str.ends_with_slash a); by destruct a.
Qed.

Lemma basename_no_slash (s0 : string) :
  Str.contains Str.slash (OsPath.basename s0) = false.
Proof.
  unfold OsPath.basename. induction s0 as [|c r IH]; simpl; [done|].
  destruct (Str.cut_last_slash r) as [h t]. simpl in IH.
  destruct (Str.contains Str.slash r) eqn:E; simpl; [done|].
  destruct (decide (c = Str.slash)); simpl; [done|].
  by rewrite bool_decide_eq_false_2.
Qed.

(** With an existing parent [os.makedirs] is a single [os.mkdir]. *)
Lemma makedirs_single (s0 : string) (T : path) (x : string) (w : world) :
  s0 ≠ "" → Fs.resolve cwd s0 = T ++ [x] → is_Some (Fs.node_at (files w) T) →
  makedirs (PStr s0) w = mkdir_path (T ++ [x]) w.
Proof.
  intros Hs Hr [n Hn]. unfold makedirs, bind, as_str, ret.
  destruct (decide (s0 = "")); [done|]. rewrite Hr, rev_app_distr. simpl.
  unfold bind. rewrite rev_involutive, Hn.
  rewrite (bool_decide_eq_false_2 (Some n = None)) by done.
  by rewrite andb_false_r.
Qed.

(** In a file-system tree a path that is not there has nothing under it. *)
Lemma wf_no_children (t : tree) (p : path) :
  Fs.wf t → Fs.node_at t p = None → Fs.children t p = [].
Proof.
  intros [_ Hall] Hp. rewrite Forall_forall in Hall.
  destruct (Fs.children t p) as [|x l] eqn:E; [done|].
  assert (x ∈ Fs.children t p) as Hx by (rewrite E; by left).
  apply children_elem, list_elem_of_fmap in Hx as (e & He & Hin).
  destruct (Hall e Hin) as (_ & _ & Hd).
  rewrite <- He, parent_snoc in Hd. congruence.
Qed.

Lemma world_eta (w : world) : {| files := files w; copied := copied w |} = w.
Proof. by destruct w. Qed.

Lemma bind_assoc {A B C} (m : M A) (k : A → M B) (k' : B → M C) (w : world) :
  bind (bind m k) k' w = bind m (λ a, bind (k a) k') w.
Proof. unfold bind. by destruct (m w) as [[a|e] w1]. Qed.

(** A fresh directory made, something that only looks, the directory
    removed: when all of it succeeds the world is as before. *)
Lemma mkdir_rmdir_roundtrip {A} (m : M A) (s0 : string) (T : path) (x : string)
    (w w' : world) :
  Fs.wf (files w) → preserves eq m →
  Fs.resolve cwd s0 = T ++ [x] → is_Some (Fs.node_at (files w) T) →
  exists_in (files w) s0 = false → s0 ≠ "" →
  bind (makedirs (PStr s0)) (λ _, bind m (λ _, rmdir (PStr s0))) w = (Ok tt, w') →
  w' = w.
Proof.
  intros Hwf Hm Hr HT Hfresh Hs.
  pose proof (exists_in_false _ _ Hs Hfresh) as Hnone. rewrite Hr in Hnone.
  unfold bind at 1. rewrite (makedirs_single s0 T x w Hs Hr HT).
  unfold mkdir_path. rewrite Hnone, parent_snoc.
  destruct HT as [n HT]. rewrite HT. destruct n as [c|]; [done|].
  unfold bind. pose proof (Hm {| files := files w ++ [(T ++ [x], Dir)]; copied := copied w |}) as Hpure.
  destruct (m _) as [[a|e] w1]; simpl in Hpure; subst w1; [|done].
  unfold rmdir, bind, as_str, ret. destruct (decide (s0 = "")); [done|].
  rewrite Hr. simpl files.
  assert (T ++ [x] ≠ []) as Hne by (by destruct T).
  rewrite node_at_lookup in Hnone by done.
  rewrite node_at_lookup, lookup_app, Hnone by done. simpl.
  destruct (decide (T ++ [x] = T ++ [x])); [|done].
  rewrite children_app, (wf_no_children (files w) (T ++ [x]) Hwf).
  2:{ by rewrite node_at_lookup. }
  simpl. destruct (last (T ++ [x])) as [y|]; simpl.
  - destruct (decide (T ++ [x] = (T ++ [x]) ++ [y])) as [E|_].
    { apply (f_equal length) in E. rewrite !length_app in E. simpl in E. lia. }
    destruct (decide (T ++ [x] = [])); [done|].
    intros [= <-]. rewrite remove_app_new by done. apply world_eta.
  - destruct (decide (T ++ [x] = [])); [done|].
    intros [= <-]. rewrite remove_app_new by done. apply world_eta.
Qed.

(** Joining any slash-free string: one more component to normalise. *)
Lemma resolve_join_gen (a b : string) :
  Str.contains Str.slash b = false →
  Fs.resolve cwd (OsPath.join a b) = Fs.normalize (rev (Fs.resolve cwd a)) [b].
Proof.
  intros Hb. unfold Fs.resolve.
  destruct (join_shape a b Hb) as [[-> ->]|[(a0 & -> & ->)|(Ha & _ & ->)]].
  - rewrite (no_slash_start b Hb), (split_no_sep _ b Hb). simpl Str.split.
    simpl Str.starts_with_slash. f_equal. simpl. by rewrite rev_involutive.
  - change "/" with (String Str.slash "").
    rewrite !split_app, (split_no_sep _ b Hb). simpl Str.split.
    assert (Str.starts_with_slash (a0 +:+ String Str.slash b)
            = Str.starts_with_slash (a0 +:+ String Str.slash "")) as ->.
    { by destruct a0. }
    rewrite !normalize_app. f_equal. simpl. by rewrite !rev_involutive.
  - rewrite split_app, (split_no_sep _ b Hb), starts_app by done.
    by rewrite normalize_app.
Qed.

Lemma rev_tail_rev {A} (l : list A) : rev (tail (rev l)) = removelast l.
Proof.
  destruct (decide (l = [])) as [->|Hl]; [done|].
  destruct (exists_last Hl) as (l' & x & ->).
  by rewrite rev_app_distr, removelast_last; simpl; rewrite rev_involutive.
Qed.

(** In a file-system tree, a name joined to an existing directory names
    something new only when it is a legal name. *)
Lemma fresh_join_valid (t : tree) (a b : string) :
  Fs.wf t → exists_in t a = true → Str.contains Str.slash b = false →
  exists_in t (OsPath.join a b) = false → valid_name b.
Proof.
  intros Hwf [Ha [n Hn]]%exists_in_spec Hb Hfresh.
  destruct (decide (valid_name b)) as [|Hv]; [done|]. exfalso.
  assert (exists_in t (OsPath.join a b) = true) as H; [|congruence].
  apply exists_in_spec. split.
  { unfold OsPath.join. rewrite (no_slash_start b Hb).
    destruct (decide (a = "")); [done|]. destruct (Str.ends_with_slash a); by destruct a. }
  rewrite (resolve_join_gen a b Hb). simpl.
  destruct (decide (b = "" ∨ b = ".")) as [_|H1].
  { rewrite rev_involutive. by rewrite Hn. }
  destruct (decide (b = "..")) as [_|H2].
  - rewrite rev_tail_rev.
    destruct (Fs.resolve cwd a) as [|x p] eqn:E; [done|].
    simpl in Hn. apply lookup_Some_elem in Hn.
    destruct Hwf as [_ Hall]. rewrite Forall_forall in Hall.
    destruct (Hall _ Hn) as (_ & _ & Hd).
    unfold Fs.parent in Hd. simpl fst in Hd. by rewrite Hd.
  - destruct Hv. repeat split; try done; intros ->; [destruct H1; by left | 
      destruct H1; by right].
Qed.

Lemma for_each_fixed {A} (l : list A) (body : A → M unit) (w w' : world) :
  (∀ x w1, x ∈ l → body x w = (Ok tt, w1) → w1 = w) →
  for_each l body w = (Ok tt, w') → w' = w.
Proof.
  induction l as [|x l IH]; simpl; intros H.
  - by intros [= <-].
  - unfold bind. destruct (body x w) as [[[]|e] w1] eqn:E; [|done].
    assert (w1 = w) as -> by (apply (H x); [by left | done]).
    apply IH. intros y w2 Hy. apply H. by right.
Qed.

Lemma ok_of_pure {A} (m : M A) (w w' : world) (r : result A) :
  preserves eq m → m w = (r, w') → w' = w.
Proof. intros H E. specialize (H w). rewrite E in H. done. Qed.

(** The two blocks of [copy_scope_data] for a string destination:
    ensure the directory, run the loop, remove the directory on softrun. *)
Lemma save_jpgs_unfold (self : Copier) (dest : string) (verbose softrun : bool)
    (w : world) :
  save_jpgs self (PStr dest) verbose softrun w
  = bind (when (negb (exists_in (files w) (OsPath.join dest "jpgs")))
               (makedirs (PStr (OsPath.join dest "jpgs"))))
         (λ _, bind (for_each (exercise_parts self)
                              (save_jpg_of (OsPath.join dest "jpgs") verbose softrun))
                    (λ _, when softrun (rmdir (PStr (OsPath.join dest "jpgs"))))) w.
Proof. reflexivity. Qed.

Lemma save_csvs_of_unfold (dest : string) (rn verbose softrun : bool)
    (part : string) (w : world) :
  save_csvs_of (PStr dest) true rn verbose softrun part w
  = bind (when (negb (exists_in (files w) (OsPath.join dest (OsPath.basename part))))
               (makedirs (PStr (OsPath.join dest (OsPath.basename part)))))
         (λ _, bind (bind (glob (OsPath.join part "*.CSV"))
                          (λ csvs, for_each csvs (λ csv_file,
                             let* f := CSVFile_init csv_file rn in
                             File_save f (PStr (OsPath.join dest (OsPath.basename part)))
                                       verbose softrun)))
                    (λ _, when softrun
                            (rmdir (PStr (OsPath.join dest (OsPath.basename part)))))) w.
Proof.
  unfold save_csvs_of, bind, path_join, as_str, ret, path_exists. simpl.
  rewrite andb_true_r.
  destruct (when _ _ w) as [[[]|e] w1]; [|done].
  by destruct (glob _ w1) as [[csvs|e] w2].
Qed.

Lemma save_csvs_of_flat (destination : pyval) (rn verbose softrun : bool)
    (part : string) (w : world) :
  save_csvs_of destination false rn verbose softrun part w
  = bind (glob (OsPath.join part "*.CSV"))
         (λ csvs, for_each csvs (λ csv_file,
            let* f := CSVFile_init csv_file rn in
            File_save f destination verbose softrun)) w.
Proof.
  unfold save_csvs_of, bind, ret. simpl. rewrite andb_false_r.
  destruct (glob _ w) as [[csvs|e] w1]; [|done]. simpl.
  by destruct (for_each _ _ w1) as [[[]|e] w2].
Qed.

Lemma save_jpgs_softrun_fresh (self : Copier) (dest : string) (verbose : bool)
    (w w' : world) :
  Fs.wf (files w) → exists_in (files w) dest = true →
  exists_in (files w) (OsPath.join dest "jpgs") = false →
  save_jpgs self (PStr dest) verbose true w = (Ok tt, w') → w' = w.
Proof.
  intros Hwf Hd Hfresh. rewrite save_jpgs_unfold, Hfresh. simpl negb. unfold when.
  apply (mkdir_rmdir_roundtrip _ _ (Fs.resolve cwd dest) "jpgs"); try done.
  - apply preserves_for_each; [apply _|]. intros part _.
    apply save_jpg_of_softrun_pure.
  - by apply resolve_join.
  - by apply exists_in_spec in Hd as [_ ?].
  - by apply join_nonempty.
Qed.

Lemma save_csvs_of_softrun_fresh (dest : string) (cf rn verbose : bool)
    (part : string) (w w' : world) :
  Fs.wf (files w) → exists_in (files w) dest = true →
  (cf = true → exists_in (files w) (OsPath.join dest (OsPath.basename part)) = false) →
  save_csvs_of (PStr dest) cf rn verbose true part w = (Ok tt, w') → w' = w.
Proof.
  intros Hwf Hd Hfresh. destruct cf.
  - specialize (Hfresh eq_refl).
    pose proof (fresh_join_valid _ _ _ Hwf Hd (basename_no_slash part) Hfresh) as Hv.
    rewrite save_csvs_of_unfold, Hfresh. simpl negb. unfold when.
    apply (mkdir_rmdir_roundtrip _ _ (Fs.resolve cwd dest) (OsPath.basename part));
      try done.
    + apply preserves_bind; [apply _ | apply glob_pure |]. intros csvs.
      apply preserves_for_each; [apply _|]. intros csv _.
      apply preserves_bind; [apply _ | apply CSVFile_init_pure |]. intros f.
      apply File_save_softrun_pure.
    + by apply resolve_join.
    + by apply exists_in_spec in Hd as [_ ?].
    + apply join_nonempty. by destruct Hv.
  - rewrite save_csvs_of_flat. apply ok_of_pure.
    apply preserves_bind; [apply _ | apply glob_pure |]. intros csvs.
    apply preserves_for_each; [apply _|]. intros csv _.
    apply preserves_bind; [apply _ | apply CSVFile_init_pure |]. intros f.
    apply File_save_softrun_pure.
Qed.

Lemma copy_scope_data_unfold (self : Copier) (dest : string)
    (cf rn sj verbose softrun : bool) (w : world) :
  copy_scope_data self (PStr dest) cf rn sj verbose softrun w
  = if exists_in (files w) dest
    then bind (when sj (save_jpgs self (PStr dest) verbose softrun))
              (λ _, save_csvs self (PStr dest) cf rn verbose softrun) w
    else (Raise FileNotFoundError, w).
Proof.
  unfold copy_scope_data. unfold bind at 1. unfold path_exists.
  by destruct (exists_in (files w) dest).
Qed.

(** C9: with [softrun=True] the copy log and every file entry are as
    before, whatever the outcome; and when the run returns normally on a
    destination that held neither [jpgs] (for [save_jpg=True]) nor a
    folder named like an exercise part (for [create_folders=True]), the
    whole world is as before: what was created has been removed. *)
Theorem softrun_leaves_destination (self : Copier) (destination : pyval)
    (create_folders rename_csv save_jpg verbose : bool) (w : world) :
  same_files w (copy_scope_data self destination create_folders rename_csv
                                save_jpg verbose true w).2
  ∧ ∀ dest : string,
      destination = PStr dest → Fs.wf (files w) →
      (save_jpg = true → exists_in (files w) (OsPath.join dest "jpgs") = false) →
      (create_folders = true →
       ∀ part, part ∈ exercise_parts self →
         exists_in (files w) (OsPath.join dest (OsPath.basename part)) = false) →
      (copy_scope_data self destination create_folders rename_csv
                       save_jpg verbose true w).1 = Ok tt →
      (copy_scope_data self destination create_folders rename_csv
                       save_jpg verbose true w).2 = w.
Proof.
  split; [apply copy_scope_data_softrun_same_files|].
  intros dest -> Hwf Hj Hc. rewrite copy_scope_data_unfold.
  destruct (exists_in (files w) dest) eqn:Hd; [|done].
  unfold bind.
  destruct (when save_jpg _ w) as [[[]|e] w1] eqn:E1; [|done].
  assert (w1 = w) as ->.
  { destruct save_jpg; simpl in E1; [|by injection E1].
    eapply save_jpgs_softrun_fresh; eauto. }
  destruct (save_csvs _ _ _ _ _ _ w) as [[[]|e] w2] eqn:E2; [|done].
  intros _. simpl. unfold save_csvs in E2.
  apply (for_each_fixed _ _ _ _ (λ part w3 Hp,
           save_csvs_of_softrun_fresh dest create_folders rename_csv verbose
             part w w3 Hwf Hd (λ Hcf, Hc Hcf part Hp)) E2).
Qed.

(** ** The changes the primitives make *)

Lemma wf_node_valid (t : tree) (p : path) :
  Fs.wf t → is_Some (Fs.node_at t p) → Forall valid_name p.
Proof.
  intros [_ Hall] [n Hn]. destruct p as [|x p]; [done|].
  simpl in Hn. apply lookup_Some_elem in Hn.
  rewrite Forall_forall in Hall. by destruct (Hall _ Hn) as (_ & ? & _).
Qed.

Lemma not_below_self (d : path) : ¬ below d d.
Proof. by intros [_ ?]. Qed.

Lemma steps_node_at (rm : bool) (d : path) (t t' : tree) (q : path) :
  rtc (step rm d) t t' → ¬ below d q → Fs.node_at t' q = Fs.node_at t q.
Proof. intros Hs Hq. eapply outside_node_at; [by eapply steps_outside | done]. Qed.

Global Instance evolves_preorder (rm : bool) (d : path) (P : string * string → Prop) :
  PreOrder (evolves rm d P).
Proof.
  split.
  - intros w _ _. split; [constructor|]. exists []. by rewrite app_nil_r.
  - intros w1 w2 w3 H12 H23 Hwf Hd.
    destruct (H12 Hwf Hd) as (Hs1 & l1 & Hl1 & HP1).
    destruct H23 as (Hs2 & l2 & Hl2 & HP2).
    + by eapply steps_wf.
    + rewrite (steps_node_at rm d _ _ d Hs1); [done | apply not_below_self].
    + split; [by etrans|]. exists (l1 ++ l2). split.
      * by rewrite Hl2, Hl1, app_assoc.
      * by apply Forall_app.
Qed.

Lemma evolves_same (rm : bool) (d : path) (P : string * string → Prop)
    (w : world) (t' : tree) :
  (Fs.wf (files w) → is_Some (Fs.node_at (files w) d) → rtc (step rm d) (files w) t') →
  evolves rm d P w {| files := t'; copied := copied w |}.
Proof.
  intros H Hwf Hd. split; [by apply H|]. exists []. simpl. by rewrite app_nil_r.
Qed.

Lemma step_weaken (d : path) (t t' : tree) (rm : bool) :
  step false d t t' → step rm d t t'.
Proof.
  intros [t0 p n ? ? ? ?|t0 p c c' ? ?|t0 p Hrm ? ? ?].
  - by apply step_add.
  - by eapply step_write.
  - done.
Qed.

Lemma write_at_step (rm : bool) (d : path) (t t' : tree) (p : path) (c : string) :
  below d p → Forall valid_name p → write_at t p c = inr t' → step rm d t t'.
Proof.
  intros Hb Hv. unfold write_at.
  destruct (Fs.node_at t p) as [[c0|]|] eqn:E; [| done |].
  - intros [= <-]. eapply step_write; [done|].
    by rewrite <- node_at_lookup by (by eapply below_nonempty).
  - destruct (Fs.node_at t (Fs.parent p)) as [[c0|]|] eqn:E'; try done.
    intros [= <-]. by apply step_add.
Qed.

Lemma copy_tree_step (rm : bool) (d : path) (t t' : tree) (ps pd0 : path) (bn : string) :
  below d pd0 → Forall valid_name pd0 → valid_name bn →
  copy_tree t ps pd0 bn = inr t' → step rm d t t'.
Proof.
  intros Hb Hv Hbn. unfold copy_tree.
  destruct (_ && _ && _); [done|].
  destruct (Fs.node_at t ps) as [[c|]|]; try done.
  destruct (bool_decide (Fs.node_at t pd0 = Some Dir)).
  - apply write_at_step; [by apply below_trans_snoc|].
    apply Forall_app. split; [done | by apply Forall_singleton].
  - by apply write_at_step.
Qed.

(** [shutil.copy] on strings is [copy_tree] on what they resolve to. *)
Lemma shutil_copy_tree (src dst : string) (w : world) :
  src ≠ "" → dst ≠ "" → valid_name (OsPath.basename src) →
  shutil_copy src dst w
  = match copy_tree (files w) (Fs.resolve cwd src) (Fs.resolve cwd dst)
                    (OsPath.basename src) with
    | inl e => (Raise e, w)
    | inr t' => (Ok tt, {| files := t'; copied := copied w ++ [(src, dst)] |})
    end.
Proof.
  intros Hs Hd Hbn. unfold shutil_copy, copy_tree, isdir_in, exists_in.
  destruct (decide (dst = "")); [done|]. destruct (decide (src = "")); [done|].
  destruct (bool_decide (Fs.node_at (files w) (Fs.resolve cwd dst) = Some Dir)) eqn:Edir.
  - assert (OsPath.join dst (OsPath.basename src) ≠ "") as Hj.
    { apply join_nonempty. by destruct Hbn. }
    destruct (decide (OsPath.join dst (OsPath.basename src) = "")); [done|].
    rewrite resolve_join by done.
    destruct (_ && _ && _); [done|].
    destruct (decide (src = "" ∨ _)) as [[?|?]|_]; [done..|].
    destruct (Fs.node_at (files w) (Fs.resolve cwd src)) as [[c|]|]; try done.
  - destruct (decide (dst = "")); [done|].
    destruct (_ && _ && _); [done|].
    destruct (decide (src = "" ∨ _)) as [[?|?]|_]; [done..|].
    destruct (Fs.node_at (files w) (Fs.resolve cwd src)) as [[c|]|]; try done.
Qed.

Lemma mkdir_path_evolves (rm : bool) (d p : path) (P : string * string → Prop) :
  below d p → Forall valid_name p → preserves (evolves rm d P) (mkdir_path p).
Proof.
  intros Hb Hv w. unfold mkdir_path.
  destruct (Fs.node_at (files w) p) eqn:E; [reflexivity|].
  destruct (Fs.node_at (files w) (Fs.parent p)) as [[c|]|] eqn:E'; try reflexivity.
  simpl. apply evolves_same. intros _ _. apply rtc_once. by apply step_add.
Qed.

Lemma rmdir_evolves (d : path) (s0 : string) (P : string * string → Prop) :
  below d (Fs.resolve cwd s0) → preserves (evolves true d P) (rmdir (PStr s0)).
Proof.
  intros Hb w. unfold rmdir, bind, as_str, ret.
  destruct (decide (s0 = "")); [reflexivity|].
  destruct (Fs.node_at _ _) as [[c|]|] eqn:E; try reflexivity.
  destruct (Fs.children _ _) eqn:E'; [|reflexivity].
  destruct (decide (Fs.resolve cwd s0 = [])); [reflexivity|].
  simpl. apply evolves_same. intros _ _. apply rtc_once. apply step_rmdir; try done.
  by rewrite <- node_at_lookup.
Qed.

(** ** Exercise parts and what is found in them *)

Lemma ends_with_slash_name (x m : string) :
  m ≠ "" → Str.contains Str.slash m = false →
  Str.ends_with_slash (x +:+ String Str.slash m) = false.
Proof.
  intros Hm Hs.
  assert (∀ y, y ≠ "" → Str.contains Str.slash y = false →
               Str.ends_with_slash y = false) as Hy.
  { induction y as [|c r IH]; [done|]. intros _ H. simpl in H.
    apply orb_false_iff in H as [H1 H2]. simpl.
    destruct r as [|c' r']; [done|]. by apply IH. }
  induction x as [|c r IH]; sapp.
  - destruct m as [|c' m']; [done|]. by apply (Hy (String c' m')).
  - destruct (r +:+ String Str.slash m) eqn:E; [by destruct r | done].
Qed.

Lemma rstrip_trailing (a : string) :
  a ≠ "" → Str.ends_with_slash a = false → Str.rstrip_slash (a +:+ "/") = a.
Proof.
  induction a as [|c r IH]; [done|]. intros _ He.
  rewrite app_cons, rstrip_cons.
  assert (Str.all_slashes (String c (r +:+ "/")) = false) as ->.
  { rewrite <- app_cons, all_slashes_app. apply andb_false_iff. left.
    destruct (Str.all_slashes (String c r)) eqn:E; [|done].
    pose proof (all_slashes_ends (String c r) ltac:(done) E). congruence. }
  f_equal. destruct r as [|c' r']; [done|]. by apply IH.
Qed.

Lemma good_part_facts (part : string) :
  good_part part →
  part ≠ "" ∧ Str.ends_with_slash part = false
  ∧ valid_name (OsPath.basename part)
  ∧ ∀ b, Str.contains Str.slash b = false →
         OsPath.join part b = part +:+ "/" +:+ b
         ∧ OsPath.split (OsPath.join part b) = (part, b).
Proof.
  intros (x & m & Hm & ->). pose proof Hm as (Hm1 & Hm2 & _).
  change (x +:+ "/" +:+ m) with (x +:+ String Str.slash m).
  assert (x +:+ String Str.slash m ≠ "") as Hne by (by destruct x).
  pose proof (ends_with_slash_name x m Hm1 Hm2) as He.
  split; [done|]. split; [done|]. split; [by rewrite basename_app|].
  intros b Hb.
  change ((x +:+ String Str.slash m) +:+ "/" +:+ b)
    with ((x +:+ String Str.slash m) +:+ String Str.slash b).
  assert (OsPath.join (x +:+ String Str.slash m) b
          = (x +:+ String Str.slash m) +:+ String Str.slash b) as Hj.
  { unfold OsPath.join. rewrite (no_slash_start b Hb), He.
    by destruct (decide _). }
  split; [done|]. rewrite Hj.
  unfold OsPath.split. rewrite cut_app by done.
  set (a := x +:+ String Str.slash m) in *.
  destruct (Str.all_slashes (a +:+ "/")) eqn:E.
  - rewrite all_slashes_app in E. apply andb_true_iff in E as [E _].
    pose proof (all_slashes_ends a Hne E). congruence.
  - by rewrite rstrip_trailing.
Qed.

Lemma matching_names (pat : string) (t : tree) (p : path) (n : string) :
  Fs.wf t → n ∈ matching pat (dir_names t p) →
  valid_name n ∧ Fnmatch.fnmatch pat n = true ∧ is_Some (Fs.node_at t (p ++ [n])).
Proof.
  intros Hwf Hn. unfold matching in Hn.
  apply list_elem_of_filter in Hn as [Hm Hn].
  apply list_elem_of_filter in Hn as [_ Hn].
  unfold dir_names in Hn.
  destruct (Fs.node_at t p) as [[c|]|]; try by apply elem_of_nil in Hn.
  apply children_elem in Hn.
  assert (is_Some (Fs.node_at t (p ++ [n]))) as Hs.
  { rewrite node_at_lookup by (by destruct p).
    destruct (Fs.lookup t (p ++ [n])) eqn:E; [done|].
    by apply lookup_None_keys in E. }
  split; [|done].
  pose proof (wf_node_valid t _ Hwf Hs) as Hv.
  rewrite Forall_app, Forall_singleton in Hv. by destruct Hv.
Qed.

(** [glob] in a good part: the part, a slash, a matching name. *)
Lemma glob_good_part (part pat : string) (w : world) :
  good_part part → name_pattern pat → Fs.wf (files w) →
  glob (OsPath.join part pat) w
  = if Fnmatch.has_magic part then (Raise GlobOutsideModel, w)
    else (Ok (map (λ n, part +:+ "/" +:+ n)
                  (matching pat (dir_names (files w) (Fs.resolve cwd part)))), w).
Proof.
  intros Hp Hpat Hwf. destruct (good_part_facts part Hp) as (Hne & He & Hb & Hj).
  destruct (glob_join part pat w Hpat) as (d & Hsp & _ & _ & ->).
  destruct (Fnmatch.has_magic part); [done|].
  destruct Hpat as (Hs & _). destruct (Hj pat Hs) as [_ Hsp'].
  rewrite Hsp' in Hsp. injection Hsp as <-.
  do 2 f_equal. apply map_ext_in. intros n Hn%list_elem_of_In.
  apply (matching_names _ _ _ _ Hwf) in Hn as [Hv _].
  apply Hj. by apply valid_no_slash.
Qed.

Lemma Copier_init_good_parts (drive : string) (w w' : world) (self : Copier) :
  Fs.wf (files w) → Copier_init drive w = (Ok self, w') →
  Forall good_part (exercise_parts self).
Proof.
  intros Hwf Hi.
  destruct (Copier_init_parts drive w w' self Hi) as (_ & _ & _ & _ & d & Hd & _ & ->).
  apply Forall_forall. intros part (n & -> & Hn)%list_elem_of_fmap.
  apply (matching_names _ _ _ _ Hwf) in Hn as (Hv & _ & _).
  destruct (join_shape d n (valid_no_slash n Hv)) as [[? _]|[(a0 & _ & ->)|(_ & _ & ->)]];
    [done|..].
  - by exists a0, n.
  - by exists d, n.
Qed.

Lemma part_location (part n : string) :
  good_part part → valid_name n →
  Str.index_from_end 2 (Str.split Str.slash (part +:+ "/" +:+ n))
    = Some (OsPath.basename part)
  ∧ OsPath.basename (part +:+ "/" +:+ n) = n
  ∧ part +:+ "/" +:+ n ≠ "".
Proof.
  intros (x & m & Hm & ->) Hn.
  pose proof (valid_no_slash m Hm) as Hm'. pose proof (valid_no_slash n Hn) as Hn'.
  rewrite sapp_assoc, (sapp_assoc "/" m).
  destruct (location_parts x m n Hm' Hn') as [H1 H2].
  rewrite H1, H2. split; [|split; [done|]].
  - f_equal. change (x +:+ "/" +:+ m) with (x +:+ String Str.slash m).
    by rewrite basename_app.
  - by destruct x.
Qed.

Lemma JPGFile_init_part (part n : string) (w : world) :
  good_part part → valid_name n →
  JPGFile_init (part +:+ "/" +:+ n) w
  = if exists_in (files w) (part +:+ "/" +:+ n)
    then (Ok {| location := part +:+ "/" +:+ n;
                name := Str.lower (OsPath.basename part) +:+ ".jpg" |}, w)
    else (Raise FileNotFoundError, w).
Proof.
  intros Hp Hn. destruct (part_location part n Hp Hn) as (H2 & Hb & _).
  unfold JPGFile_init, File_init, bind, path_exists. simpl.
  destruct (exists_in _ _); [|done]. simpl.
  unfold parent_dir_name. by rewrite H2.
Qed.

Lemma CSVFile_init_part (part n : string) (rename : bool) (w : world) :
  good_part part → valid_name n →
  CSVFile_init (part +:+ "/" +:+ n) rename w
  = if exists_in (files w) (part +:+ "/" +:+ n)
    then (Ok {| location := part +:+ "/" +:+ n;
                name := if rename
                        then Str.lower (OsPath.basename part +:+ "."
                                        +:+ Str.last_chars 7 n)
                        else n |}, w)
    else (Raise FileNotFoundError, w).
Proof.
  intros Hp Hn. destruct (part_location part n Hp Hn) as (H2 & Hb & _).
  unfold CSVFile_init, File_init, bind, path_exists. simpl.
  destruct (exists_in _ _); [|done]. simpl.
  destruct rename; [|by rewrite Hb].
  unfold parent_dir_name. simpl. by rewrite H2, Hb.
Qed.

Lemma File_save_spec (f : FileObj) (tsp : string) (verbose softrun : bool) (w : world) :
  File_save f (PStr tsp) verbose softrun w
  = if exists_in (files w) tsp
    then (if softrun then (Ok tt, w)
          else shutil_copy (location f) (OsPath.join tsp (name f)) w)
    else (Raise FileNotFoundError, w).
Proof.
  unfold File_save, bind, path_exists, path_join, as_str, ret, when.
  destruct (exists_in (files w) tsp); [|done]. simpl.
  by destruct (verbose || softrun), softrun.
Qed.

(** ** The run changes the tree only below the destination *)

Lemma evolves_mono (rm : bool) (d : path) (P Q : string * string → Prop)
    (w w' : world) :
  (∀ e, P e → Q e) → evolves rm d P w w' → evolves rm d Q w w'.
Proof.
  intros HPQ H Hwf Hd. destruct (H Hwf Hd) as (Hs & l & Hl & HP).
  split; [done|]. exists l. split; [done|]. by eapply Forall_impl.
Qed.

Lemma preserves_mono {A} (R R' : world → world → Prop) (m : M A) :
  (∀ w w', R w w' → R' w w') → preserves R m → preserves R' m.
Proof. intros H Hm w. apply H, Hm. Qed.

Lemma target_dir_below (t : tree) (d : path) (tsp x : string) :
  Fs.wf t → is_Some (Fs.node_at t d) → target_dir cwd d tsp → valid_name x →
  below d (Fs.resolve cwd tsp ++ [x]) ∧ Forall valid_name (Fs.resolve cwd tsp ++ [x]).
Proof.
  intros Hwf Hd [_ [-> | (y & Hy & ->)]] Hx.
  - split; [apply below_snoc|]. apply Forall_app. split.
    + by eapply wf_node_valid.
    + by apply Forall_singleton.
  - split; [apply below_trans_snoc, below_snoc|].
    rewrite !Forall_app, !Forall_singleton. split; [split|]; try done.
    by eapply wf_node_valid.
Qed.

Lemma File_save_evolves (rm : bool) (d : path) (P : string * string → Prop)
    (f : FileObj) (tsp : string) (verbose softrun : bool) :
  target_dir cwd d tsp → good_file f →
  P (location f, OsPath.join tsp (name f)) →
  preserves (evolves rm d P) (File_save f (PStr tsp) verbose softrun).
Proof.
  intros Ht (Hl & Hn & Hb) HP w. rewrite File_save_spec.
  destruct (exists_in (files w) tsp); [|reflexivity].
  destruct softrun; [reflexivity|].
  rewrite shutil_copy_tree; try done.
  2:{ apply join_nonempty. by destruct Hn. }
  destruct (copy_tree _ _ _ _) as [e|t'] eqn:E; [reflexivity|].
  intros Hwf Hd. simpl. split.
  - apply rtc_once. rewrite resolve_join in E by done.
    destruct (target_dir_below _ _ _ _ Hwf Hd Ht Hn) as [H1 H2].
    by eapply copy_tree_step.
  - exists [(location f, OsPath.join tsp (name f))]. split; [done|].
    by apply Forall_singleton.
Qed.

Lemma target_dir_dest (d : path) (dest : string) :
  dest ≠ "" → Fs.resolve cwd dest = d → target_dir cwd d dest.
Proof. intros ? ?. split; [done | by left]. Qed.

Lemma target_dir_join (dest x : string) :
  valid_name x → target_dir cwd (Fs.resolve cwd dest) (OsPath.join dest x).
Proof.
  intros Hx. split; [apply join_nonempty; by destruct Hx|].
  right. exists x. split; [done | by apply resolve_join].
Qed.

Lemma ensure_evolves (rm : bool) (P : string * string → Prop)
    (dest x : string) (w : world) :
  valid_name x →
  evolves rm (Fs.resolve cwd dest) P w
    ((when (negb (exists_in (files w) (OsPath.join dest x)))
           (makedirs (PStr (OsPath.join dest x)))) w).2.
Proof.
  intros Hx. destruct (exists_in _ _) eqn:E; [reflexivity|]. simpl.
  intros Hwf Hd.
  rewrite (makedirs_single _ (Fs.resolve cwd dest) x); try done.
  - apply mkdir_path_evolves; try done; [apply below_snoc|].
    apply Forall_app. split; [by eapply wf_node_valid | by apply Forall_singleton].
  - apply join_nonempty. by destruct Hx.
  - by apply resolve_join.
Qed.

Lemma good_file_jpg (part n : string) :
  good_part part → valid_name n →
  good_file {| location := part +:+ "/" +:+ n;
               name := Str.lower (OsPath.basename part) +:+ ".jpg" |}.
Proof.
  intros Hp Hn. destruct (part_location part n Hp Hn) as (_ & Hb & Hne).
  repeat split; simpl; try done; try (rewrite Hb; apply Hn).
  all: apply jpg_name_valid, basename_no_slash.
Qed.

Lemma good_file_csv (part n : string) (rename : bool) :
  good_part part → valid_name n →
  good_file {| location := part +:+ "/" +:+ n;
               name := if rename
                       then Str.lower (OsPath.basename part +:+ "."
                                       +:+ Str.last_chars 7 n)
                       else n |}.
Proof.
  intros Hp Hn. destruct (part_location part n Hp Hn) as (_ & Hb & Hne).
  split; [done|]. simpl. rewrite Hb. split; [|done].
  destruct rename; [|done]. apply csv_name_valid; [apply basename_no_slash | done].
Qed.

Lemma exists_in_part (t : tree) (part pat n : string) :
  Fs.wf t → good_part part → n ∈ matching pat (dir_names t (Fs.resolve cwd part)) →
  exists_in t (part +:+ "/" +:+ n) = true.
Proof.
  intros Hwf Hp Hn. apply (matching_names _ _ _ _ Hwf) in Hn as (Hv & _ & Hs).
  destruct (good_part_facts part Hp) as (_ & _ & _ & Hj).
  destruct (Hj n (valid_no_slash n Hv)) as [<- _].
  apply exists_in_spec. split; [apply join_nonempty; by destruct Hv|].
  by rewrite resolve_join.
Qed.

(** The JPG loop body in a good part. *)
Lemma save_jpg_of_spec (tsp : string) (verbose softrun : bool) (part : string)
    (w : world) :
  good_part part → Fs.wf (files w) →
  save_jpg_of tsp verbose softrun part w
  = if Fnmatch.has_magic part then (Raise GlobOutsideModel, w)
    else match matching "*.JPG" (dir_names (files w) (Fs.resolve cwd part)) with
         | [] => (Raise IndexError, w)
         | n :: _ =>
             File_save {| location := part +:+ "/" +:+ n;
                          name := Str.lower (OsPath.basename part) +:+ ".jpg" |}
                       (PStr tsp) verbose softrun w
         end.
Proof.
  intros Hp Hwf. unfold save_jpg_of, bind.
  rewrite (glob_good_part part "*.JPG" w Hp pattern_jpg Hwf).
  destruct (Fnmatch.has_magic part); [done|].
  destruct (matching _ _) as [|n l] eqn:E; [done|]. simpl.
  assert (n ∈ matching "*.JPG" (dir_names (files w) (Fs.resolve cwd part))) as Hn.
  { rewrite E. by left. }
  pose proof (exists_in_part _ _ _ _ Hwf Hp Hn) as Hex.
  apply (matching_names _ _ _ _ Hwf) in Hn as (Hv & _ & _).
  by rewrite (JPGFile_init_part part n w Hp Hv), Hex.
Qed.

Lemma matching_visible (pat : string) (names : list string) (n : string) :
  n ∈ matching pat names → Fnmatch.is_hidden n = false.
Proof.
  unfold matching. intros [_ Hn]%list_elem_of_filter.
  by apply list_elem_of_filter in Hn as [Hh _].
Qed.

(** One pass of the JPG loop in a part whose name has no wildcard: [P]
    holds of the copy it logs when it holds of the copy of every visible
    [*.JPG] of the part. *)
Lemma save_jpg_of_evolves (rm : bool) (d : path) (P : string * string → Prop)
    (tsp : string) (verbose softrun : bool) (part : string) :
  good_part part → Fnmatch.has_magic part = false → target_dir cwd d tsp →
  (∀ n, valid_name n → Fnmatch.is_hidden n = false →
        Fnmatch.fnmatch "*.JPG" n = true → P (jpg_copy tsp part n)) →
  preserves (evolves rm d P) (save_jpg_of tsp verbose softrun part).
Proof.
  intros Hp Hnm Ht HP w Hwf Hd. revert Hwf Hd.
  change (evolves rm d P w (save_jpg_of tsp verbose softrun part w).2).
  destruct (decide (Fs.wf (files w))) as [Hwf|]; [|by intros ?].
  rewrite save_jpg_of_spec, Hnm by done.
  destruct (matching _ _) as [|n l] eqn:E; [reflexivity|].
  assert (n ∈ matching "*.JPG" (dir_names (files w) (Fs.resolve cwd part))) as Hn.
  { rewrite E. by left. }
  pose proof (matching_visible _ _ _ Hn) as Hh.
  apply (matching_names _ _ _ _ Hwf) in Hn as (Hv & Hm & _).
  apply File_save_evolves; [done | by apply good_file_jpg |].
  by apply HP.
Qed.

(** The pass changes the tree only below [d], whatever the part is
    called. *)
Lemma save_jpg_of_frame (rm : bool) (d : path) (tsp : string)
    (verbose softrun : bool) (part : string) :
  good_part part → target_dir cwd d tsp →
  preserves (evolves rm d (λ _, True)) (save_jpg_of tsp verbose softrun part).
Proof.
  intros Hp Ht. destruct (Fnmatch.has_magic part) eqn:Hm;
    [|by apply save_jpg_of_evolves].
  intros w Hwf Hd. revert Hwf Hd.
  change (evolves rm d (λ _, True) w (save_jpg_of tsp verbose softrun part w).2).
  destruct (decide (Fs.wf (files w))) as [Hwf|]; [|by intros ?].
  rewrite save_jpg_of_spec, Hm by done. reflexivity.
Qed.

(** The inner CSV loop in a part whose name has no wildcard: what [glob]
    found, one file after the other. *)
Lemma csv_loop_evolves (rm : bool) (d : path) (P : string * string → Prop)
    (tsp : string) (rn verbose softrun : bool) (part : string) :
  good_part part → Fnmatch.has_magic part = false → target_dir cwd d tsp →
  (∀ n, valid_name n → Fnmatch.is_hidden n = false →
        Fnmatch.fnmatch "*.CSV" n = true → P (csv_copy tsp rn part n)) →
  preserves (evolves rm d P)
    (bind (glob (OsPath.join part "*.CSV"))
          (λ csvs, for_each csvs (λ csv_file,
             let* f := CSVFile_init csv_file rn in
             File_save f (PStr tsp) verbose softrun))).
Proof.
  intros Hp Hnm Ht HP w.
  destruct (decide (Fs.wf (files w))) as [Hwf|]; [|by intros ?].
  unfold bind at 1. rewrite (glob_good_part part "*.CSV" w Hp pattern_csv Hwf), Hnm.
  apply preserves_for_each; [apply _|].
  intros csv (n & -> & Hn)%list_elem_of_fmap.
  pose proof (matching_visible _ _ _ Hn) as Hh.
  apply (matching_names _ _ _ _ Hwf) in Hn as (Hv & Hm & _).
  intros w1. unfold bind. rewrite (CSVFile_init_part part n rn w1 Hp Hv).
  destruct (exists_in (files w1) _); [|reflexivity].
  apply File_save_evolves; [done | by apply good_file_csv |].
  by apply HP.
Qed.

Lemma csv_loop_frame (rm : bool) (d : path) (tsp : string)
    (rn verbose softrun : bool) (part : string) :
  good_part part → target_dir cwd d tsp →
  preserves (evolves rm d (λ _, True))
    (bind (glob (OsPath.join part "*.CSV"))
          (λ csvs, for_each csvs (λ csv_file,
             let* f := CSVFile_init csv_file rn in
             File_save f (PStr tsp) verbose softrun))).
Proof.
  intros Hp Ht. destruct (Fnmatch.has_magic part) eqn:Hm;
    [|by apply csv_loop_evolves].
  intros w. destruct (decide (Fs.wf (files w))) as [Hwf|]; [|by intros ?].
  unfold bind at 1. rewrite (glob_good_part part "*.CSV" w Hp pattern_csv Hwf), Hm.
  reflexivity.
Qed.

(** The loops around the passes: what holds of every pass holds of the
    run. *)
Lemma save_jpgs_evolves (P : string * string → Prop) (self : Copier)
    (dest : string) (verbose softrun : bool) :
  (∀ part, part ∈ exercise_parts self →
     preserves (evolves softrun (Fs.resolve cwd dest) P)
               (save_jpg_of (OsPath.join dest "jpgs") verbose softrun part)) →
  preserves (evolves softrun (Fs.resolve cwd dest) P)
            (save_jpgs self (PStr dest) verbose softrun).
Proof.
  intros Hpass w. rewrite save_jpgs_unfold.
  apply bind_world; [apply _ | by apply ensure_evolves |]. intros _.
  apply bind_world; [apply _ | |].
  - by apply preserves_for_each; [apply _|].
  - intros _. destruct softrun; [|reflexivity].
    apply rmdir_evolves. rewrite resolve_join by done. apply below_snoc.
Qed.

Lemma save_csvs_of_evolves (P : string * string → Prop) (dest : string)
    (cf rn verbose softrun : bool) (part : string) :
  good_part part →
  preserves (evolves softrun (Fs.resolve cwd dest) P)
    (bind (glob (OsPath.join part "*.CSV"))
          (λ csvs, for_each csvs (λ csv_file,
             let* f := CSVFile_init csv_file rn in
             File_save f (PStr (if cf then OsPath.join dest (OsPath.basename part)
                                else dest))
                       verbose softrun))) →
  preserves (evolves softrun (Fs.resolve cwd dest) P)
            (save_csvs_of (PStr dest) cf rn verbose softrun part).
Proof.
  intros Hp Hloop w. destruct (good_part_facts part Hp) as (_ & _ & Hb & _).
  destruct cf.
  - rewrite save_csvs_of_unfold.
    apply bind_world; [apply _ | by apply ensure_evolves |]. intros _.
    apply bind_world; [apply _ | apply Hloop |].
    intros _. destruct softrun; [|reflexivity].
    apply rmdir_evolves. rewrite resolve_join by done. apply below_snoc.
  - rewrite save_csvs_of_flat. apply Hloop.
Qed.

Lemma copy_scope_data_evolves (P : string * string → Prop) (self : Copier)
    (dest : string) (cf rn sj verbose softrun : bool) :
  Forall good_part (exercise_parts self) →
  (dest ≠ "" → ∀ part, part ∈ exercise_parts self →
     preserves (evolves softrun (Fs.resolve cwd dest) P)
               (save_jpg_of (OsPath.join dest "jpgs") verbose softrun part)) →
  (dest ≠ "" → ∀ part, part ∈ exercise_parts self →
     preserves (evolves softrun (Fs.resolve cwd dest) P)
       (bind (glob (OsPath.join part "*.CSV"))
             (λ csvs, for_each csvs (λ csv_file,
                let* f := CSVFile_init csv_file rn in
                File_save f (PStr (if cf then OsPath.join dest (OsPath.basename part)
                                   else dest))
                          verbose softrun)))) →
  preserves (evolves softrun (Fs.resolve cwd dest) P)
            (copy_scope_data self (PStr dest) cf rn sj verbose softrun).
Proof.
  intros Hgood Hjpg Hcsv w. rewrite Forall_forall in Hgood.
  rewrite copy_scope_data_unfold.
  destruct (exists_in (files w) dest) eqn:Hex; [|reflexivity].
  apply exists_in_spec in Hex as [Hne _].
  apply bind_world; [apply _ | |].
  - destruct sj; [|reflexivity]. apply save_jpgs_evolves. by apply Hjpg.
  - intros _. unfold save_csvs.
    apply (preserves_for_each (evolves softrun (Fs.resolve cwd dest) P)).
    intros part Hin. apply save_csvs_of_evolves; [by apply Hgood | by apply Hcsv].
Qed.

Lemma target_dir_csv (dest : string) (cf : bool) (part : string) :
  dest ≠ "" → good_part part →
  target_dir cwd (Fs.resolve cwd dest)
             (if cf then OsPath.join dest (OsPath.basename part) else dest).
Proof.
  intros Hne Hp. destruct (good_part_facts part Hp) as (_ & _ & Hb & _).
  destruct cf; [by apply target_dir_join | by apply target_dir_dest].
Qed.

(** Every change [copy_scope_data] makes is below the destination. *)
Lemma copy_scope_data_frame (self : Copier) (dest : string)
    (cf rn sj verbose softrun : bool) :
  Forall good_part (exercise_parts self) →
  preserves (evolves softrun (Fs.resolve cwd dest) (λ _, True))
            (copy_scope_data self (PStr dest) cf rn sj verbose softrun).
Proof.
  intros Hgood. pose proof Hgood as Hg. rewrite Forall_forall in Hg.
  apply copy_scope_data_evolves; [done | |]; intros Hne part Hin.
  - apply save_jpg_of_frame; [by apply Hg | by apply target_dir_join].
  - apply csv_loop_frame; [by apply Hg | apply target_dir_csv; [done | by apply Hg]].
Qed.

(** In folders whose names have no wildcard, every copy it logs is the
    one the options ask for. *)
Lemma copy_scope_data_layout (self : Copier) (dest : string)
    (cf rn sj verbose softrun : bool) :
  Forall good_part (exercise_parts self) →
  (∀ part, part ∈ exercise_parts self → Fnmatch.has_magic part = false) →
  preserves (evolves softrun (Fs.resolve cwd dest)
                     (saved_as dest cf rn (exercise_parts self)))
            (copy_scope_data self (PStr dest) cf rn sj verbose softrun).
Proof.
  intros Hgood Hnm. pose proof Hgood as Hg. rewrite Forall_forall in Hg.
  apply copy_scope_data_evolves; [done | |]; intros Hne part Hin.
  - apply save_jpg_of_evolves;
      [by apply Hg | by apply Hnm | by apply target_dir_join |].
    intros n Hv Hh Hm. exists part, n. split; [done|]. split; [done|].
    split; [done|]. split; [done|]. by left.
  - apply csv_loop_evolves;
      [by apply Hg | by apply Hnm | apply target_dir_csv; [done | by apply Hg] |].
    intros n Hv Hh Hm. exists part, n. split; [done|]. split; [done|].
    split; [done|]. split; [done|]. by right.
Qed.

(** ** Which folders are selected *)



Lemma not_below_child (d P : path) (n : string) :
  ¬ d `prefix_of` P → ¬ below d (P ++ [n]).
Proof.
  intros H [[k Hk] Hne]. destruct (decide (k = [])) as [->|Hk'].
  - rewrite app_nil_r in Hk. done.
  - destruct (exists_last Hk') as (k' & z & ->).
    rewrite app_assoc in Hk. apply app_inj_tail in Hk as [-> _].
    apply H. by apply prefix_app_r.
Qed.

Lemma resolve_part_file (part n : string) :
  good_part part → valid_name n →
  Fs.resolve cwd (part +:+ "/" +:+ n) = Fs.resolve cwd part ++ [n].
Proof.
  intros Hp Hn. destruct (good_part_facts part Hp) as (_ & _ & _ & Hj).
  destruct (Hj n (valid_no_slash n Hn)) as [<- _]. by apply resolve_join.
Qed.


(** ** The drive *)

Lemma inside_outside (v d : path) (t : tree) :
  ¬ d `prefix_of` v → ¬ v `prefix_of` d → inside v (outside d t) = inside v t.
Proof.
  intros H1 H2. unfold inside, outside. induction t as [|[k n] t IH]; [done|].
  rewrite !filter_cons. simpl.
  destruct (decide (¬ below d k)) as [Hb|Hb].
  - by rewrite filter_cons, IH.
  - rewrite IH. destruct (decide (v `prefix_of` k)) as [Hv|]; [|done].
    exfalso. apply Hb. intros [Hd _].
    destruct (prefix_weak_total _ _ _ Hv Hd); done.
Qed.

(** C8, as the code has it: when the destination is neither on the
    drive nor above it, the entries of the drive (paths, kinds,
    contents and their order) are the same before and after
    [copy_scope_data], whatever the flags and the outcome. *)
Theorem drive_unchanged (drive dest : string) (w : world) (self : Copier)
    (cf rn sj verbose softrun : bool) :
  Fs.wf (files w) → Copier_init drive w = (Ok self, w) →
  ¬ Fs.resolve cwd dest `prefix_of` Fs.resolve cwd (drive_location self) →
  ¬ Fs.resolve cwd (drive_location self) `prefix_of` Fs.resolve cwd dest →
  inside (Fs.resolve cwd (drive_location self))
         (files (copy_scope_data self (PStr dest) cf rn sj verbose softrun w).2)
  = inside (Fs.resolve cwd (drive_location self)) (files w).
Proof.
  intros Hwf Hi H1 H2. pose proof (Copier_init_good_parts _ _ _ _ Hwf Hi) as Hgood.
  pose proof (copy_scope_data_frame self dest cf rn sj verbose softrun Hgood w) as He.
  rewrite copy_scope_data_unfold in *.
  destruct (exists_in (files w) dest) eqn:Hex; [|done].
  apply exists_in_spec in Hex as [_ Hd].
  destruct (He Hwf Hd) as (Hs & _).
  apply steps_outside in Hs.
  rewrite <- (inside_outside _ (Fs.resolve cwd dest) _ H1 H2), Hs.
  by apply inside_outside.
Qed.

(** ** One picture per exercise part *)

Lemma sapp_suffix_inj (x y s1 s2 : string) :
  x +:+ s1 = y +:+ s2 → String.length s1 = String.length s2 → s1 = s2.
Proof.
  revert y. induction x as [|c x IH]; intros y H Hl.
  - destruct y as [|c' y]; [done|]. rewrite app_nil in H. subst s1.
    rewrite length_sapp in Hl. simpl in Hl. lia.
  - destruct y as [|c' y].
    + rewrite app_nil in H. subst s2. rewrite length_sapp in Hl. simpl in Hl. lia.
    + rewrite !app_cons in H. injection H as _ H. by eapply IH.
Qed.


Lemma snoc_nonempty {A} (l : list A) (x : A) : l ++ [x] ≠ [].
Proof. by destruct l. Qed.

Lemma if_nonempty {A} (b : bool) (l k : list A) :
  l ≠ [] → k ≠ [] → (if b then l else k) ≠ [].
Proof. by destruct b. Qed.

Lemma lookup_put_eq (t : tree) (p : path) (n : node) :
  Fs.lookup (Fs.put p n t) p = Some n.
Proof.
  unfold Fs.put. destruct (Fs.lookup t p) as [m|] eqn:E.
  - by rewrite lookup_replace, decide_True, E.
  - rewrite lookup_app, E. simpl. by rewrite decide_True.
Qed.

Lemma lookup_put_ne (t : tree) (p q : path) (n : node) :
  q ≠ p → Fs.lookup (Fs.put p n t) q = Fs.lookup t q.
Proof.
  intros Hne. unfold Fs.put. destruct (Fs.lookup t p) as [m|] eqn:E.
  - by rewrite lookup_replace, decide_False.
  - rewrite lookup_app. destruct (Fs.lookup t q); [done|]. simpl.
    by rewrite decide_False.
Qed.

Lemma node_at_put_ne (t : tree) (p q : path) (n : node) :
  q ≠ p → Fs.node_at (Fs.put p n t) q = Fs.node_at t q.
Proof. intros Hne. destruct q; [done|]. by apply lookup_put_ne. Qed.

Lemma write_at_lookup (t t' : tree) (p : path) (c : string) :
  p ≠ [] → write_at t p c = inr t' →
  ∀ q, Fs.lookup t' q = if decide (q = p) then Some (File c) else Fs.lookup t q.
Proof.
  intros Hp. unfold write_at. rewrite (node_at_lookup t p Hp).
  destruct (Fs.lookup t p) as [[c0|]|] eqn:E; [|done|].
  - intros [= <-] q. rewrite lookup_replace. by rewrite E.
  - destruct (Fs.node_at t (Fs.parent p)) as [[c0|]|]; try done.
    intros [= <-] q. rewrite lookup_app.
    destruct (decide (q = p)) as [->|Hq].
    + rewrite E. simpl. by destruct (decide (p = p)).
    + destruct (Fs.lookup t q); [done|]. simpl. by destruct (decide (p = q)).
Qed.

Lemma same_files_lookup (w w' : world) (q : path) (c0 : string) :
  NoDup ((files w).*1) → same_files w w' →
  Fs.lookup (files w') q = Some (File c0) → Fs.lookup (files w) q = Some (File c0).
Proof.
  intros Hnd [_ Hf] Hl. apply lookup_elem_NoDup; [done|].
  apply lookup_Some_elem in Hl.
  assert ((q, File c0) ∈ file_entries (files w')) as Hin.
  { unfold file_entries. by apply list_elem_of_filter. }
  rewrite Hf in Hin. unfold file_entries in Hin.
  by apply list_elem_of_filter in Hin as [_ ?].
Qed.




(** What holds of every world the run passes through, relative to the
    world [w0] it started from. *)
Lemma evolves_keeps (rm : bool) (d : path) (P : string * string → Prop)
    (t0 : tree) (w1 w2 : world) :
  evolves rm d P w1 w2 →
  Fs.wf (files w1) ∧ is_Some (Fs.node_at (files w1) d)
    ∧ outside d (files w1) = outside d t0 →
  Fs.wf (files w2) ∧ is_Some (Fs.node_at (files w2) d)
    ∧ outside d (files w2) = outside d t0.
Proof.
  intros He (Hwf & Hd & Ho). destruct (He Hwf Hd) as (Hs & _).
  split; [by eapply steps_wf|]. split.
  - rewrite (steps_node_at _ _ _ _ d Hs); [done | apply not_below_self].
  - by rewrite (steps_outside _ _ _ _ Hs).
Qed.


(** ** The saved picture stays where it is *)

Global Instance stays_preorder (K : world → Prop) : PreOrder (stays K).
Proof.
  split; [intros w H; exact H | intros w1 w2 w3 H1 H2 H; exact (H2 (H1 H))].
Qed.











(** ** Running the copy a second time *)









(** Without removals an entry keeps its kind. *)
Lemma step_kind (d : path) (t t' : tree) (q : path) (k : bool) :
  step false d t t' →
  is_dir <$> Fs.lookup t q = Some k → is_dir <$> Fs.lookup t' q = Some k.
Proof.
  intros [t0 p n Hb Hv Hnone Hpar | t0 p c c' Hb Hl | t0 p Hrm _ _ _]; [| |done].
  - rewrite lookup_app. by destruct (Fs.lookup t0 q).
  - rewrite lookup_replace. destruct (decide (q = p)) as [->|]; [|done].
    by rewrite Hl.
Qed.

Lemma steps_kind (d : path) (t t' : tree) (q : path) (k : bool) :
  rtc (step false d) t t' →
  is_dir <$> Fs.lookup t q = Some k → is_dir <$> Fs.lookup t' q = Some k.
Proof.
  intros Hs. induction Hs as [|t1 t2 t3 H1 _ IH]; [done|].
  intros H. by apply IH, (step_kind d t1 t2).
Qed.





(** *** Sequencing *)


Lemma steady_raise (d : path) (F : tree) {A} (e : exn) : steady d F (raise (A:=A) e).
Proof.
  split; [apply preserves_raise; apply _|].
  intros s t r s' _ _ Hag [= <- <-] _ _. by exists t.
Qed.




(** *** Copying one file again *)










Lemma ensure_dir_unfold (p0 : string) (w : world) :
  ensure_dir p0 w
  = when (negb (exists_in (files w) p0)) (makedirs (PStr p0)) w.
Proof. reflexivity. Qed.


(** *** The loops again *)










(** * Further properties of the code *)

(** ** The argument checks accept every other command line *)

Lemma check_args_valid (a : Args) (w : world) :
  (generate_notebooks a = true →
     falsy (student_names a) = false ∧ falsy (student_ids a) = false
     ∧ len (student_names a) = len (student_ids a)) →
  ¬ (prelab_only a = true ∧ c a = true) →
  check_args a w = (Ok tt, w).
Proof.
  intros Hg Hpc. unfold check_args, bind, when.
  destruct (generate_notebooks a).
  - destruct (Hg eq_refl) as (-> & -> & ->). simpl.
    rewrite Nat.eqb_refl. simpl.
    destruct (prelab_only a), (c a); try done. by destruct Hpc.
  - simpl. destruct (prelab_only a), (c a); try done. by destruct Hpc.
Qed.

(** X1: The three [parser.error] calls are the only way the checks end the
    script: when notebooks are not asked for, or both lists are given,
    not empty and of the same length, and [-p] and [-c] are not given
    together, the checks pass, leave the world alone, and the script
    goes on to copy ([-c]) or to set up the lab directory. *)
Theorem valid_flags_pass (a : Args) (w : world) :
  (generate_notebooks a = true →
     falsy (student_names a) = false ∧ falsy (student_ids a) = false
     ∧ len (student_names a) = len (student_ids a)) →
  ¬ (prelab_only a = true ∧ c a = true) →
  check_args a w = (Ok tt, w)
  ∧ main a w
    = if c a
      then (let* copier := Copier_init (drive_name a) in
            copy_scope_data copier (PBool true) false true true (verbose a) false) w
      else scaffold a w.
Proof.
  intros Hg Hpc. pose proof (check_args_valid a w Hg Hpc) as H.
  split; [done|]. unfold main, bind at 1. rewrite H. by destruct (c a).
Qed.

(** ** A file named without a directory *)

(** X2: [split("/")[-2]] needs a slash in the location: for an existing file
    given by a bare name, [JPGFile] and a renaming [CSVFile] raise
    IndexError, while [CSVFile] with [rename=False] is made, under the
    name itself. *)
Theorem bare_name_index_error (loc : string) (w : world) :
  Str.contains Str.slash loc = false → exists_in (files w) loc = true →
  JPGFile_init loc w = (Raise IndexError, w)
  ∧ CSVFile_init loc true w = (Raise IndexError, w)
  ∧ CSVFile_init loc false w = (Ok {| location := loc; name := loc |}, w).
Proof.
  intros Hs Hex.
  unfold JPGFile_init, CSVFile_init, File_init, bind, path_exists, parent_dir_name.
  rewrite Hex. simpl. rewrite (split_no_sep _ loc Hs).
  unfold OsPath.basename. rewrite (cut_no_slash loc Hs). done.
Qed.

(** ** [verbose] only prints *)

Lemma bind_ext {A B} (m m' : M A) (k k' : A → M B) (w : world) :
  m w = m' w → (∀ a w1, k a w1 = k' a w1) → bind m k w = bind m' k' w.
Proof. intros Hm Hk. unfold bind. rewrite Hm. destruct (m' w) as [[x|e] w1]; [apply Hk | done]. Qed.

Lemma for_each_ext {A} (l : list A) (body body' : A → M unit) (w : world) :
  (∀ x w1, body x w1 = body' x w1) → for_each l body w = for_each l body' w.
Proof.
  intros H. revert w. induction l as [|x l IH]; intros w; [done|].
  simpl. apply bind_ext; [apply H | intros _ w1; apply IH].
Qed.

Lemma File_save_verbose (f : FileObj) (dest : pyval) (v1 v2 softrun : bool) (w : world) :
  File_save f dest v1 softrun w = File_save f dest v2 softrun w.
Proof.
  unfold File_save, bind, when, path_exists, path_join, as_str, ret, raise.
  destruct dest as [s0|b].
  - destruct (exists_in (files w) s0); simpl; [|done].
    by destruct v1, v2, softrun.
  - destruct (fd_open _); simpl; [|done].
    by destruct v1, v2, softrun.
Qed.

Lemma save_jpg_of_verbose (tsp : string) (v1 v2 softrun : bool) (part : string)
    (w : world) :
  save_jpg_of tsp v1 softrun part w = save_jpg_of tsp v2 softrun part w.
Proof.
  unfold save_jpg_of. apply bind_ext; [done|]. intros [|first rest] w1; [done|].
  apply bind_ext; [done|]. intros f w2. apply File_save_verbose.
Qed.

Lemma copy_scope_data_verbose (self : Copier) (dest : pyval)
    (cf rn sj v1 v2 softrun : bool) (w : world) :
  copy_scope_data self dest cf rn sj v1 softrun w
  = copy_scope_data self dest cf rn sj v2 softrun w.
Proof.
  unfold copy_scope_data. apply bind_ext; [done|]. intros found w1.
  destruct (negb found); [done|].
  apply bind_ext.
  - destruct sj; [|done]. unfold when, save_jpgs.
    apply bind_ext; [done|]. intros tsp w2.
    apply bind_ext; [done|]. intros fnd w3.
    apply bind_ext; [done|]. intros _ w4.
    apply bind_ext; [|done].
    apply for_each_ext. intros part w5. apply save_jpg_of_verbose.
  - intros _ w2. unfold save_csvs. apply for_each_ext. intros part w3.
    unfold save_csvs_of. apply bind_ext; [done|]. intros tsp w4.
    apply bind_ext; [done|]. intros _ w5.
    apply bind_ext; [done|]. intros csvs w6.
    apply bind_ext; [|done].
    apply for_each_ext. intros csv w7.
    apply bind_ext; [done|]. intros f w8. apply File_save_verbose.
Qed.

(** X3: [verbose] decides what is printed and nothing else: with any
    destination value, [copy_scope_data] ends with the same outcome in
    the same world whether it is set or not, and so does the whole
    script with and without [-v]. *)
Theorem verbose_only_prints (self : Copier) (dest : pyval)
    (cf rn sj softrun : bool) (a : Args) (v : bool) (w : world) :
  copy_scope_data self dest cf rn sj true softrun w
  = copy_scope_data self dest cf rn sj false softrun w
  ∧ main (with_verbose v a) w = main a w.
Proof.
  split; [apply copy_scope_data_verbose|].
  unfold main. apply bind_ext; [done|]. intros _ w1. simpl.
  destruct (c a).
  - apply bind_ext; [done|]. intros copier w2. apply copy_scope_data_verbose.
  - unfold scaffold. simpl.
    apply bind_ext; [done|]. intros _ w2.
    apply bind_ext; [done|]. intros _ w3.
    apply bind_ext; [done|]. intros _ w4.
    apply bind_ext; [|done].
    destruct (negb (prelab_only a)); [|done]. unfold when.
    apply bind_ext; [done|]. intros copier w5. apply copy_scope_data_verbose.
Qed.

(** ** The line of student names *)

Lemma concat_cons_sep (sep h : string) (t : list string) :
  t ≠ [] → String.concat sep (h :: t) = h +:+ sep +:+ String.concat sep t.
Proof. by destruct t. Qed.

Lemma concat_snoc_sep (sep : string) (l : list string) (x : string) :
  l ≠ [] → String.concat sep (l ++ [x]) = String.concat sep l +:+ sep +:+ x.
Proof.
  induction l as [|h t IH]; [done|]. intros _.
  destruct t as [|h' t']; [done|].
  change ((h :: h' :: t') ++ [x]) with (h :: ((h' :: t') ++ [x])).
  rewrite concat_cons_sep by done. rewrite IH by done.
  rewrite (concat_cons_sep sep h (h' :: t')) by done.
  by rewrite !sapp_assoc.
Qed.

Lemma name_suffix_early (total idx : Z) :
  (idx < total - 2)%Z → name_suffix total idx = ", ".
Proof.
  intros H. unfold name_suffix.
  destruct (Z.eqb_spec idx (total - 2)) as [|_]; [lia|].
  destruct (Z.eqb_spec idx (total - 1)) as [|_]; [lia|]. done.
Qed.

Lemma name_suffix_before_last (total : Z) : name_suffix total (total - 2) = ", and ".
Proof. unfold name_suffix. by rewrite Z.eqb_refl. Qed.

Lemma name_suffix_last (total : Z) : name_suffix total (total - 1) = "".
Proof.
  unfold name_suffix.
  destruct (Z.eqb_spec (total - 1) (total - 2)) as [|_]; [lia|].
  by rewrite Z.eqb_refl.
Qed.

(** The students before the last two: each followed by a comma. *)
Lemma name_loop_early (total : Z) (ps tail : list (string * string)) (idx : Z)
    (acc : string) :
  (idx + Z.of_nat (length ps) ≤ total - 2)%Z →
  name_loop total idx (ps ++ tail) acc
  = name_loop total (idx + Z.of_nat (length ps)) tail
              (foldl (λ r p, r +:+ student_entry p +:+ ", ") acc ps).
Proof.
  revert idx acc. induction ps as [|[n i] ps IH]; intros idx acc H.
  - simpl. by rewrite Z.add_0_r.
  - simpl in H |- *. rewrite name_suffix_early by lia.
    rewrite IH by lia. f_equal. lia.
Qed.

Lemma foldl_entries (ps : list (string * string)) (x : string) :
  foldl (λ r p, r +:+ student_entry p +:+ ", ") "" ps +:+ x
  = String.concat ", " (map student_entry ps ++ [x]).
Proof.
  assert (∀ l acc, foldl (λ r p, r +:+ student_entry p +:+ ", ") acc l +:+ x
                   = acc +:+ String.concat ", " (map student_entry l ++ [x])) as H.
  { induction l as [|p l IH]; intros acc; [done|].
    simpl foldl. rewrite IH. simpl map.
    change ((student_entry p :: map student_entry l) ++ [x])
      with (student_entry p :: (map student_entry l ++ [x])).
    rewrite concat_cons_sep by (by destruct l). by rewrite !sapp_assoc. }
  by rewrite H, app_nil.
Qed.

(** X4: [name_string] for student lists of the same length, as the checks
    leave them: one student stands alone; two or more are joined by
    [", "], with [", and "] before the last one (also when there are
    just two). *)
Theorem name_string_joined (ns ids : list string) (b y : string) :
  length ns = length ids →
  name_string (ns ++ [b]) (ids ++ [y])
  = match zip ns ids with
    | [] => student_entry (b, y)
    | ps => String.concat ", " (map student_entry ps)
            +:+ ", and " +:+ student_entry (b, y)
    end.
Proof.
  intros Hlen. unfold name_string.
  rewrite zip_with_app by done. simpl zip_with.
  rewrite length_app. simpl length.
  destruct (decide (ns = [])) as [->|Hne].
  - destruct ids; [|done]. simpl.
    change (name_suffix (Z.of_nat 1) 0) with "". by rewrite app_nil, app_empty_r.
  - destruct (exists_last Hne) as (ns' & a & ->).
    assert (ids ≠ []) as Hne' by (intros ->; rewrite length_app in Hlen; simpl in Hlen; lia).
    destruct (exists_last Hne') as (ids' & x & ->).
    assert (length ns' = length ids') as Hlen'.
    { rewrite !length_app in Hlen. simpl in Hlen. lia. }
    rewrite length_app. simpl length.
    rewrite (zip_with_app pair ns' [a] ids' [x]) by done. simpl zip_with.
    rewrite <- app_assoc. simpl app.
    rewrite name_loop_early by (rewrite length_zip_with; lia).
    simpl name_loop.
    replace (0 + Z.of_nat (length (zip_with pair ns' ids')))%Z
      with (Z.of_nat (length ns' + 1 + 1) - 2)%Z
      by (rewrite length_zip_with; lia).
    rewrite name_suffix_before_last.
    replace (Z.of_nat (length ns' + 1 + 1) - 2 + 1)%Z
      with (Z.of_nat (length ns' + 1 + 1) - 1)%Z by lia.
    rewrite name_suffix_last, app_empty_r.
    destruct (zip_with pair ns' ids' ++ [(a, x)]) as [|p0 ps0] eqn:E.
    { by destruct (zip_with pair ns' ids'). }
    rewrite <- E. rewrite map_app. simpl map.
    rewrite <- foldl_entries. unfold student_entry. simpl.
    by rewrite !sapp_assoc.
Qed.

(** ** The cells of the notebooks *)

Lemma foldl_blocks {A} (f : Z → list A) (init : list A) (l : list Z) :
  foldl (λ cells i, cells ++ f i) init l = init ++ concat (map f l).
Proof.
  revert init. induction l as [|i l IH]; intros init; simpl.
  - by rewrite app_nil_r.
  - by rewrite IH, <- app_assoc.
Qed.

Lemma range_from_1_nonpositive (n : Z) : (n ≤ 0)%Z → range_from_1 n = [].
Proof. intros H. unfold range_from_1. by replace (Z.to_nat n) with 0%nat by lia. Qed.

Lemma range_from_1_lookup (n : Z) (k : nat) :
  (k < Z.to_nat n)%nat → range_from_1 n !! k = Some (Z.of_nat (S k)).
Proof.
  intros H. unfold range_from_1. rewrite list_lookup_fmap.
  by rewrite lookup_seq_lt.
Qed.

(** A list of blocks of the same length, read block by block. *)
Lemma block_at {A B} (f : B → list A) (m : nat) (l : list B) (k : nat) (x : B) :
  (∀ y, length (f y) = m) → l !! k = Some x →
  take m (drop (m * k) (concat (map f l))) = f x.
Proof.
  intros Hm. revert k. induction l as [|y l IH]; intros k Hk; [done|].
  destruct k as [|k]; simpl in Hk |- *.
  - injection Hk as ->. rewrite Nat.mul_0_r, drop_0.
    rewrite take_app_le by (rewrite Hm; lia).
    rewrite take_ge by (rewrite Hm; lia). done.
  - replace (m * S k)%nat with (length (f y) + m * k)%nat by (rewrite Hm; lia).
    rewrite drop_app_add'; [|done]. by apply IH.
Qed.

Lemma length_blocks {A B} (f : B → list A) (m : nat) (l : list B) :
  (∀ y, length (f y) = m) → length (concat (map f l)) = (m * length l)%nat.
Proof.
  intros Hm. induction l as [|y l IH]; simpl; [lia|].
  rewrite length_app, Hm, IH. lia.
Qed.

Lemma length_range_from_1 (n : Z) : length (range_from_1 n) = Z.to_nat n.
Proof. unfold range_from_1. by rewrite length_map, length_seq. Qed.

Lemma prelab_cells_blocks (lab n : Z) (s : string) :
  prelab_cells lab n s
  = take 2 (prelab_cells lab 0 s) ++ concat (map prelab_experiment (range_from_1 n)).
Proof.
  unfold prelab_cells. destruct (Z.ltb_spec 0 n) as [H|H].
  - by rewrite foldl_blocks.
  - rewrite (range_from_1_nonpositive n) by done. reflexivity.
Qed.

Lemma main_lab_cells_blocks (lab n : Z) (s : string) :
  ∃ toc, main_lab_cells lab n s
  = (take 1 (main_lab_cells lab 0 s) ++ [toc] ++ take 2 (drop 2 (main_lab_cells lab 0 s)))
    ++ concat (map (main_lab_experiment lab) (range_from_1 n))
    ++ [new_markdown_cell "# Conclusion"].
Proof.
  eexists. unfold main_lab_cells. destruct (Z.ltb_spec 0 n) as [H|H].
  - rewrite foldl_blocks. rewrite <- app_assoc. reflexivity.
  - rewrite (range_from_1_nonpositive n) by done. reflexivity.
Qed.

(** X5: The pre-lab notebook has two opening cells and then two cells per
    experiment, the report has four opening cells, three per experiment
    and the conclusion; the cells of experiment [k + 1] are the [k]-th
    block, for [k] below [num_exercises], and there are none when
    [num_exercises] is zero or negative.  The table of contents has one
    title per experiment. *)
Theorem notebook_cells_layout (lab n : Z) (s : string) :
  length (prelab_cells lab n s) = (2 + 2 * Z.to_nat n)%nat
  ∧ length (main_lab_cells lab n s) = (4 + 3 * Z.to_nat n + 1)%nat
  ∧ (∀ k, (k < Z.to_nat n)%nat →
       take 2 (drop (2 + 2 * k) (prelab_cells lab n s))
         = prelab_experiment (Z.of_nat (S k))
       ∧ take 3 (drop (4 + 3 * k) (main_lab_cells lab n s))
         = main_lab_experiment lab (Z.of_nat (S k)))
  ∧ last (main_lab_cells lab n s) = Some (new_markdown_cell "# Conclusion")
  ∧ length (experiment_titles n) = Z.to_nat n.
Proof.
  destruct (main_lab_cells_blocks lab n s) as [toc Hm].
  rewrite Hm, prelab_cells_blocks. clear Hm.
  split; [|split; [|split; [|split]]].
  - rewrite length_app, (length_blocks _ 2) by done.
    rewrite length_range_from_1. done.
  - rewrite !length_app, (length_blocks _ 3) by done.
    rewrite length_range_from_1. simpl. lia.
  - intros k Hk. pose proof (range_from_1_lookup n k Hk) as Hl. split.
    + rewrite drop_app_add'; [|done]. by apply block_at.
    + rewrite drop_app_add'; [|done].
      assert (3 * k + 3
              ≤ length (concat (map (main_lab_experiment lab) (range_from_1 n))))%nat
        as Hlen.
      { rewrite (length_blocks _ 3) by done. rewrite length_range_from_1. lia. }
      rewrite drop_app_le by lia.
      rewrite take_app_le by (rewrite list.length_drop; lia).
      by apply block_at.
  - rewrite !app_assoc. apply last_snoc.
  - unfold experiment_titles. rewrite length_map. apply length_range_from_1.
Qed.

(** ** When two renamed CSV files get the same name *)

Lemma sapp_prefix_inj (x y s1 s2 : string) :
  x +:+ s1 = y +:+ s2 → String.length x = String.length y → x = y.
Proof.
  revert y. induction x as [|a x IH]; intros [|b y] H Hl; try done.
  rewrite !app_cons in H. injection H as -> H. f_equal.
  apply IH; [done|]. simpl in Hl. lia.
Qed.

Lemma length_last_chars (k : nat) (s : string) :
  (k ≤ String.length s)%nat → String.length (Str.last_chars k s) = k.
Proof. intros H. unfold Str.last_chars. rewrite length_drop. lia. Qed.

(** X6: For base names of seven characters or more, two renamed CSV files
    get the same name exactly when their folders have the same name up
    to case and their last seven characters are the same up to case:
    different channels, and different folders, never collide. *)
Theorem renamed_names_collide (w1 w2 : world) (p1 d1 n1 p2 d2 n2 : string)
    (f1 f2 : FileObj) :
  Str.contains Str.slash d1 = false → Str.contains Str.slash n1 = false →
  Str.contains Str.slash d2 = false → Str.contains Str.slash n2 = false →
  (7 ≤ String.length n1)%nat → (7 ≤ String.length n2)%nat →
  CSVFile_init (p1 +:+ "/" +:+ d1 +:+ "/" +:+ n1) true w1 = (Ok f1, w1) →
  CSVFile_init (p2 +:+ "/" +:+ d2 +:+ "/" +:+ n2) true w2 = (Ok f2, w2) →
  name f1 = name f2
  ↔ Str.lower d1 = Str.lower d2
    ∧ Str.lower (Str.last_chars 7 n1) = Str.lower (Str.last_chars 7 n2).
Proof.
  intros Hd1 Hn1 Hd2 Hn2 Hl1 Hl2 H1 H2.
  rewrite (CSVFile_init_rename w1 p1 d1 n1 Hd1 Hn1) in H1.
  rewrite (CSVFile_init_rename w2 p2 d2 n2 Hd2 Hn2) in H2.
  simpl in H1, H2.
  destruct (exists_in (files w1) _); [|done].
  destruct (exists_in (files w2) _); [|done].
  injection H1 as <-. injection H2 as <-. simpl.
  split.
  - intros H.
    assert (String.length ("." +:+ Str.lower (Str.last_chars 7 n1))
            = String.length ("." +:+ Str.lower (Str.last_chars 7 n2))) as Hlen.
    { rewrite !length_sapp, !length_lower, !length_last_chars by done. done. }
    pose proof (sapp_suffix_inj _ _ _ _ H Hlen) as Hs.
    split.
    + apply (sapp_prefix_inj _ _ _ _ H).
      apply (f_equal String.length) in H. rewrite !length_sapp in H.
      rewrite !length_sapp in Hlen. lia.
    + rewrite !app_cons, !app_nil in Hs. by injection Hs.
  - by intros [-> ->].
Qed.

(** ** What [File.save] writes *)

(** X7: Saving into an existing directory, under a legal name that no
    directory there bears, a file that is not that very entry: the
    content of the source is written at [<destination>/<name>], which
    is created last in the directory or overwritten in its place; the
    copy is logged, and the saved entry holds the content. *)
Theorem save_writes_content (f : FileObj) (tsp : string) (verbose : bool)
    (w : world) (c0 : string) :
  tsp ≠ "" → Fs.node_at (files w) (Fs.resolve cwd tsp) = Some Dir →
  valid_name (name f) → location f ≠ "" →
  Fs.node_at (files w) (Fs.resolve cwd (location f)) = Some (File c0) →
  Fs.node_at (files w) (Fs.resolve cwd tsp ++ [name f]) ≠ Some Dir →
  Fs.resolve cwd (location f) ≠ Fs.resolve cwd tsp ++ [name f] →
  File_save f (PStr tsp) verbose false w
  = (Ok tt, {| files := Fs.put (Fs.resolve cwd tsp ++ [name f]) (File c0) (files w);
               copied := copied w ++ [(location f, OsPath.join tsp (name f))] |})
  ∧ Fs.lookup (Fs.put (Fs.resolve cwd tsp ++ [name f]) (File c0) (files w))
              (Fs.resolve cwd tsp ++ [name f]) = Some (File c0).
Proof.
  intros Ht Hdir Hv Hl Hsrc Hnd Hne.
  assert (Fs.resolve cwd tsp ++ [name f] ≠ []) as Hnil by (by destruct (Fs.resolve cwd tsp)).
  rewrite node_at_lookup in Hnd by done.
  split.
  - rewrite File_save_spec.
    replace (exists_in (files w) tsp) with true
      by (symmetry; apply exists_in_spec; by rewrite Hdir).
    unfold shutil_copy.
    assert (OsPath.join tsp (name f) ≠ "") as Hj by (apply join_nonempty, Hv).
    assert (isdir_in (files w) (OsPath.join tsp (name f)) = false) as ->.
    { unfold isdir_in. destruct (decide _); [done|].
      rewrite resolve_join by done. apply bool_decide_eq_false.
      by rewrite node_at_lookup. }
    rewrite resolve_join by done.
    rewrite (proj2 (bool_decide_eq_false _) Hne), andb_false_r.
    destruct (decide _) as [[?|?]|_]; [done..|].
    rewrite Hsrc. unfold write_at, Fs.put.
    rewrite node_at_lookup by done.
    destruct (Fs.lookup (files w) _) as [[c1|]|] eqn:E; [done | done |].
    by rewrite parent_snoc, Hdir.
  - unfold Fs.put.
    destruct (Fs.lookup (files w) _) as [n|] eqn:E.
    + rewrite lookup_replace, decide_True, E by done. done.
    + rewrite lookup_app, E. simpl. by rewrite decide_True.
Qed.

(** ** A drive with no exercise folder *)

Lemma ensure_dir_spec (s0 : string) (T : path) (x : string) (w : world) :
  s0 ≠ "" → Fs.resolve cwd s0 = T ++ [x] → Fs.node_at (files w) T = Some Dir →
  ensure_dir s0 w
  = (Ok tt, if decide (Fs.node_at (files w) (T ++ [x]) = None)
            then {| files := files w ++ [(T ++ [x], Dir)]; copied := copied w |}
            else w).
Proof.
  intros Hne Hr HT. rewrite ensure_dir_unfold. unfold exists_in.
  rewrite decide_False, Hr by done.
  destruct (decide _) as [E|E].
  - rewrite E. rewrite bool_decide_eq_false_2 by (by intros [? ?]). simpl.
    rewrite (makedirs_single s0 T x) by (by rewrite ?HT).
    unfold mkdir_path. by rewrite E, parent_snoc, HT.
  - rewrite bool_decide_eq_true_2; [done|].
    by destruct (Fs.node_at (files w) (T ++ [x])).
Qed.

(** X8: With no folder selected (the case of the warning) and an existing
    destination directory, [copy_scope_data] copies nothing and
    returns; all it does, when [save_jpg] is set and [jpgs] is not
    there yet, is to create the empty directory [jpgs]. *)
Theorem empty_drive_copies_nothing (self : Copier) (dest : string)
    (cf rn sj verbose : bool) (w : world) :
  exercise_parts self = [] →
  dest ≠ "" → Fs.node_at (files w) (Fs.resolve cwd dest) = Some Dir →
  copy_scope_data self (PStr dest) cf rn sj verbose false w
  = (Ok tt,
     if sj && bool_decide (Fs.node_at (files w) (Fs.resolve cwd dest ++ ["jpgs"]) = None)
     then {| files := files w ++ [(Fs.resolve cwd dest ++ ["jpgs"], Dir)];
             copied := copied w |}
     else w).
Proof.
  intros Hparts Hne Hdir. rewrite copy_scope_data_unfold.
  replace (exists_in (files w) dest) with true
    by (symmetry; apply exists_in_spec; by rewrite Hdir).
  unfold bind at 1. unfold save_csvs. rewrite Hparts.
  destruct sj; simpl; [|done].
  rewrite save_jpgs_unfold, Hparts. unfold bind at 1.
  rewrite <- ensure_dir_unfold.
  rewrite (ensure_dir_spec _ (Fs.resolve cwd dest) "jpgs");
    [| by apply join_nonempty | by apply resolve_join | done].
  simpl. by destruct (decide _) as [E|E];
    [rewrite bool_decide_eq_true_2 | rewrite bool_decide_eq_false_2].
Qed.

(** ** Where every copy goes *)

(** X9: When no selected folder has a wildcard ([*], [?], [[]) in its
    name, every [shutil.copy] call that [copy_scope_data] completes,
    whatever the outcome of the run, has as source a file directly in a
    selected folder whose name does not start with a dot, and as target
    argument the path the options ask for: for a [*.JPG],
    [<destination>/jpgs/<folder, lower-cased>.jpg]; for a [*.CSV], its
    new name or, without [rename_csv], its own, in [<destination>] or,
    with [create_folders], in [<destination>/<folder>].  ([shutil.copy]
    puts the file inside the target when that is a directory.) *)
Theorem copies_follow_layout (drive dest : string) (self : Copier)
    (cf rn sj verbose softrun : bool) (w : world) :
  Fs.wf (files w) → Copier_init drive w = (Ok self, w) →
  (∀ part, part ∈ exercise_parts self → Fnmatch.has_magic part = false) →
  ∃ l, copied (copy_scope_data self (PStr dest) cf rn sj verbose softrun w).2
       = copied w ++ l
       ∧ Forall (saved_as dest cf rn (exercise_parts self)) l.
Proof.
  intros Hwf Hi Hnm. pose proof (Copier_init_good_parts _ _ _ _ Hwf Hi) as Hgood.
  pose proof (copy_scope_data_layout self dest cf rn sj verbose softrun Hgood Hnm w)
    as Hev.
  rewrite copy_scope_data_unfold in Hev |- *.
  destruct (exists_in (files w) dest) eqn:Hex.
  - apply exists_in_spec in Hex as [_ Hd]. by destruct (Hev Hwf Hd) as [_ Hl].
  - exists []. by rewrite app_nil_r.
Qed.

(** ** The lab directory and its sub-directories *)

Lemma string_of_uint_no_slash (d : Decimal.uint) :
  Str.contains Str.slash (NilEmpty.string_of_uint d) = false.
Proof. induction d; simpl; done. Qed.

Lemma str_of_int_no_slash (n : Z) : Str.contains Str.slash (str_of_int n) = false.
Proof.
  unfold str_of_int, NilZero.string_of_int, NilZero.string_of_uint.
  destruct (Z.to_int n) as [d|d]; destruct d; try done;
    apply (string_of_uint_no_slash (_ d)) || apply (string_of_uint_no_slash d).
Qed.

Lemma str_of_int_nonempty (n : Z) : str_of_int n ≠ "".
Proof.
  unfold str_of_int, NilZero.string_of_int, NilZero.string_of_uint.
  by destruct (Z.to_int n) as [d|d]; destruct d.
Qed.

Lemma str_of_int_inj (i j : Z) : str_of_int i = str_of_int j → i = j.
Proof.
  intros H. apply to_int_inj.
  assert (∀ z, Z.to_int z ≠ Decimal.Pos Decimal.Nil
               ∧ Z.to_int z ≠ Decimal.Neg Decimal.Nil) as Hn.
  { intros [|p|p]; simpl; split; try done; intros [= E];
      by apply Unsigned.to_uint_nonnil in E. }
  destruct (Hn i) as [Hi1 Hi2]. destruct (Hn j) as [Hj1 Hj2].
  pose proof (NilZero.isi _ Hi1 Hi2) as Ei.
  pose proof (NilZero.isi _ Hj1 Hj2) as Ej.
  unfold str_of_int in H. rewrite H in Ei. rewrite Ei in Ej. by injection Ej.
Qed.

Lemma concat_cons_empty (h : string) (t : list string) :
  String.concat "" (h :: t) = h +:+ String.concat "" t.
Proof. destruct t; simpl; [by rewrite app_empty_r | by rewrite app_nil]. Qed.

Lemma split_path_string (a : string) (p : path) :
  Forall valid_name p →
  Str.split Str.slash (a +:+ String.concat "" (map (λ c, "/" +:+ c) p))
  = Str.split Str.slash a ++ p.
Proof.
  intros Hp. revert a. induction Hp as [|x p Hx Hp IH]; intros a.
  - simpl. by rewrite app_empty_r, app_nil_r.
  - simpl map. rewrite concat_cons_empty, <- !sapp_assoc.
    rewrite IH, sapp_assoc.
    change (a +:+ "/" +:+ x) with (a +:+ String Str.slash x).
    rewrite split_app, (split_no_sep _ x) by apply Hx.
    by rewrite <- app_assoc.
Qed.

Lemma normalize_valid (stk : list string) (p : path) :
  Forall valid_name p → Fs.normalize stk p = rev stk ++ p.
Proof.
  intros Hp. revert stk. induction Hp as [|x p Hx Hp IH]; intros stk; simpl.
  - by rewrite app_nil_r.
  - destruct Hx as (Hne & _ & Hd & Hdd).
    rewrite decide_False by (by intros [?|?]). rewrite decide_False by done.
    rewrite IH. simpl. by rewrite <- app_assoc.
Qed.

(** [os.getcwd()] names the working directory. *)
Lemma resolve_path_string (p : path) :
  Forall valid_name p → Fs.resolve cwd (Fs.path_string p) = p.
Proof.
  intros Hp. destruct p as [|x p]; [done|].
  unfold Fs.path_string, Fs.resolve.
  pose proof (split_path_string "" (x :: p) Hp) as Hs. rewrite app_nil in Hs.
  rewrite Hs. simpl map. rewrite concat_cons_empty.
  change (("/" +:+ x) +:+ String.concat "" (map (λ c, "/" +:+ c) p))
    with (String Str.slash (x +:+ String.concat "" (map (λ c, "/" +:+ c) p))).
  simpl. by apply (normalize_valid [] (x :: p)).
Qed.

Lemma valid_name_prefixed (a s0 : string) (c0 : ascii) :
  Str.contains Str.slash (String c0 a) = false → c0 ≠ "."%char →
  Str.contains Str.slash s0 = false → valid_name (String c0 a +:+ s0).
Proof.
  intros Ha Hc Hs. unfold valid_name. rewrite contains_app, Ha, Hs.
  rewrite app_cons. repeat split; try done; intros [= ? _]; done.
Qed.

Lemma lab_name_valid (n : Z) : valid_name ("Lab " +:+ str_of_int n).
Proof. apply valid_name_prefixed; [done | done | apply str_of_int_no_slash]. Qed.

Lemma exp_name_valid (i : Z) : valid_name ("exp" +:+ str_of_int i).
Proof. apply valid_name_prefixed; [done | done | apply str_of_int_no_slash]. Qed.

Lemma resolve_lab_dir (a : Args) :
  Forall valid_name cwd → Fs.resolve cwd (lab_dir a) = lab_path a.
Proof.
  intros Hc. unfold lab_dir, lab_path.
  rewrite resolve_join by apply lab_name_valid.
  by rewrite resolve_path_string.
Qed.

Lemma lab_dir_nonempty (a : Args) : lab_dir a ≠ "".
Proof. apply join_nonempty. apply lab_name_valid. Qed.

Lemma node_at_snoc_ne (t : tree) (p q : path) (n : node) :
  q ≠ p → Fs.node_at (t ++ [(p, n)]) q = Fs.node_at t q.
Proof.
  intros Hne. destruct q as [|c q]; [done|]. simpl.
  rewrite lookup_app. destruct (Fs.lookup t (c :: q)); [done|].
  simpl. by rewrite decide_False.
Qed.

Lemma node_at_snoc_eq (t : tree) (p : path) (n : node) :
  p ≠ [] → Fs.node_at t p = None → Fs.node_at (t ++ [(p, n)]) p = Some n.
Proof.
  intros Hne E. rewrite node_at_lookup in E |- * by done.
  rewrite lookup_app, E. simpl. by rewrite decide_True.
Qed.

Lemma filter_ext_elem {A} (P Q : A → Prop) `{!∀ x, Decision (P x)}
    `{!∀ x, Decision (Q x)} (l : list A) :
  (∀ x, x ∈ l → (P x ↔ Q x)) → filter P l = filter Q l.
Proof.
  induction l as [|x l IH]; intros Hx; [done|].
  rewrite !filter_cons.
  rewrite IH by (intros y Hy; apply Hx; by right).
  destruct (decide (P x)) as [HP|HP], (decide (Q x)) as [HQ|HQ]; try done.
  - destruct HQ. apply Hx; [by left | done].
  - destruct HP. apply Hx; [by left | done].
Qed.

(** Making sure of a list of directories, each in a directory that is
    there or comes earlier in the list: the missing ones are created, in
    order, and nothing else changes. *)
Lemma ensure_all (ds : list string) (ps : list path) (w : world) :
  Forall2 (λ d p, d ≠ "" ∧ Fs.resolve cwd d = p ∧ p ≠ []) ds ps →
  NoDup ps →
  (∀ p, p ∈ ps → Fs.node_at (files w) p = None ∨ Fs.node_at (files w) p = Some Dir) →
  (∀ i p, ps !! i = Some p →
     Fs.node_at (files w) (Fs.parent p) = Some Dir ∨ Fs.parent p ∈ take i ps) →
  for_each ds ensure_dir w
  = (Ok tt, {| files := with_dirs ps (files w); copied := copied w |}).
Proof.
  intros HF. revert w.
  induction HF as [|d p ds ps (Hd & Hr & Hp) HF IH]; intros w Hnd Hkind Hpar.
  - unfold with_dirs. simpl. by rewrite app_nil_r, world_eta.
  - apply NoDup_cons in Hnd as [Hnin Hnd].
    destruct (exists_last Hp) as (T & x & ->).
    assert (Fs.node_at (files w) T = Some Dir) as HT.
    { destruct (Hpar 0%nat (T ++ [x]) eq_refl) as [H|H].
      - by rewrite parent_snoc in H.
      - by apply elem_of_nil in H. }
    simpl for_each. unfold bind at 1.
    rewrite (ensure_dir_spec d T x w Hd Hr HT).
    set (w1 := if decide (Fs.node_at (files w) (T ++ [x]) = None)
               then {| files := files w ++ [(T ++ [x], Dir)]; copied := copied w |}
               else w).
    assert (copied w1 = copied w) as Hc by (unfold w1; by destruct (decide _)).
    assert (∀ q, q ≠ T ++ [x] → Fs.node_at (files w1) q = Fs.node_at (files w) q) as Hsame.
    { intros q Hq. unfold w1. destruct (decide _); [|done]. by apply node_at_snoc_ne. }
    assert (Fs.node_at (files w1) (T ++ [x]) = Some Dir) as Hnew.
    { unfold w1. destruct (decide _) as [E|E].
      - by apply node_at_snoc_eq.
      - destruct (Hkind (T ++ [x])) as [H|H]; [by left | done | done]. }
    assert (∀ q, Fs.node_at (files w) q = Some Dir → Fs.node_at (files w1) q = Some Dir)
      as Hkeep.
    { intros q Hq. destruct (decide (q = T ++ [x])) as [->|Hne]; [done|].
      by rewrite Hsame. }
    rewrite IH; [| done | |].
    + rewrite Hc. do 2 f_equal. unfold with_dirs.
      rewrite filter_cons.
      rewrite (filter_ext_elem (λ p, Fs.node_at (files w1) p = None)
                               (λ p, Fs.node_at (files w) p = None) ps).
      * unfold w1. destruct (decide _) as [E|E]; simpl.
        -- by rewrite <- app_assoc.
        -- done.
      * intros q Hq. rewrite Hsame; [done|]. by intros ->.
    + intros q Hq. rewrite Hsame by (by intros ->). apply Hkind. by right.
    + intros i q Hi. destruct (Hpar (S i) q Hi) as [H|H].
      * left. by apply Hkeep.
      * simpl in H. apply elem_of_cons in H as [->|H]; [by left | by right].
Qed.

Lemma for_each_app {A} (l1 l2 : list A) (body : A → M unit) (w : world) :
  for_each (l1 ++ l2) body w = bind (for_each l1 body) (λ _, for_each l2 body) w.
Proof.
  revert w. induction l1 as [|x l1 IH]; intros w; simpl; [done|].
  rewrite bind_assoc. apply bind_ext; [done|]. intros _ w1. apply IH.
Qed.

Lemma for_each_map {A B} (g : A → B) (l : list A) (body : B → M unit) (w : world) :
  for_each (map g l) body w = for_each l (λ x, body (g x)) w.
Proof.
  revert w. induction l as [|x l IH]; intros w; simpl; [done|].
  apply bind_ext; [done|]. intros _ w1. apply IH.
Qed.

Lemma bind_for_each_cons {A B} (x : A) (l : list A) (body : A → M unit)
    (k : unit → M B) (w : world) :
  bind (for_each (x :: l) body) k w
  = bind (body x) (λ _, bind (for_each l body) k) w.
Proof. simpl. apply bind_assoc. Qed.

Lemma bind_for_each_app {A B} (l1 l2 : list A) (body : A → M unit)
    (k : unit → M B) (w : world) :
  bind (for_each (l1 ++ l2) body) k w
  = bind (for_each l1 body) (λ _, bind (for_each l2 body) k) w.
Proof.
  rewrite <- bind_assoc. unfold bind at 1 3. by rewrite for_each_app.
Qed.

(** The script after the checks, when [-c] is not given: first the
    directories, then the copy, then the notebooks. *)
Lemma scaffold_unfold (a : Args) (w : world) :
  scaffold a w
  = bind (for_each (skeleton_dirs a) ensure_dir)
         (λ _,
            when (negb (prelab_only a))
                 (let* copier := Copier_init (drive_name a) in
                  copy_scope_data copier (PStr (OsPath.join (lab_dir a) "scope"))
                                  false true true (verbose a) false) ;;
            when (generate_notebooks a)
                 (write_file (OsPath.join (lab_dir a)
                                ("prelab" +:+ str_of_int (lab_number a) +:+ ".ipynb"))
                             prelab_notebook ;;
                  let report := OsPath.join (lab_dir a)
                                  ("Lab Report " +:+ str_of_int (lab_number a)
                                   +:+ ".ipynb") in
                  let* found := path_exists (PStr report) in
                  when found (os_remove report) ;;
                  write_file report report_notebook)) w.
Proof.
  symmetry. unfold skeleton_dirs.
  change [lab_dir a; OsPath.join (lab_dir a) "assets";
          OsPath.join (lab_dir a) "prelab"; OsPath.join (lab_dir a) "scope"]
    with (lab_dir a :: map (OsPath.join (lab_dir a)) ["assets"; "prelab"; "scope"]).
  rewrite <- app_comm_cons, bind_for_each_cons.
  unfold scaffold. fold (lab_dir a).
  apply bind_ext; [done|]. intros _ w1.
  rewrite bind_for_each_app.
  apply bind_ext; [apply for_each_map|]. intros _ w2.
  apply bind_ext; [|done].
  rewrite for_each_map. unfold when, range_from_1.
  destruct (Z.ltb_spec 0 (num_exercises a)) as [H|H]; [done|].
  by replace (Z.to_nat (num_exercises a)) with 0%nat by lia.
Qed.

Lemma skeleton_resolved (a : Args) :
  Forall valid_name cwd →
  Forall2 (λ d p, d ≠ "" ∧ Fs.resolve cwd d = p ∧ p ≠ [])
          (skeleton_dirs a) (skeleton a).
Proof.
  intros Hc. pose proof (resolve_lab_dir a Hc) as Hl.
  assert (∀ x, valid_name x →
            OsPath.join (lab_dir a) x ≠ ""
            ∧ Fs.resolve cwd (OsPath.join (lab_dir a) x) = lab_path a ++ [x]
            ∧ lab_path a ++ [x] ≠ []) as Hsub.
  { intros x Hx. split; [apply join_nonempty, Hx|]. split.
    - by rewrite resolve_join, Hl.
    - by destruct (lab_path a). }
  unfold skeleton_dirs, skeleton. apply Forall2_app.
  - constructor.
    { split; [apply lab_dir_nonempty|]. split; [done|]. unfold lab_path. by destruct cwd. }
    repeat (constructor; [by apply Hsub|]). constructor.
  - apply Forall2_fmap, Forall_Forall2_diag, Forall_forall. intros i _.
    pose proof (exp_name_valid i) as Hv.
    split; [apply join_nonempty, Hv|]. split.
    + rewrite !resolve_join, Hl, <- app_assoc by done. done.
    + by destruct (lab_path a).
Qed.

Lemma skeleton_NoDup (a : Args) : NoDup (skeleton a).
Proof.
  unfold skeleton. apply NoDup_app. split; [|split].
  - repeat apply NoDup_cons_2; try apply NoDup_nil_2; rewrite ?elem_of_cons, ?elem_of_nil.
    + intros [H|[H|[H|[]]]]; apply (f_equal length) in H;
        rewrite length_app in H; simpl in H; lia.
    + intros [H|[H|[]]]; by apply app_inv_head in H.
    + intros [H|[]]; by apply app_inv_head in H.
    + intros [].
  - intros p Hp (i & -> & _)%list_elem_of_fmap.
    rewrite !elem_of_cons, elem_of_nil in Hp.
    destruct Hp as [H|[H|[H|[H|[]]]]]; apply (f_equal length) in H;
      rewrite ?length_app in H; simpl in H; lia.
  - apply NoDup_fmap_2.
    + intros i j H. apply app_inv_head in H. injection H as H.
      apply str_of_int_inj. by rewrite !app_nil in H.
    + unfold range_from_1.
      apply NoDup_fmap_2; [intros x y; apply Nat2Z.inj | apply NoDup_seq].
Qed.

Lemma skeleton_parents (a : Args) (t : tree) (i : nat) (p : path) :
  Fs.node_at t cwd = Some Dir → skeleton a !! i = Some p →
  Fs.node_at t (Fs.parent p) = Some Dir ∨ Fs.parent p ∈ take i (skeleton a).
Proof.
  intros Hc Hi. unfold skeleton in Hi |- *.
  destruct i as [|[|[|[|i]]]]; simpl in Hi |- *.
  - injection Hi as <-. left. unfold lab_path. by rewrite parent_snoc.
  - injection Hi as <-. right. rewrite parent_snoc. by left.
  - injection Hi as <-. right. rewrite parent_snoc. by left.
  - injection Hi as <-. right. rewrite parent_snoc. by left.
  - rewrite list_lookup_fmap in Hi.
    destruct (range_from_1 (num_exercises a) !! i) as [k|]; [|done].
    injection Hi as <-. right.
    change (lab_path a ++ ["prelab"; "exp" +:+ str_of_int k])
      with (lab_path a ++ ["prelab"] ++ ["exp" +:+ str_of_int k]).
    rewrite app_assoc, parent_snoc. right. right. by left.
Qed.

(** The first part of the script: the missing directories are made. *)
Lemma skeleton_run (a : Args) (w : world) :
  Forall valid_name cwd → Fs.node_at (files w) cwd = Some Dir →
  (∀ p, p ∈ skeleton a →
        Fs.node_at (files w) p = None ∨ Fs.node_at (files w) p = Some Dir) →
  for_each (skeleton_dirs a) ensure_dir w
  = (Ok tt, {| files := with_dirs (skeleton a) (files w); copied := copied w |}).
Proof.
  intros Hv Hc Hk. apply ensure_all; [by apply skeleton_resolved | apply skeleton_NoDup
                                      | done |].
  intros i p Hi. by apply skeleton_parents.
Qed.

Lemma lookup_dirs (ps : list path) (p : path) :
  p ∈ ps → Fs.lookup (map (λ q, (q, Dir)) ps) p = Some Dir.
Proof.
  induction ps as [|q ps IH]; intros Hp; [by apply elem_of_nil in Hp|].
  simpl. destruct (decide (q = p)); [done|].
  apply IH. apply elem_of_cons in Hp as [->|Hp]; done.
Qed.

Lemma lookup_dirs_None (ps : list path) (p : path) :
  p ∉ ps → Fs.lookup (map (λ q, (q, Dir)) ps) p = None.
Proof.
  induction ps as [|q ps IH]; intros Hp; [done|].
  simpl. rewrite decide_False by (intros ->; apply Hp; by left).
  apply IH. intros H. apply Hp. by right.
Qed.

(** What a path names once the missing directories are there. *)
Lemma node_at_with_dirs (ps : list path) (t : tree) (p : path) :
  Fs.node_at (with_dirs ps t) p
  = match Fs.node_at t p with
    | Some n => Some n
    | None => if decide (p ∈ ps) then Some Dir else None
    end.
Proof.
  destruct p as [|x p]; [done|]. unfold with_dirs. simpl.
  rewrite lookup_app. destruct (Fs.lookup t (x :: p)) as [n|] eqn:E; [done|].
  destruct (decide _) as [Hin|Hin].
  - apply lookup_dirs. apply list_elem_of_filter. split; [|done]. done.
  - apply lookup_dirs_None. by intros [_ ?]%list_elem_of_filter.
Qed.

Lemma filter_none {A} (P : A → Prop) `{!∀ x, Decision (P x)} (l : list A) :
  (∀ x, x ∈ l → ¬ P x) → filter P l = [].
Proof.
  induction l as [|x l IH]; intros Hx; [done|].
  rewrite filter_cons_False by (apply Hx; by left).
  apply IH. intros y Hy. apply Hx. by right.
Qed.

(** Nothing is missing the second time. *)
Lemma with_dirs_again (ps : list path) (t : tree) :
  with_dirs ps (with_dirs ps t) = with_dirs ps t.
Proof.
  unfold with_dirs at 1. rewrite filter_none; [by rewrite app_nil_r|].
  intros p Hp. rewrite node_at_with_dirs.
  destruct (Fs.node_at t p); [done|]. by rewrite decide_True.
Qed.

Lemma Copier_init_missing (drive : string) (w : world) :
  exists_in (files w) (OsPath.join "/Volumes" drive) = false →
  Copier_init drive w = (Raise FileNotFoundError, w).
Proof. intros H. unfold Copier_init, bind, path_exists. by rewrite H. Qed.

Lemma main_skeleton_only (a : Args) (w : world) :
  Forall valid_name cwd → Fs.node_at (files w) cwd = Some Dir →
  (∀ p, p ∈ skeleton a →
        Fs.node_at (files w) p = None ∨ Fs.node_at (files w) p = Some Dir) →
  c a = false → prelab_only a = true → generate_notebooks a = false →
  main a w
  = (Ok tt, {| files := with_dirs (skeleton a) (files w); copied := copied w |}).
Proof.
  intros Hv Hc Hk Hco Hp Hg. unfold main, bind at 1.
  rewrite check_args_valid; [| by rewrite Hg | rewrite Hco; by intros [_ ?]].
  rewrite Hco, scaffold_unfold. unfold bind at 1.
  rewrite skeleton_run by done. by rewrite Hp, Hg.
Qed.

(** X10: With [-p] and without [-g], in a working directory that exists and
    where no file stands in the way, the script makes the lab
    directory, [assets], [prelab] and [scope] in it and [exp1] to
    [exp<n>] in [prelab] ([n] the number of exercises, none when it is
    zero or negative): exactly those that are missing, in this order,
    and nothing else.  Run again, it finds them all and changes
    nothing. *)
Theorem skeleton_created (a : Args) (w : world) :
  Forall valid_name cwd → Fs.node_at (files w) cwd = Some Dir →
  (∀ p, p ∈ skeleton a →
        Fs.node_at (files w) p = None ∨ Fs.node_at (files w) p = Some Dir) →
  c a = false → prelab_only a = true → generate_notebooks a = false →
  let w' := {| files := with_dirs (skeleton a) (files w); copied := copied w |} in
  main a w = (Ok tt, w') ∧ main a w' = (Ok tt, w').
Proof.
  intros Hv Hc Hk Hco Hp Hg w'. split; [by apply main_skeleton_only|].
  rewrite main_skeleton_only; try done.
  - unfold w'. simpl. by rewrite with_dirs_again.
  - unfold w'. simpl. by rewrite node_at_with_dirs, Hc.
  - intros p Hin. unfold w'. simpl. rewrite node_at_with_dirs.
    destruct (Hk p Hin) as [->| ->]; [|by right].
    rewrite decide_True by done. by right.
Qed.

(** X11: Without [-p] the copy comes after the directories: when no drive of
    the given name is there (and its place is not one of the
    directories just made), the script stops with FileNotFoundError,
    the directories stay, and no notebook is written. *)
Theorem missing_drive_after_skeleton (a : Args) (w : world) :
  Forall valid_name cwd → Fs.node_at (files w) cwd = Some Dir →
  (∀ p, p ∈ skeleton a →
        Fs.node_at (files w) p = None ∨ Fs.node_at (files w) p = Some Dir) →
  c a = false → prelab_only a = false →
  (generate_notebooks a = true →
     falsy (student_names a) = false ∧ falsy (student_ids a) = false
     ∧ len (student_names a) = len (student_ids a)) →
  exists_in (files w) (OsPath.join "/Volumes" (drive_name a)) = false →
  Fs.resolve cwd (OsPath.join "/Volumes" (drive_name a)) ∉ skeleton a →
  main a w
  = (Raise FileNotFoundError,
     {| files := with_dirs (skeleton a) (files w); copied := copied w |}).
Proof.
  intros Hv Hc Hk Hco Hp Hg Hex Hnin. unfold main, bind at 1.
  rewrite check_args_valid; [| done | rewrite Hp; by intros [? _]].
  rewrite Hco, scaffold_unfold. unfold bind at 1.
  rewrite skeleton_run by done. rewrite Hp. simpl negb. unfold when at 1.
  set (w' := {| files := with_dirs (skeleton a) (files w); copied := copied w |}).
  assert (Copier_init (drive_name a) w' = (Raise FileNotFoundError, w')) as Hci.
  { apply Copier_init_missing. unfold w'. simpl.
    unfold exists_in in Hex |- *. destruct (decide _); [done|].
    apply bool_decide_eq_false in Hex. apply bool_decide_eq_false.
    rewrite node_at_with_dirs, decide_False by done.
    by destruct (Fs.node_at (files w) (Fs.resolve cwd _)). }
  unfold bind. by rewrite Hci.
Qed.

(** ** The notebooks *)


Lemma node_at_remove_ne (t : tree) (p q : path) :
  q ≠ p → Fs.node_at (Fs.remove p t) q = Fs.node_at t q.
Proof. intros Hne. destruct q; [done|]. by apply lookup_remove_ne. Qed.

Lemma put_keys_NoDup (t : tree) (p : path) (n : node) :
  NoDup (t.*1) → NoDup ((Fs.put p n t).*1).
Proof.
  intros Hnd. unfold Fs.put. destruct (Fs.lookup t p) as [m|] eqn:E.
  - by rewrite replace_keys.
  - rewrite fmap_app. apply NoDup_app. split; [done|]. split.
    + intros q Hq Hq'. simpl in Hq'. apply list_elem_of_singleton in Hq' as ->.
      by apply lookup_None_keys in E.
    + simpl. apply NoDup_singleton.
Qed.

Lemma keys_dirs (ps : list path) : (map (λ p, (p, Dir)) ps).*1 = ps.
Proof. induction ps as [|p ps IH]; [done|]. simpl. f_equal. exact IH. Qed.

Lemma with_dirs_keys_NoDup (ps : list path) (t : tree) :
  NoDup (t.*1) → NoDup ps → Forall (λ p, p ≠ []) ps → NoDup ((with_dirs ps t).*1).
Proof.
  intros Ht Hps Hne. unfold with_dirs. rewrite fmap_app. apply NoDup_app.
  split; [done|]. split.
  - intros q Hq (e & -> & He)%list_elem_of_fmap.
    apply list_elem_of_fmap in He as (p0 & -> & Hp0).
    apply list_elem_of_filter in Hp0 as [Hnone Hin]. simpl in Hq.
    rewrite Forall_forall in Hne.
    rewrite node_at_lookup in Hnone by (by apply Hne).
    by apply lookup_None_keys in Hnone.
  - rewrite keys_dirs. by apply NoDup_filter.
Qed.

Lemma remove_absent (t : tree) (p : path) :
  Fs.lookup t p = None → Fs.remove p t = t.
Proof.
  induction t as [|[q m] t IH]; [done|]. simpl.
  destruct (decide (q = p)); [done|]. intros H. by rewrite IH.
Qed.

Lemma lookup_remove_eq (t : tree) (p : path) :
  NoDup (t.*1) → Fs.lookup (Fs.remove p t) p = None.
Proof. intros H. apply lookup_None_keys. by apply remove_keys_NoDup. Qed.

(** Writing a text file where no directory is: created or overwritten. *)
Lemma write_file_put (s0 : string) (p : path) (c0 : string) (w : world) :
  s0 ≠ "" → Fs.resolve cwd s0 = p → p ≠ [] →
  Fs.lookup (files w) p ≠ Some Dir →
  Fs.node_at (files w) (Fs.parent p) = Some Dir →
  write_file s0 c0 w
  = (Ok tt, {| files := Fs.put p (File c0) (files w); copied := copied w |}).
Proof.
  intros Hne Hr Hp Hnd Hpar. unfold write_file, write_at, Fs.put.
  rewrite decide_False, Hr by done. rewrite node_at_lookup by done.
  destruct (Fs.lookup (files w) p) as [[c1|]|]; [done | done |].
  by rewrite Hpar.
Qed.

Lemma ipynb_name_valid (a0 : string) (c0 : ascii) (n : Z) :
  Str.contains Str.slash (String c0 a0) = false → c0 ≠ "."%char →
  valid_name (String c0 a0 +:+ str_of_int n +:+ ".ipynb").
Proof.
  intros Ha Hc. apply valid_name_prefixed; [done | done |].
  by rewrite contains_app, str_of_int_no_slash.
Qed.

(** The block that writes the two notebooks, in a lab directory that is
    there and holds no directory under either name. *)
Lemma notebook_block (a : Args) (w : world) :
  NoDup ((files w).*1) → Forall valid_name cwd →
  Fs.node_at (files w) (lab_path a) = Some Dir →
  Fs.lookup (files w) (prelab_file a) ≠ Some Dir →
  Fs.lookup (files w) (report_file a) ≠ Some Dir →
  (write_file (OsPath.join (lab_dir a)
                 ("prelab" +:+ str_of_int (lab_number a) +:+ ".ipynb"))
              prelab_notebook ;;
   let report := OsPath.join (lab_dir a)
                   ("Lab Report " +:+ str_of_int (lab_number a) +:+ ".ipynb") in
   let* found := path_exists (PStr report) in
   when found (os_remove report) ;;
   write_file report report_notebook) w
  = (Ok tt,
     {| files := Fs.remove (report_file a)
                   (Fs.put (prelab_file a) (File prelab_notebook) (files w))
                 ++ [(report_file a, File report_notebook)];
        copied := copied w |}).
Proof.
  intros Hnd Hv Hlab HP HR.
  pose proof (ipynb_name_valid "relab" "p" (lab_number a) eq_refl ltac:(done)) as HvP.
  pose proof (ipynb_name_valid "ab Report " "L" (lab_number a) eq_refl ltac:(done)) as HvR.
  pose proof (resolve_lab_dir a Hv) as Hl.
  assert (prelab_file a ≠ []) as HPn by (unfold prelab_file; by destruct (lab_path a)).
  assert (report_file a ≠ []) as HRn by (unfold report_file; by destruct (lab_path a)).
  assert (report_file a ≠ prelab_file a) as Hne.
  { unfold report_file, prelab_file. intros H. apply app_inv_head in H.
    by injection H. }
  assert (lab_path a ≠ prelab_file a ∧ lab_path a ≠ report_file a) as [HlP HlR].
  { unfold prelab_file, report_file.
    split; intros H; apply (f_equal length) in H; rewrite length_app in H;
      simpl in H; lia. }
  unfold bind at 1.
  rewrite (write_file_put _ (prelab_file a));
    [| apply join_nonempty, HvP
     | unfold prelab_file; by rewrite resolve_join, Hl
     | done | done
     | unfold prelab_file; by rewrite parent_snoc ].
  set (t1 := Fs.put (prelab_file a) (File prelab_notebook) (files w)).
  assert (NoDup (t1.*1)) as Hnd1 by (by apply put_keys_NoDup).
  assert (Fs.node_at t1 (lab_path a) = Some Dir) as Hlab1.
  { unfold t1. by rewrite node_at_put_ne. }
  assert (Fs.lookup t1 (report_file a) = Fs.lookup (files w) (report_file a)) as HR1.
  { unfold t1. by rewrite lookup_put_ne. }
  set (report := OsPath.join (lab_dir a)
                   ("Lab Report " +:+ str_of_int (lab_number a) +:+ ".ipynb")).
  assert (report ≠ "") as Hrne by (apply join_nonempty, HvR).
  assert (Fs.resolve cwd report = report_file a) as Hrr.
  { unfold report, report_file. by rewrite resolve_join, Hl. }
  cbv zeta. fold report. unfold bind at 1. unfold path_exists, exists_in. simpl files.
  rewrite decide_False, Hrr by done. rewrite node_at_lookup by done.
  destruct (Fs.lookup t1 (report_file a)) as [[c1|]|] eqn:E.
  - rewrite bool_decide_eq_true_2 by done. unfold when at 1. unfold bind at 1.
    unfold os_remove. simpl files. rewrite decide_False, Hrr by done.
    rewrite node_at_lookup, E by done. simpl copied.
    rewrite (write_file_put _ (report_file a)); [| done | done | done | |].
    + simpl. unfold Fs.put. by rewrite lookup_remove_eq.
    + simpl. by rewrite lookup_remove_eq.
    + simpl files. unfold report_file at 2. rewrite parent_snoc.
      by rewrite node_at_remove_ne.
  - congruence.
  - rewrite bool_decide_eq_false_2 by (by intros [? ?]). unfold when at 1.
    unfold bind at 1. unfold ret.
    rewrite (write_file_put _ (report_file a)); [| done | done | done | |].
    + simpl. unfold Fs.put. rewrite E. by rewrite remove_absent.
    + simpl. by rewrite E.
    + simpl. unfold report_file. by rewrite parent_snoc.
Qed.

Lemma skeleton_nonempty (a : Args) : Forall (λ p, p ≠ []) (skeleton a).
Proof.
  unfold skeleton. apply Forall_app. split.
  - repeat constructor; unfold lab_path; by destruct cwd.
  - apply Forall_fmap, Forall_forall. intros i _. simpl.
    unfold lab_path. by destruct cwd.
Qed.

Lemma notebook_not_skeleton (a : Args) (x : string) :
  (12 ≤ String.length x)%nat → lab_path a ++ [x] ∉ skeleton a.
Proof.
  intros Hx. unfold skeleton. rewrite elem_of_app, !elem_of_cons, elem_of_nil.
  intros [[H|[H|[H|[H|[]]]]] | (i & H & _)%list_elem_of_fmap].
  - apply (f_equal length) in H. rewrite length_app in H. simpl in H. lia.
  - apply app_inv_head in H. injection H as ->. simpl in Hx. lia.
  - apply app_inv_head in H. injection H as ->. simpl in Hx. lia.
  - apply app_inv_head in H. injection H as ->. simpl in Hx. lia.
  - apply (f_equal length) in H. rewrite !length_app in H. simpl in H. lia.
Qed.

Lemma notebook_names_long (a0 : string) (n : Z) :
  (6 ≤ String.length a0)%nat →
  (12 ≤ String.length (a0 +:+ str_of_int n +:+ ".ipynb"))%nat.
Proof. intros H. rewrite !length_sapp. simpl. lia. Qed.

(** X12: With [-p] and [-g] (and names and ids as the checks want them), in
    a file system where no file stands in the way of the directories
    and no directory in the way of the notebooks: the script makes the
    missing directories, writes the pre-lab notebook (in place when it
    was there, else last in the lab directory), removes an old report
    and writes the new one last; both files then hold the generated
    notebooks, and nothing is copied. *)
Theorem notebooks_written (a : Args) (w : world) :
  Fs.wf (files w) → Forall valid_name cwd → Fs.node_at (files w) cwd = Some Dir →
  (∀ p, p ∈ skeleton a →
        Fs.node_at (files w) p = None ∨ Fs.node_at (files w) p = Some Dir) →
  c a = false → prelab_only a = true → generate_notebooks a = true →
  falsy (student_names a) = false → falsy (student_ids a) = false →
  len (student_names a) = len (student_ids a) →
  Fs.node_at (files w) (prelab_file a) ≠ Some Dir →
  Fs.node_at (files w) (report_file a) ≠ Some Dir →
  let t1 := Fs.put (prelab_file a) (File prelab_notebook)
                   (with_dirs (skeleton a) (files w)) in
  let t2 := Fs.remove (report_file a) t1 ++ [(report_file a, File report_notebook)] in
  main a w = (Ok tt, {| files := t2; copied := copied w |})
  ∧ Fs.lookup t2 (prelab_file a) = Some (File prelab_notebook)
  ∧ Fs.lookup t2 (report_file a) = Some (File report_notebook).
Proof.
  intros [Hnd _] Hv Hc Hk Hco Hp Hg Hn Hi Hlen HP HR t1 t2.
  assert (prelab_file a ∉ skeleton a) as HPs.
  { apply notebook_not_skeleton. by apply (notebook_names_long "prelab"). }
  assert (report_file a ∉ skeleton a) as HRs.
  { apply notebook_not_skeleton. apply (notebook_names_long "Lab Report "). simpl. lia. }
  assert (prelab_file a ≠ []) as HPn by (unfold prelab_file; by destruct (lab_path a)).
  assert (report_file a ≠ []) as HRn by (unfold report_file; by destruct (lab_path a)).
  assert (NoDup ((with_dirs (skeleton a) (files w)).*1)) as Hnd'.
  { apply with_dirs_keys_NoDup; [done | apply skeleton_NoDup | apply skeleton_nonempty]. }
  assert (prelab_file a ≠ report_file a) as Hne.
  { unfold report_file, prelab_file. intros H. apply app_inv_head in H.
    by injection H. }
  split; [|split].
  - unfold main, bind at 1.
    rewrite check_args_valid; [| done | rewrite Hco; by intros [_ ?]].
    rewrite Hco, scaffold_unfold. unfold bind at 1.
    rewrite skeleton_run by done. rewrite Hp, Hg. simpl negb.
    unfold when at 1. unfold bind at 1. unfold ret. unfold when at 1.
    rewrite notebook_block; [done | done | done | | |]; simpl files.
    + rewrite node_at_with_dirs.
      assert (lab_path a ∈ skeleton a) as Hin by (unfold skeleton; by left).
      destruct (Hk _ Hin) as [-> | ->]; [by rewrite decide_True | done].
    + rewrite <- node_at_lookup, node_at_with_dirs by done.
      destruct (Fs.node_at (files w) (prelab_file a)); [done|].
      by rewrite decide_False.
    + rewrite <- node_at_lookup, node_at_with_dirs by done.
      destruct (Fs.node_at (files w) (report_file a)); [done|].
      by rewrite decide_False.
  - unfold t2. rewrite lookup_app, lookup_remove_ne by done.
    unfold t1. by rewrite lookup_put_eq.
  - unfold t2. rewrite lookup_app, lookup_remove_eq.
    + simpl. by rewrite decide_True.
    + unfold t1. by apply put_keys_NoDup.
Qed.

(** ** The copy-only mode *)

(** X13: With [-c] the destination handed to [copy_scope_data] is the flag
    itself: whenever the checks pass and the copier is made, the script
    ends in TypeError at the first [os.path.join] (in FileNotFoundError
    if the standard output, descriptor 1, is closed), and nothing is
    created or copied, whatever is on the drive. *)
Theorem copy_only_never_copies (a : Args) (w : world) (self : Copier) :
  c a = true → prelab_only a = false →
  (generate_notebooks a = true →
     falsy (student_names a) = false ∧ falsy (student_ids a) = false
     ∧ len (student_names a) = len (student_ids a)) →
  Copier_init (drive_name a) w = (Ok self, w) →
  main a w = (Raise (if fd_open 1 then TypeError else FileNotFoundError), w).
Proof.
  intros Hc Hp Hg Hi. unfold main, bind at 1.
  rewrite check_args_valid; [| done | rewrite Hp; by intros [? _]].
  rewrite Hc. unfold bind at 1. rewrite Hi.
  unfold copy_scope_data, bind, path_exists.
  by destruct (fd_open 1).
Qed.

(** ** The copy into [scope] *)

Global Instance same_log_preorder : PreOrder same_log.
Proof.
  split; [by intros w|]. intros w1 w2 w3 H1 H2. unfold same_log in *. congruence.
Qed.

Lemma write_file_log (s0 c0 : string) : preserves same_log (write_file s0 c0).
Proof.
  intros w. unfold write_file. destruct (decide _); [done|].
  by destruct (write_at _ _ _).
Qed.

Lemma os_remove_log (s0 : string) : preserves same_log (os_remove s0).
Proof.
  intros w. unfold os_remove. destruct (decide _); [done|].
  by destruct (Fs.node_at _ _) as [[?|]|].
Qed.

Lemma with_dirs_wf (a : Args) (t : tree) :
  Fs.wf t → Forall valid_name cwd → Fs.node_at t cwd = Some Dir →
  (∀ p, p ∈ skeleton a → Fs.node_at t p = None ∨ Fs.node_at t p = Some Dir) →
  Fs.wf (with_dirs (skeleton a) t).
Proof.
  intros [Hnd Hall] Hv Hc Hk. split.
  - apply with_dirs_keys_NoDup; [done | apply skeleton_NoDup | apply skeleton_nonempty].
  - assert (∀ q, Fs.node_at t q = Some Dir
                 → Fs.node_at (with_dirs (skeleton a) t) q = Some Dir) as Hkeep.
    { intros q Hq. by rewrite node_at_with_dirs, Hq. }
    unfold with_dirs at 2. apply Forall_app. split.
    + eapply Forall_impl; [exact Hall|]. intros e (? & ? & ?). auto.
    + apply Forall_fmap, Forall_forall.
      intros p [Hnone Hin]%list_elem_of_filter. simpl.
      pose proof (skeleton_nonempty a) as Hne. rewrite Forall_forall in Hne.
      split; [by apply Hne|]. split.
      * pose proof (skeleton_resolved a Hv) as HF.
        apply list_elem_of_lookup in Hin as [i Hi].
        destruct (Forall2_lookup_r _ _ _ _ _ HF Hi) as (d & Hd & _ & Hr & _).
        unfold skeleton in Hi.
        assert (Forall valid_name (lab_path a)) as Hlv.
        { unfold lab_path. apply Forall_app. split; [done|].
          apply Forall_singleton, lab_name_valid. }
        destruct i as [|[|[|[|i]]]]; simpl in Hi.
        -- by injection Hi as <-.
        -- injection Hi as <-. apply Forall_app. split; [done|]. by repeat constructor.
        -- injection Hi as <-. apply Forall_app. split; [done|]. by repeat constructor.
        -- injection Hi as <-. apply Forall_app. split; [done|]. by repeat constructor.
        -- rewrite list_lookup_fmap in Hi.
           destruct (range_from_1 (num_exercises a) !! i) as [k|]; [|done].
           injection Hi as <-. apply Forall_app. split; [done|].
           constructor; [done|]. constructor; [apply exp_name_valid | constructor].
      * apply list_elem_of_lookup in Hin as [i Hi].
        destruct (skeleton_parents a t i p Hc Hi) as [H|H]; [by apply Hkeep|].
        apply elem_of_take in H as (j & Hj & _).
        apply list_elem_of_lookup_2 in Hj.
        rewrite node_at_with_dirs.
        destruct (Hk _ Hj) as [-> | ->]; [by rewrite decide_True | done].
Qed.

(** X14: Without [-p] (and without [-c]) the script copies into [scope] of
    the lab directory with the defaults of [copy_scope_data]: once the
    directories are made and the copier is, and when no selected folder
    has a wildcard ([*], [?], [[]) in its name, every [shutil.copy] call
    the run completes, whatever its outcome, is of a picture of a
    selected folder with target argument
    [scope/jpgs/<folder, lower-cased>.jpg] or of a CSV file of a
    selected folder with its new name in [scope] itself as target
    argument. *)
Theorem main_copies_into_scope (a : Args) (w : world) (self : Copier) :
  Fs.wf (files w) → Forall valid_name cwd → Fs.node_at (files w) cwd = Some Dir →
  (∀ p, p ∈ skeleton a →
        Fs.node_at (files w) p = None ∨ Fs.node_at (files w) p = Some Dir) →
  c a = false → prelab_only a = false →
  (generate_notebooks a = true →
     falsy (student_names a) = false ∧ falsy (student_ids a) = false
     ∧ len (student_names a) = len (student_ids a)) →
  let w1 := {| files := with_dirs (skeleton a) (files w); copied := copied w |} in
  Copier_init (drive_name a) w1 = (Ok self, w1) →
  (∀ part, part ∈ exercise_parts self → Fnmatch.has_magic part = false) →
  ∃ l, copied (main a w).2 = copied w ++ l
       ∧ Forall (saved_as (OsPath.join (lab_dir a) "scope") false true
                          (exercise_parts self)) l.
Proof.
  intros Hwf Hv Hc Hk Hco Hp Hg w1 Hi Hnm.
  assert (Fs.wf (files w1)) as Hwf1 by (by apply with_dirs_wf).
  pose proof (Copier_init_good_parts _ _ _ _ Hwf1 Hi) as Hgood.
  pose proof (copy_scope_data_layout self (OsPath.join (lab_dir a) "scope")
                false true true (verbose a) false Hgood Hnm w1) as Hev.
  unfold main, bind at 1.
  rewrite check_args_valid; [| done | rewrite Hp; by intros [? _]].
  rewrite Hco, scaffold_unfold. unfold bind at 1.
  rewrite skeleton_run by done. fold w1. rewrite Hp. simpl negb. unfold when at 1.
  unfold bind at 1. unfold bind at 1. rewrite Hi.
  assert (is_Some (Fs.node_at (files w1)
                     (Fs.resolve cwd (OsPath.join (lab_dir a) "scope")))) as Hd.
  { rewrite resolve_join, resolve_lab_dir by done.
    unfold w1. simpl. rewrite node_at_with_dirs.
    destruct (Fs.node_at (files w) (lab_path a ++ ["scope"])); [done|].
    rewrite decide_True; [done|]. unfold skeleton. do 3 right. by left. }
  destruct (Hev Hwf1 Hd) as (_ & l & Hl & HP).
  destruct (copy_scope_data _ _ _ _ _ _ _ w1) as [[[]|e] w2]; simpl in Hl.
  - exists l. split; [|done]. rewrite <- Hl.
    apply (preserves_when same_log). unfold when.
    apply preserves_bind; [apply _ | apply write_file_log |]. intros _.
    apply preserves_bind; [apply _ | by intros ? |]. intros found.
    apply preserves_bind; [apply _ | | intros _; apply write_file_log].
    destruct found; [apply os_remove_log | done].
  - exists l. by split.
Qed.

(** ** Saving a file onto itself *)

(** X15: [File.save] into the directory the file is in, under the name it
    has: [shutil.copy] refuses with SameFileError and nothing changes
    (what happens to a CSV file when its own folder is the destination
    and it is not renamed). *)
Theorem save_onto_itself (f : FileObj) (tsp : string) (verbose : bool)
    (w : world) (c0 : string) :
  tsp ≠ "" → is_Some (Fs.node_at (files w) (Fs.resolve cwd tsp)) →
  valid_name (name f) → location f ≠ "" →
  Fs.node_at (files w) (Fs.resolve cwd (location f)) = Some (File c0) →
  Fs.resolve cwd (location f) = Fs.resolve cwd tsp ++ [name f] →
  File_save f (PStr tsp) verbose false w = (Raise SameFileError, w).
Proof.
  intros Ht Hd Hv Hl Hsrc Heq. rewrite File_save_spec.
  replace (exists_in (files w) tsp) with true by (symmetry; by apply exists_in_spec).
  unfold shutil_copy.
  assert (OsPath.join tsp (name f) ≠ "") as Hj by (apply join_nonempty, Hv).
  assert (isdir_in (files w) (OsPath.join tsp (name f)) = false) as ->.
  { unfold isdir_in. rewrite decide_False by done.
    rewrite resolve_join, <- Heq, Hsrc by done. by apply bool_decide_eq_false. }
  rewrite resolve_join, <- Heq by done.
  replace (exists_in (files w) (location f)) with true
    by (symmetry; apply exists_in_spec; by rewrite Hsrc).
  replace (exists_in (files w) (OsPath.join tsp (name f))) with true
    by (symmetry; apply exists_in_spec; by rewrite resolve_join, <- Heq, Hsrc).
  by rewrite bool_decide_eq_true_2.
Qed.

(** ** A folder without a picture stops the run before any CSV file *)

Lemma mkdir_path_not_index (p : path) (w : world) :
  (mkdir_path p w).1 ≠ Raise IndexError.
Proof.
  unfold mkdir_path. destruct (Fs.node_at (files w) p); [done|].
  by destruct (Fs.node_at (files w) (Fs.parent p)) as [[?|]|].
Qed.

Lemma makedirs_rev_not_index (rp : list string) (w : world) :
  (makedirs_rev rp w).1 ≠ Raise IndexError.
Proof.
  revert w. induction rp as [|x h IH]; intros w; [apply mkdir_path_not_index|].
  simpl. unfold bind at 1.
  destruct (bool_decide (h ≠ []) && bool_decide (Fs.node_at (files w) (rev h) = None));
    simpl; [|apply mkdir_path_not_index].
  unfold ignoring. specialize (IH w).
  destruct (makedirs_rev h w) as [[[]|e] w1]; simpl in IH |- *;
    [apply mkdir_path_not_index|].
  destruct (decide (e = FileExistsError)); simpl; [apply mkdir_path_not_index|].
  congruence.
Qed.

Lemma ensure_not_index (s0 : string) (w : world) :
  ((when (negb (exists_in (files w) s0)) (makedirs (PStr s0))) w).1 ≠ Raise IndexError.
Proof.
  destruct (negb _); [|done]. unfold when, makedirs, bind, as_str, ret. simpl.
  destruct (decide _); [done | apply makedirs_rev_not_index].
Qed.

Lemma File_save_not_index (f : FileObj) (tsp : string) (verbose softrun : bool)
    (w : world) :
  (File_save f (PStr tsp) verbose softrun w).1 ≠ Raise IndexError.
Proof.
  rewrite File_save_spec. destruct (exists_in (files w) tsp); [|done].
  destruct softrun; [done|]. unfold shutil_copy.
  destruct (_ && _); [done|]. destruct (decide _); [done|].
  destruct (Fs.node_at (files w) _) as [[c1|]|]; [|done|done].
  unfold write_at.
  destruct (Fs.node_at (files w) _) as [[c2|]|]; [done | done |].
  by destruct (Fs.node_at (files w) _) as [[c3|]|].
Qed.

Lemma bind_not_index {A B} (rm : bool) (d : path) (P : string * string → Prop)
    (m : M A) (k : A → M B) (w : world) :
  Fs.wf (files w) → is_Some (Fs.node_at (files w) d) →
  evolves rm d P w (m w).2 →
  (m w).1 ≠ Raise IndexError →
  (∀ a w1, Fs.wf (files w1) → is_Some (Fs.node_at (files w1) d) →
           (k a w1).1 ≠ Raise IndexError) →
  (bind m k w).1 ≠ Raise IndexError.
Proof.
  intros Hwf Hd Hev Hm Hk. unfold bind.
  pose proof (evolves_keeps rm d P (files w) w (m w).2 Hev
                (conj Hwf (conj Hd eq_refl))) as (Hwf1 & Hd1 & _).
  destruct (m w) as [[a|e] w1]; simpl in *; [by apply Hk|].
  intros [= ->]. by apply Hm.
Qed.

Lemma for_each_not_index {A} (rm : bool) (d : path) (P : string * string → Prop)
    (l : list A) (body : A → M unit) (w : world) :
  Fs.wf (files w) → is_Some (Fs.node_at (files w) d) →
  (∀ x, x ∈ l → preserves (evolves rm d P) (body x)) →
  (∀ x w1, x ∈ l → Fs.wf (files w1) → is_Some (Fs.node_at (files w1) d) →
           (body x w1).1 ≠ Raise IndexError) →
  (for_each l body w).1 ≠ Raise IndexError.
Proof.
  revert w. induction l as [|x l IH]; intros w Hwf Hd Hev Hb; [done|].
  simpl. apply (bind_not_index rm d P); try done.
  - apply (Hev x). by left.
  - apply Hb; [by left | done | done].
  - intros _ w1 Hwf1 Hd1. apply IH; try done.
    + intros y Hy. apply Hev. by right.
    + intros y w2 Hy. apply Hb. by right.
Qed.

Lemma csv_one_not_index (tsp : string) (rn verbose : bool) (part n : string)
    (w : world) :
  good_part part → valid_name n →
  ((let* f := CSVFile_init (part +:+ "/" +:+ n) rn in
    File_save f (PStr tsp) verbose false) w).1 ≠ Raise IndexError.
Proof.
  intros Hp Hn. unfold bind. rewrite (CSVFile_init_part part n rn w Hp Hn).
  destruct (exists_in (files w) _); [apply File_save_not_index | done].
Qed.

Lemma csv_loop_not_index (d : path) (tsp : string)
    (rn verbose : bool) (part : string) (w : world) :
  good_part part → Fnmatch.has_magic part = false → target_dir cwd d tsp →
  Fs.wf (files w) → is_Some (Fs.node_at (files w) d) →
  (bind (glob (OsPath.join part "*.CSV"))
        (λ csvs, for_each csvs (λ csv_file,
           let* f := CSVFile_init csv_file rn in
           File_save f (PStr tsp) verbose false)) w).1 ≠ Raise IndexError.
Proof.
  intros Hp Hnm Ht Hwf Hd. unfold bind at 1.
  rewrite (glob_good_part part "*.CSV" w Hp pattern_csv Hwf), Hnm.
  apply (for_each_not_index false d (λ _, True)); try done.
  - intros csv (n & -> & Hn)%list_elem_of_fmap.
    apply (matching_names _ _ _ _ Hwf) in Hn as (Hv & Hm & _).
    intros w1. unfold bind. rewrite (CSVFile_init_part part n rn w1 Hp Hv).
    destruct (exists_in (files w1) _); [|reflexivity].
    by apply File_save_evolves; [| apply good_file_csv |].
  - intros csv w1 (n & -> & Hn)%list_elem_of_fmap _ _.
    apply (matching_names _ _ _ _ Hwf) in Hn as (Hv & _ & _).
    by apply csv_one_not_index.
Qed.

Lemma save_csvs_of_not_index (dest : string)
    (cf rn verbose : bool) (part : string) (w : world) :
  dest ≠ "" → good_part part → Fnmatch.has_magic part = false →
  Fs.wf (files w) → is_Some (Fs.node_at (files w) (Fs.resolve cwd dest)) →
  (save_csvs_of (PStr dest) cf rn verbose false part w).1 ≠ Raise IndexError.
Proof.
  intros Hne Hp Hnm Hwf Hd. destruct (good_part_facts part Hp) as (_ & _ & Hb & _).
  destruct cf.
  - rewrite save_csvs_of_unfold.
    apply (bind_not_index false (Fs.resolve cwd dest) (λ _, True)); try done.
    + by apply ensure_evolves.
    + apply ensure_not_index.
    + intros _ w1 Hwf1 Hd1.
      apply (bind_not_index false (Fs.resolve cwd dest) (λ _, True)); try done.
      * apply csv_loop_frame; [done | by apply target_dir_join].
      * apply (csv_loop_not_index (Fs.resolve cwd dest)); try done.
        by apply target_dir_join.
  - rewrite save_csvs_of_flat.
    apply (csv_loop_not_index (Fs.resolve cwd dest)); try done.
    by apply target_dir_dest.
Qed.

(** X16: When no selected folder has a wildcard ([*], [?], [[]) in its
    name and [copy_scope_data] (not a soft run) ends in IndexError, a
    selected folder had no picture to save: [save_jpg] was set, the
    copies made before the error are of [*.JPG] files directly in
    selected folders, and no CSV file of any folder has been copied. *)
Theorem index_error_before_csv (drive dest : string) (self : Copier)
    (cf rn sj verbose : bool) (w w' : world) :
  Fs.wf (files w) → Copier_init drive w = (Ok self, w) →
  (∀ part, part ∈ exercise_parts self → Fnmatch.has_magic part = false) →
  copy_scope_data self (PStr dest) cf rn sj verbose false w = (Raise IndexError, w') →
  sj = true
  ∧ ∃ l, copied w' = copied w ++ l
         ∧ Forall (found_in (exercise_parts self) "*.JPG") l.
Proof.
  intros Hwf Hi Hnm. pose proof (Copier_init_good_parts _ _ _ _ Hwf Hi) as Hgood.
  rewrite Forall_forall in Hgood.
  rewrite copy_scope_data_unfold.
  destruct (exists_in (files w) dest) eqn:Hex; [|done].
  apply exists_in_spec in Hex as [Hne Hd].
  assert (∀ w1, Fs.wf (files w1) → is_Some (Fs.node_at (files w1) (Fs.resolve cwd dest)) →
            (save_csvs self (PStr dest) cf rn verbose false w1).1 ≠ Raise IndexError)
    as Hcsv.
  { intros w1 Hwf1 Hd1. unfold save_csvs.
    apply (for_each_not_index false (Fs.resolve cwd dest) (λ _, True)); try done.
    - intros part Hin. apply save_csvs_of_evolves; [by apply Hgood|].
      apply csv_loop_frame; [by apply Hgood | apply target_dir_csv; [done|]].
      by apply Hgood.
    - intros part w2 Hin Hwf2 Hd2.
      apply save_csvs_of_not_index; try done; [by apply Hgood | by apply Hnm]. }
  unfold bind. destruct sj; simpl.
  - assert (preserves (evolves false (Fs.resolve cwd dest)
                               (found_in (exercise_parts self) "*.JPG"))
                      (save_jpgs self (PStr dest) verbose false)) as Hev.
    { apply save_jpgs_evolves. intros part Hin.
      apply save_jpg_of_evolves;
        [by apply Hgood | by apply Hnm | by apply target_dir_join |].
      intros n Hv _ Hm. by exists part, n. }
    specialize (Hev w).
    pose proof (evolves_keeps _ _ _ (files w) _ _ Hev (conj Hwf (conj Hd eq_refl)))
      as (Hwf1 & Hd1 & _).
    destruct (Hev Hwf Hd) as (_ & l & Hl & HP).
    destruct (save_jpgs self (PStr dest) verbose false w) as [[[]|e] w1]; simpl in *.
    + intros H. by destruct (Hcsv w1 Hwf1 Hd1); rewrite H.
    + intros [= -> ->]. split; [done|]. by exists l.
  - intros H. by destruct (Hcsv w Hwf Hd); rewrite H.
Qed.

(** ** Where the contents of the saved files come from *)

Global Instance keeps_preorder (d : path) (parts : list string) (t0 : tree) :
  PreOrder (keeps d parts t0).
Proof.
  split; [intros w H; exact H | intros w1 w2 w3 H1 H2 H; exact (H2 (H1 H))].
Qed.


(** A step that keeps the files as they are. *)
Lemma keeps_same_files (rm : bool) (d : path) (P : string * string → Prop)
    (parts : list string) (t0 : tree) (w w' : world) :
  evolves rm d P w w' → same_files w w' → keeps d parts t0 w w'.
Proof.
  intros Hev Hsf. unfold keeps. intros (Hwf & Hd & Ho & Hp).
  destruct (evolves_keeps rm d P t0 w w' Hev (conj Hwf (conj Hd Ho))) as (? & ? & ?).
  split; [done|]. split; [done|]. split; [done|].
  intros q c0 Hl. apply Hp. apply (same_files_lookup w w'); try done. apply Hwf.
Qed.

(** Saving a file of a selected folder that is not below [d]. *)
Lemma File_save_keeps (d : path) (parts : list string) (t0 : tree) (f : FileObj)
    (tsp part n : string) (verbose : bool) :
  target_dir cwd d tsp → good_file f → part ∈ parts →
  Fnmatch.fnmatch "*.JPG" n = true ∨ Fnmatch.fnmatch "*.CSV" n = true →
  Fs.resolve cwd (location f) = Fs.resolve cwd part ++ [n] →
  ¬ d `prefix_of` Fs.resolve cwd part →
  preserves (keeps d parts t0) (File_save f (PStr tsp) verbose false).
Proof.
  intros Ht Hgf Hin Hpat Hloc Hsep w. unfold keeps. intros Hk.
  pose proof Hk as (Hwf & Hd & Ho & Hp).
  pose proof (File_save_evolves false d (λ _, True) f tsp verbose false Ht Hgf I w) as Hev.
  destruct (evolves_keeps false d _ t0 w _ Hev (conj Hwf (conj Hd Ho))) as (Hwf' & Hd' & Ho').
  split; [done|]. split; [done|]. split; [done|].
  destruct Hgf as (Hl & Hn & Hb).
  assert (Fs.resolve cwd tsp ++ [name f] ≠ []) as Hne
    by (by destruct (Fs.resolve cwd tsp)).
  rewrite File_save_spec.
  destruct (exists_in (files w) tsp); [|done].
  rewrite shutil_copy_tree; [| done | apply join_nonempty; by destruct Hn | done].
  rewrite resolve_join by done.
  destruct (copy_tree _ _ _ _) as [e|t'] eqn:E; [done|]. simpl.
  unfold copy_tree in E.
  destruct (_ && _); [done|].
  destruct (Fs.node_at (files w) (Fs.resolve cwd (location f))) as [[c1|]|] eqn:Es;
    [|done|done].
  assert (Fs.lookup t0 (Fs.resolve cwd part ++ [n]) = Some (File c1)) as Hsrc.
  { rewrite <- (outside_lookup d t0 (files w)) by (done || by apply not_below_child).
    rewrite <- Hloc, <- node_at_lookup; [done|]. rewrite Hloc.
    by destruct (Fs.resolve cwd part). }
  intros q c0 Hq.
  rewrite (write_at_lookup _ _ _ _
             (if_nonempty _ _ _ (snoc_nonempty _ _) Hne) E) in Hq.
  destruct (decide _) as [->|_].
  - injection Hq as <-. right. by exists part, n.
  - by apply Hp.
Qed.

Lemma ensure_keeps (parts : list string) (t0 : tree) (dest x : string) (w : world) :
  valid_name x →
  keeps (Fs.resolve cwd dest) parts t0 w
    ((when (negb (exists_in (files w) (OsPath.join dest x)))
           (makedirs (PStr (OsPath.join dest x)))) w).2.
Proof.
  intros Hx. apply (keeps_same_files false _ (λ _, True)); [by apply ensure_evolves|].
  apply (preserves_when same_files). apply makedirs_same_files.
Qed.

Lemma save_jpg_of_keeps (d : path) (parts : list string) (t0 : tree)
    (tsp : string) (verbose : bool) (part : string) :
  good_part part → Fnmatch.has_magic part = false → part ∈ parts →
  ¬ d `prefix_of` Fs.resolve cwd part → target_dir cwd d tsp →
  preserves (keeps d parts t0) (save_jpg_of tsp verbose false part).
Proof.
  intros Hp Hnm Hin Hsep Ht w. unfold keeps. intros Hk. pose proof Hk as (Hwf & _).
  rewrite save_jpg_of_spec, Hnm by done.
  destruct (matching _ _) as [|n l] eqn:E; [done|].
  assert (n ∈ matching "*.JPG" (dir_names (files w) (Fs.resolve cwd part))) as Hn.
  { rewrite E. by left. }
  apply (matching_names _ _ _ _ Hwf) in Hn as (Hv & Hm & _).
  apply (File_save_keeps d parts t0 _ tsp part n verbose); try done.
  - by apply good_file_jpg.
  - by left.
  - simpl. by apply resolve_part_file.
Qed.

Lemma csv_loop_keeps (d : path) (parts : list string) (t0 : tree)
    (tsp : string) (rn verbose : bool) (part : string) :
  good_part part → Fnmatch.has_magic part = false → part ∈ parts →
  ¬ d `prefix_of` Fs.resolve cwd part → target_dir cwd d tsp →
  preserves (keeps d parts t0)
    (bind (glob (OsPath.join part "*.CSV"))
          (λ csvs, for_each csvs (λ csv_file,
             let* f := CSVFile_init csv_file rn in
             File_save f (PStr tsp) verbose false))).
Proof.
  intros Hp Hnm Hin Hsep Ht w. unfold keeps. intros Hk. pose proof Hk as (Hwf & _).
  unfold bind at 1. rewrite (glob_good_part part "*.CSV" w Hp pattern_csv Hwf), Hnm.
  revert Hk. apply (preserves_for_each (keeps d parts t0)).
  intros csv (n & -> & Hn)%list_elem_of_fmap.
  apply (matching_names _ _ _ _ Hwf) in Hn as (Hv & Hm & _).
  intros w1. unfold bind. rewrite (CSVFile_init_part part n rn w1 Hp Hv).
  destruct (exists_in (files w1) _); [|reflexivity].
  apply (File_save_keeps d parts t0 _ tsp part n verbose); try done.
  - by apply good_file_csv.
  - by right.
  - simpl. by apply resolve_part_file.
Qed.

Lemma copy_scope_data_keeps (self : Copier) (dest : string)
    (cf rn sj verbose : bool) (t0 : tree) :
  Forall good_part (exercise_parts self) →
  (∀ part, part ∈ exercise_parts self → Fnmatch.has_magic part = false) →
  (∀ part, part ∈ exercise_parts self →
           ¬ Fs.resolve cwd dest `prefix_of` Fs.resolve cwd part) →
  preserves (keeps (Fs.resolve cwd dest) (exercise_parts self) t0)
            (copy_scope_data self (PStr dest) cf rn sj verbose false).
Proof.
  intros Hgood Hnm Hsep w. rewrite Forall_forall in Hgood. rewrite copy_scope_data_unfold.
  destruct (exists_in (files w) dest) eqn:Hex; [|reflexivity].
  apply exists_in_spec in Hex as [Hne _].
  apply bind_world; [apply _ | |].
  - destruct sj; [|reflexivity]. simpl. rewrite save_jpgs_unfold.
    apply bind_world; [apply _ | by apply ensure_keeps |]. intros _.
    apply bind_world; [apply _ | | intros _; reflexivity].
    apply preserves_for_each; [apply _|]. intros part Hin.
    apply save_jpg_of_keeps;
      [by apply Hgood | by apply Hnm | done | by apply Hsep | by apply target_dir_join].
  - intros _. unfold save_csvs.
    apply (preserves_for_each (keeps (Fs.resolve cwd dest) (exercise_parts self) t0)).
    intros part Hin w1. pose proof (Hgood part Hin) as Hp.
    destruct (good_part_facts part Hp) as (_ & _ & Hb & _).
    destruct cf.
    + rewrite save_csvs_of_unfold.
      apply bind_world; [apply _ | by apply ensure_keeps |]. intros _.
      apply bind_world; [apply _ | | intros _; reflexivity].
      apply csv_loop_keeps;
        [done | by apply Hnm | done | by apply Hsep | by apply target_dir_join].
    + rewrite save_csvs_of_flat.
      apply csv_loop_keeps;
        [done | by apply Hnm | done | by apply Hsep | by apply target_dir_dest].
Qed.

(** X17: With no wildcard ([*], [?], [[]) in the name of a selected
    folder and the selected folders not at or below the destination, a
    run of [copy_scope_data] (not a soft run), whatever its outcome,
    leaves every file with what it held before or with what a [*.JPG] or
    [*.CSV] file directly in a selected folder held before the run: no
    other content is ever written. *)
Theorem content_from_drive (drive dest : string) (self : Copier)
    (cf rn sj verbose : bool) (w : world) :
  Fs.wf (files w) → Copier_init drive w = (Ok self, w) →
  (∀ part, part ∈ exercise_parts self → Fnmatch.has_magic part = false) →
  (∀ part, part ∈ exercise_parts self →
           ¬ Fs.resolve cwd dest `prefix_of` Fs.resolve cwd part) →
  ∀ q c0,
    Fs.lookup (files (copy_scope_data self (PStr dest) cf rn sj verbose false w).2) q
      = Some (File c0) →
    Fs.lookup (files w) q = Some (File c0)
    ∨ drive_file (exercise_parts self) (files w) c0.
Proof.
  intros Hwf Hi Hnm Hsep.
  pose proof (Copier_init_good_parts _ _ _ _ Hwf Hi) as Hgood.
  pose proof (copy_scope_data_keeps self dest cf rn sj verbose (files w)
                Hgood Hnm Hsep w) as Hk.
  rewrite copy_scope_data_unfold in Hk |- *.
  destruct (exists_in (files w) dest) eqn:Hex; [|by left].
  apply exists_in_spec in Hex as [_ Hd].
  apply Hk. split; [done|]. split; [done|]. split; [done|].
  intros q c0 Hq. by left.
Qed.

(** ** Nothing is removed *)

(** X18: A run of [copy_scope_data] that is not a soft run, whatever its
    outcome, removes no entry and never turns a file into a directory
    or a directory into a file: what was a file is a file (maybe with
    new content), what was a directory is one. *)
Theorem nothing_removed (drive dest : string) (self : Copier)
    (cf rn sj verbose : bool) (w : world) (q : path) (k : bool) :
  Fs.wf (files w) → Copier_init drive w = (Ok self, w) →
  is_dir <$> Fs.lookup (files w) q = Some k →
  is_dir <$> Fs.lookup
               (files (copy_scope_data self (PStr dest) cf rn sj verbose false w).2) q
  = Some k.
Proof.
  intros Hwf Hi Hq.
  pose proof (Copier_init_good_parts _ _ _ _ Hwf Hi) as Hgood.
  pose proof (copy_scope_data_frame self dest cf rn sj verbose false Hgood w) as Hev.
  rewrite copy_scope_data_unfold in Hev |- *.
  destruct (exists_in (files w) dest) eqn:Hex; [|done].
  apply exists_in_spec in Hex as [_ Hd].
  destruct (Hev Hwf Hd) as [Hsteps _].
  by apply (steps_kind (Fs.resolve cwd dest) (files w)).
Qed.

(** ** A soft run where [jpgs] is already there *)

Lemma save_csvs_flat_softrun_pure (self : Copier) (destination : pyval)
    (rn verbose : bool) :
  preserves eq (save_csvs self destination false rn verbose true).
Proof.
  unfold save_csvs. apply preserves_for_each; [apply _|]. intros part _ w.
  rewrite save_csvs_of_flat.
  apply bind_world; [apply _ | apply glob_pure |]. intros csvs.
  apply preserves_for_each; [apply _|]. intros csv _.
  apply preserves_bind; [apply _ | apply CSVFile_init_pure |]. intros f.
  apply File_save_softrun_pure.
Qed.

(** X19: A soft run does not make [jpgs] when it is there, but removes
    it all the same once the pictures have been gone through: on a
    [jpgs] that holds something (as after a real run) [os.rmdir] fails
    and the soft run ends in an OSError (directory not empty) with
    nothing changed; an empty [jpgs] that was there before is removed
    (and, without [create_folders], that is all the run changes). *)
Theorem softrun_meets_existing_jpgs (self : Copier) (dest : string)
    (cf rn verbose : bool) (w : world) :
  dest ≠ "" → is_Some (Fs.node_at (files w) (Fs.resolve cwd dest)) →
  Fs.node_at (files w) (Fs.resolve cwd dest ++ ["jpgs"]) = Some Dir →
  (for_each (exercise_parts self)
            (save_jpg_of (OsPath.join dest "jpgs") verbose true) w).1 = Ok tt →
  (Fs.children (files w) (Fs.resolve cwd dest ++ ["jpgs"]) ≠ [] →
     copy_scope_data self (PStr dest) cf rn true verbose true w
     = (Raise DirectoryNotEmpty, w))
  ∧ (Fs.children (files w) (Fs.resolve cwd dest ++ ["jpgs"]) = [] → cf = false →
     (copy_scope_data self (PStr dest) cf rn true verbose true w).2
     = {| files := Fs.remove (Fs.resolve cwd dest ++ ["jpgs"]) (files w);
          copied := copied w |}).
Proof.
  intros Hne Hd Hj Hloop.
  assert (OsPath.join dest "jpgs" ≠ "") as Hjn by (by apply join_nonempty).
  assert (Fs.resolve cwd (OsPath.join dest "jpgs") = Fs.resolve cwd dest ++ ["jpgs"])
    as Hr by (by apply resolve_join).
  assert (exists_in (files w) (OsPath.join dest "jpgs") = true) as Hex.
  { apply exists_in_spec. split; [done|]. by rewrite Hr, Hj. }
  assert (for_each (exercise_parts self)
                   (save_jpg_of (OsPath.join dest "jpgs") verbose true) w = (Ok tt, w))
    as Hrun.
  { pose proof (preserves_for_each eq (exercise_parts self)
                  (save_jpg_of (OsPath.join dest "jpgs") verbose true)
                  (λ part _, save_jpg_of_softrun_pure _ verbose part) w) as Hw.
    destruct (for_each _ _ w) as [r w1]. simpl in *. by subst. }
  assert (copy_scope_data self (PStr dest) cf rn true verbose true w
          = bind (rmdir (PStr (OsPath.join dest "jpgs")))
                 (λ _, save_csvs self (PStr dest) cf rn verbose true) w) as Hcopy.
  { rewrite copy_scope_data_unfold.
    replace (exists_in (files w) dest) with true by (symmetry; by apply exists_in_spec).
    unfold bind at 1. simpl when. rewrite save_jpgs_unfold, Hex.
    unfold bind, when, ret. simpl. by rewrite Hrun. }
  rewrite Hcopy. unfold rmdir, as_str, bind, ret.
  rewrite decide_False, Hr, Hj by done.
  split.
  - intros Hch. by destruct (Fs.children _ _).
  - intros -> ->. rewrite decide_False by (by destruct (Fs.resolve cwd dest)).
    symmetry. apply (save_csvs_flat_softrun_pure self (PStr dest) rn verbose).
Qed.

End Program.

Lemma csv_rename_name_witness :
  ∃ f, CSVFile_init [] sample_all_open "/Volumes/D/E1P2/F0000CH1.CSV" true
                    sample_drive_world = (Ok f, sample_drive_world)
       ∧ name f = "e1p2.ch1.csv".
Proof.
  destruct (csv_rename_name [] sample_all_open sample_drive_world
              "/Volumes/D" "E1P2" "F0000CH1.CSV" eq_refl eq_refl eq_refl)
    as (f & Hi & Hn & _).
  exists f. split; [exact Hi | rewrite Hn; reflexivity].
Defined.

Lemma invalid_paths_fail_witness :
  Copier_init [] sample_all_open "NODRIVE" sample_drive_world
    = (Raise FileNotFoundError, sample_drive_world)
  ∧ copy_scope_data [] sample_all_open
      {| drive_location := "/Volumes/D"; exercise_parts := ["/Volumes/D/E1P2"] |}
      (PStr "/missing") false true true false false sample_drive_world
    = (Raise FileNotFoundError, sample_drive_world).
Proof.
  destruct (invalid_paths_fail [] sample_all_open sample_drive_world) as (H1 & _ & H3).
  split; [apply H1 | apply H3]; reflexivity.
Defined.

Lemma invalid_flags_exit_witness :
  main [] sample_all_open "{}" "{}"
       {| lab_number := 1; num_exercises := 2; generate_notebooks := true;
          verbose := false; drive_name := "D"; c := false; prelab_only := false;
          student_names := Some ["Ada"; "Bob"]; student_ids := Some ["A1"] |}
       sample_drive_world
  = (Raise ParserError, sample_drive_world).
Proof.
  apply invalid_flags_exit. right. right. split; [reflexivity | simpl; lia].
Defined.

Lemma softrun_leaves_destination_witness :
  (copy_scope_data [] sample_all_open sample_copier (PStr "/out")
                   true true true false true sample_drive_world).2
  = sample_drive_world.
Proof.
  destruct (softrun_leaves_destination [] sample_all_open sample_copier (PStr "/out")
              true true true false sample_drive_world) as [_ H].
  apply (H "/out" eq_refl).
  - apply (bool_decide_unpack _). vm_compute. exact I.
  - reflexivity.
  - intros _ part Hin. apply list_elem_of_singleton in Hin. subst part. reflexivity.
  - reflexivity.
Defined.



Lemma drive_unchanged_witness :
  inside ["Volumes"; "D"]
         (files (copy_scope_data [] sample_all_open sample_copier (PStr "/out")
                                 false true true false false sample_drive_world).2)
  = inside ["Volumes"; "D"] (files sample_drive_world).
Proof.
  apply (drive_unchanged [] sample_all_open "D" "/out" sample_drive_world sample_copier).
  - apply (bool_decide_unpack _). vm_compute. exact I.
  - reflexivity.
  - apply (proj1 (bool_decide_eq_false _)). reflexivity.
  - apply (proj1 (bool_decide_eq_false _)). reflexivity.
Defined.

(** C8 as stated fails: with the drive itself as destination, the file
    [e1p2.ch1.csv] that was on the drive has new contents afterwards. *)
Lemma drive_file_overwritten :
  Fs.lookup (files sample_overlap_world) ["Volumes"; "D"; "e1p2.ch1.csv"]
    = Some (File "last week")
  ∧ Fs.lookup (files (copy_scope_data [] sample_all_open sample_copier
                        (PStr "/Volumes/D") false true false false false
                        sample_overlap_world).2)
              ["Volumes"; "D"; "e1p2.ch1.csv"]
    = Some (File "ch1 samples").
Proof. split; reflexivity. Qed.




(** C7 (the code departs from it): [setup_lab.py 1 -c -d D] on a drive
    with a well-formed [E1P2] folder stops with a TypeError and copies
    nothing, because the destination passed on is the flag [True]. *)
Theorem copy_only_type_error :
  main [] sample_all_open "{}" "{}" sample_copy_only_args sample_drive_world
  = (Raise TypeError, sample_drive_world).
Proof. reflexivity. Qed.

(** C4 (the code departs from it): with an [E1P2] folder that holds no
    [*.JPG], [copy_scope_data] raises IndexError, not FileNotFoundError,
    after it has created [jpgs]. *)
Theorem missing_jpg_index_error :
  (let* self := Copier_init [] sample_all_open "D" in
   copy_scope_data [] sample_all_open self (PStr "/out")
                   false true true false false) sample_no_jpg_world
  = (Raise IndexError,
     World (sample_no_jpg_tree ++ [(["out"; "jpgs"], Dir)]) []).
Proof. reflexivity. Qed.

Example lower_ex : Str.lower "E1P2.CH1.CSV" = "e1p2.ch1.csv".
Proof. reflexivity. Qed.
Example split_ex : Str.split Str.slash "/Volumes/D/E1P2/F0000CH1.CSV"
                   = [""; "Volumes"; "D"; "E1P2"; "F0000CH1.CSV"].
Proof. reflexivity. Qed.
Example last_ex : Str.last_chars 7 "F0000CH1.CSV" = "CH1.CSV".
Proof. reflexivity. Qed.
Example last_ex2 : Str.last_chars 7 "A.CSV" = "A.CSV".
Proof. reflexivity. Qed.
Example join_ex : OsPath.join "/Volumes" "D" = "/Volumes/D"
                  /\ OsPath.join "/Volumes/" "D" = "/Volumes/D"
                  /\ OsPath.join "/Volumes" "/tmp" = "/tmp"
                  /\ OsPath.join "" "x" = "x".
Proof. repeat split; reflexivity. Qed.
Example ossplit_ex : OsPath.split "/Volumes/D//E*P*" = ("/Volumes/D", "E*P*")
                     /\ OsPath.split "/x" = ("/", "x")
                     /\ OsPath.split "x" = ("", "x")
                     /\ OsPath.split "a/b/" = ("a/b", "").
Proof. repeat split; reflexivity. Qed.
Example idx_ex : Str.index_from_end 2 [1;2;3] = Some 2
                 /\ Str.index_from_end 2 [1] = None.
Proof. split; reflexivity. Qed.
Example fnmatch_ex : Fnmatch.fnmatch "E*P*" "E1P2" = true
                     /\ Fnmatch.fnmatch "E*P*" "EXPORT" = true
                     /\ Fnmatch.fnmatch "E*P*" "ALL0000" = false
                     /\ Fnmatch.fnmatch "*.CSV" "F0000CH1.CSV" = true
                     /\ Fnmatch.fnmatch "*.CSV" "e1p1.ch1.csv" = false.
Proof. repeat split; reflexivity. Qed.
Example resolve_ex : Fs.resolve ["home"; "u"] "/Volumes//D/./E1P1/" = ["Volumes"; "D"; "E1P1"]
                     /\ Fs.resolve ["home"; "u"] "out/../x" = ["home"; "u"; "x"]
                     /\ Fs.resolve ["home"; "u"] "" = ["home"; "u"].
Proof. repeat split; reflexivity. Qed.

(** The run used above copies all three files of the sample drive. *)
Example copy_run_ex :
  let once := copy_scope_data [] sample_all_open sample_copier (PStr "/out")
                              true true true false false sample_drive_world in
  once.1 = Ok tt
  ∧ Fs.lookup (files once.2) ["out"; "jpgs"; "e1p2.jpg"] = Some (File "screen shot")
  ∧ Fs.lookup (files once.2) ["out"; "E1P2"; "e1p2.ch1.csv"] = Some (File "ch1 samples")
  ∧ Fs.lookup (files once.2) ["out"; "E1P2"; "e1p2.ch2.csv"] = Some (File "ch2 samples").
Proof. repeat split; reflexivity. Qed.

(** ** The further properties at concrete inputs *)

Ltac decided := apply (bool_decide_unpack _); vm_compute; exact I.

Lemma valid_flags_pass_witness :
  check_args sample_notebook_args sample_home_world = (Ok tt, sample_home_world)
  ∧ main ["home"] sample_all_open "{p}" "{r}" sample_notebook_args sample_home_world
    = scaffold ["home"] sample_all_open "{p}" "{r}" sample_notebook_args sample_home_world.
Proof.
  apply (valid_flags_pass ["home"] sample_all_open "{p}" "{r}"
           sample_notebook_args sample_home_world).
  - intros _. repeat split; reflexivity.
  - intros [_ H]. discriminate H.
Defined.

Lemma skeleton_created_witness :
  let w' := {| files := with_dirs (skeleton ["home"] sample_prelab_args) sample_home_tree;
               copied := [] |} in
  main ["home"] sample_all_open "{p}" "{r}" sample_prelab_args sample_home_world
    = (Ok tt, w')
  ∧ main ["home"] sample_all_open "{p}" "{r}" sample_prelab_args w' = (Ok tt, w').
Proof.
  apply (skeleton_created ["home"] sample_all_open "{p}" "{r}"
           sample_prelab_args sample_home_world); try reflexivity.
  - decided.
  - apply Forall_forall. decided.
Defined.

Lemma missing_drive_after_skeleton_witness :
  main ["home"] sample_all_open "{p}" "{r}" sample_no_drive_args sample_home_world
  = (Raise FileNotFoundError,
     {| files := with_dirs (skeleton ["home"] sample_no_drive_args) sample_home_tree;
        copied := [] |}).
Proof.
  apply (missing_drive_after_skeleton ["home"] sample_all_open "{p}" "{r}"
           sample_no_drive_args sample_home_world); try reflexivity.
  - decided.
  - apply Forall_forall. decided.
  - intros H. discriminate H.
  - decided.
Defined.

Lemma main_copies_into_scope_witness :
  ∃ l, copied (main ["home"] sample_all_open "{p}" "{r}" sample_full_args
                    sample_home_world).2
       = [] ++ l
       ∧ Forall (saved_as "/home/Lab 1/scope" false true ["/Volumes/D/E1P2"]) l.
Proof.
  apply (main_copies_into_scope ["home"] sample_all_open "{p}" "{r}"
           sample_full_args sample_home_world
           {| drive_location := "/Volumes/D"; exercise_parts := ["/Volumes/D/E1P2"] |});
    try reflexivity; try decided.
  all: apply Forall_forall; decided.
Defined.

Lemma notebooks_written_witness :
  main ["home"] sample_all_open "{p}" "{r}" sample_notebook_args sample_home_world
  = (Ok tt,
     {| files := with_dirs (skeleton ["home"] sample_notebook_args) sample_home_tree
                 ++ [(["home"; "Lab 1"; "prelab1.ipynb"], File "{p}");
                     (["home"; "Lab 1"; "Lab Report 1.ipynb"], File "{r}")];
        copied := [] |}).
Proof.
  refine (proj1 (notebooks_written ["home"] sample_all_open "{p}" "{r}"
                   sample_notebook_args sample_home_world _ _ _ _ _ _ _ _ _ _ _ _));
    try reflexivity; try decided.
  apply Forall_forall. decided.
Defined.

Lemma name_string_joined_witness :
  name_string ["Ada"; "Bob"; "Cy"] ["A1"; "B2"; "C3"]
  = "Ada (A1), Bob (B2), and Cy (C3)".
Proof.
  exact (name_string_joined ["Ada"; "Bob"] ["A1"; "B2"] "Cy" "C3" eq_refl).
Defined.

Lemma copy_only_never_copies_witness :
  main [] sample_all_open "{p}" "{r}" sample_copy_only_args sample_drive_world
  = (Raise TypeError, sample_drive_world).
Proof.
  apply (copy_only_never_copies [] sample_all_open "{p}" "{r}"
           sample_copy_only_args sample_drive_world sample_copier); try reflexivity.
  intros H. discriminate H.
Defined.

Lemma bare_name_index_error_witness :
  JPGFile_init ["Volumes"; "D"; "E1P2"] sample_all_open "F0000TEK.JPG" sample_home_world
    = (Raise IndexError, sample_home_world)
  ∧ CSVFile_init ["Volumes"; "D"; "E1P2"] sample_all_open "F0000CH1.CSV" true
                 sample_home_world
    = (Raise IndexError, sample_home_world)
  ∧ CSVFile_init ["Volumes"; "D"; "E1P2"] sample_all_open "F0000CH1.CSV" false
                 sample_home_world
    = (Ok {| location := "F0000CH1.CSV"; name := "F0000CH1.CSV" |}, sample_home_world).
Proof.
  destruct (bare_name_index_error ["Volumes"; "D"; "E1P2"] sample_all_open
              "F0000TEK.JPG" sample_home_world eq_refl eq_refl) as (H1 & _ & _).
  destruct (bare_name_index_error ["Volumes"; "D"; "E1P2"] sample_all_open
              "F0000CH1.CSV" sample_home_world eq_refl eq_refl) as (_ & H2 & H3).
  exact (conj H1 (conj H2 H3)).
Defined.

Lemma renamed_names_collide_witness :
  name {| location := "/Volumes/D/E1P2/F0000CH1.CSV"; name := "e1p2.ch1.csv" |}
  = name {| location := "/Volumes/D/E1P2/F0001CH1.CSV"; name := "e1p2.ch1.csv" |}
  ↔ Str.lower "E1P2" = Str.lower "E1P2"
    ∧ Str.lower (Str.last_chars 7 "F0000CH1.CSV")
      = Str.lower (Str.last_chars 7 "F0001CH1.CSV").
Proof.
  pose (w := World (sample_home_tree
                    ++ [(["Volumes"; "D"; "E1P2"; "F0001CH1.CSV"], File "more")]) []).
  apply (renamed_names_collide [] sample_all_open w w
           "/Volumes/D" "E1P2" "F0000CH1.CSV" "/Volumes/D" "E1P2" "F0001CH1.CSV");
    try reflexivity; simpl; lia.
Defined.

Lemma save_writes_content_witness :
  File_save [] sample_all_open
            {| location := "/Volumes/D/E1P2/F0000TEK.JPG"; name := "e1p2.jpg" |}
            (PStr "/home") false false sample_home_world
  = (Ok tt, {| files := sample_home_tree ++ [(["home"; "e1p2.jpg"], File "screen shot")];
               copied := [("/Volumes/D/E1P2/F0000TEK.JPG", "/home/e1p2.jpg")] |}).
Proof.
  refine (proj1 (save_writes_content [] sample_all_open
            {| location := "/Volumes/D/E1P2/F0000TEK.JPG"; name := "e1p2.jpg" |}
            "/home" false sample_home_world "screen shot" _ _ _ _ _ _ _));
    try done; decided.
Defined.

Lemma save_onto_itself_witness :
  File_save [] sample_all_open
            {| location := "/Volumes/D/E1P2/F0000CH1.CSV"; name := "F0000CH1.CSV" |}
            (PStr "/Volumes/D/E1P2") false false sample_home_world
  = (Raise SameFileError, sample_home_world).
Proof.
  apply (save_onto_itself [] sample_all_open
           {| location := "/Volumes/D/E1P2/F0000CH1.CSV"; name := "F0000CH1.CSV" |}
           "/Volumes/D/E1P2" false sample_home_world "ch1 samples");
    try done; decided.
Defined.

Lemma empty_drive_copies_nothing_witness :
  copy_scope_data [] sample_all_open
                  {| drive_location := "/Volumes/D"; exercise_parts := [] |}
                  (PStr "/out") false true true false false sample_empty_drive_world
  = (Ok tt, {| files := files sample_empty_drive_world ++ [(["out"; "jpgs"], Dir)];
               copied := [] |}).
Proof.
  apply (empty_drive_copies_nothing [] sample_all_open
           {| drive_location := "/Volumes/D"; exercise_parts := [] |}
           "/out" false true true false sample_empty_drive_world); done.
Defined.

Lemma copies_follow_layout_witness :
  ∃ l, copied (copy_scope_data [] sample_all_open sample_copier (PStr "/out")
                               true false true false false sample_drive_world).2
       = copied sample_drive_world ++ l
       ∧ Forall (saved_as "/out" true false (exercise_parts sample_copier)) l.
Proof.
  apply (copies_follow_layout [] sample_all_open "D" "/out" sample_copier
           true false true false false sample_drive_world).
  - decided.
  - reflexivity.
  - apply Forall_forall. decided.
Defined.

Lemma index_error_before_csv_witness :
  true = true
  ∧ ∃ l, copied (copy_scope_data [] sample_all_open sample_copier (PStr "/out")
                                 false true true false false sample_no_jpg_world).2
         = copied sample_no_jpg_world ++ l
         ∧ Forall (found_in (exercise_parts sample_copier) "*.JPG") l.
Proof.
  apply (index_error_before_csv [] sample_all_open "D" "/out" sample_copier
           false true true false sample_no_jpg_world).
  - decided.
  - reflexivity.
  - apply Forall_forall. decided.
  - reflexivity.
Defined.

Lemma content_from_drive_witness :
  Fs.lookup (files sample_drive_world) ["out"; "jpgs"; "e1p2.jpg"]
    = Some (File "screen shot")
  ∨ drive_file [] (exercise_parts sample_copier) (files sample_drive_world)
               "screen shot".
Proof.
  apply (content_from_drive [] sample_all_open "D" "/out" sample_copier
           false true true false sample_drive_world).
  - decided.
  - reflexivity.
  - apply Forall_forall. decided.
  - intros part Hin. apply list_elem_of_singleton in Hin. subst part.
    apply (proj1 (bool_decide_eq_false _)). reflexivity.
  - reflexivity.
Defined.

Lemma nothing_removed_witness :
  is_dir <$> Fs.lookup
               (files (copy_scope_data [] sample_all_open sample_copier (PStr "/out")
                                       false true true false false
                                       sample_drive_world).2)
               ["Volumes"; "D"; "E1P2"; "F0000CH1.CSV"]
  = Some false.
Proof.
  apply (nothing_removed [] sample_all_open "D" "/out" sample_copier
           false true true false sample_drive_world).
  - decided.
  - reflexivity.
  - reflexivity.
Defined.

Lemma softrun_meets_existing_jpgs_witness :
  copy_scope_data [] sample_all_open sample_copier (PStr "/out")
                  false true true false true sample_saved_world
  = (Raise DirectoryNotEmpty, sample_saved_world).
Proof.
  refine (proj1 (softrun_meets_existing_jpgs [] sample_all_open sample_copier "/out"
                   false true false sample_saved_world _ _ _ _) _);
    try done; decided.
Defined.
